(** * go-merit-aktiva: the request-signing and response-normalising client

    A shallow embedding of [client.go] (package [aktiva]) and of the parts of
    the Go standard library that decide its behaviour:

    - [crypto/sha256], [crypto/hmac] and [encoding/base64] for
      [GenerateSignature];
    - the fragment of [text/template] that endpoint paths use, for
      [GetEndpointURL];
    - [encoding/json] (scanner, string unquoting, struct decoding) for
      [CheckResponse], [ErrorResponse.UnmarshalJSON] and [Do].

    Go [string]s are byte sequences and are modelled by [string]; [[]byte]
    values are [list byte]; [uint32] words are [Z] with the wrap-around written
    out; Go maps are [gmap]s. *)

From Stdlib Require Import ZArith List String Ascii Strings.Byte Lia.
From stdpp Require Import gmap strings list fin_maps.
Import ListNotations.

Local Open Scope Z_scope.

Set Warnings "-register-all".

(** ** Bytes *)

Definition byte_to_Z (b : byte) : Z := Z.of_N (Byte.to_N b).

Definition byte_of_Z (z : Z) : byte :=
  match Byte.of_N (Z.to_N (z mod 256)) with
  | Some b => b
  | None => x00
  end.

(** [[]byte(s)] and [string(b)] *)
Definition bytes_of_string (s : string) : list byte := list_byte_of_string s.
Definition string_of_bytes (b : list byte) : string := string_of_list_byte b.

(** ** crypto/sha256 *)

Module sha256.

Definition Size : nat := 32.
Definition BlockSize : nat := 64.

(** [uint32] arithmetic *)
Definition u32 (x : Z) : Z := x mod 2 ^ 32.
Definition add32 (x y : Z) : Z := u32 (x + y).
Definition not32 (x : Z) : Z := Z.lxor x 0xffffffff.
(** [bits.RotateLeft32(x, -n)] *)
Definition rotr (n x : Z) : Z := Z.lor (Z.shiftr x n) (u32 (Z.shiftl x (32 - n))).

(** The constants of FIPS 180-4, which Go has as tables: the round
    constants [_K] are the first 32 bits of the fractional parts of the
    cube roots of the first 64 primes, the initial chaining words those of
    the square roots of the first 8. [iroot k n] is the integer part of
    the [k]-th root of [n], found bit by bit from bit 40 down. *)
Definition isPrime (n : Z) : bool :=
  (2 <=? n) && forallb (fun d => negb (n mod Z.of_nat d =? 0)) (seq 2 (Z.to_nat n - 2)).

Definition primes (count : nat) : list Z :=
  firstn count (List.filter isPrime (map Z.of_nat (seq 2 310))).

Definition iroot (k n : Z) : Z :=
  fold_left (fun r bit => let r' := r + Z.shiftl 1 (Z.of_nat bit) in
                          if r' ^ k <=? n then r' else r)
            (rev (seq 0 41)) 0.

Definition _K : list Z :=
  Eval vm_compute in map (fun p => u32 (iroot 3 (p * 2 ^ 96))) (primes 64).

Definition initial : list Z :=
  Eval vm_compute in map (fun p => u32 (iroot 2 (p * 2 ^ 64))) (primes 8).

(** The eight chaining words [dig.h]. *)
Record words8 := W8 { h0 : Z; h1 : Z; h2 : Z; h3 : Z; h4 : Z; h5 : Z; h6 : Z; h7 : Z }.

Definition init : words8 :=
  W8 (nth 0 initial 0) (nth 1 initial 0) (nth 2 initial 0) (nth 3 initial 0)
     (nth 4 initial 0) (nth 5 initial 0) (nth 6 initial 0) (nth 7 initial 0).

(** [uint32(p[j])<<24 | uint32(p[j+1])<<16 | uint32(p[j+2])<<8 | uint32(p[j+3])] *)
Fixpoint be_words (p : list byte) : list Z :=
  match p with
  | b0 :: b1 :: b2 :: b3 :: p' =>
      Z.lor (Z.lor (Z.lor (Z.shiftl (byte_to_Z b0) 24) (Z.shiftl (byte_to_Z b1) 16))
               (Z.shiftl (byte_to_Z b2) 8)) (byte_to_Z b3) :: be_words p'
  | _ => []
  end.

(** The message schedule, kept most recent word first: with [w] holding
    [w[i-1], w[i-2], ...], the next word is
    [t1 + w[i-7] + t2 + w[i-16]]. *)
Definition schedule_step (w : list Z) : list Z :=
  let v1 := nth 1 w 0 in
  let t1 := Z.lxor (Z.lxor (rotr 17 v1) (rotr 19 v1)) (Z.shiftr v1 10) in
  let v2 := nth 14 w 0 in
  let t2 := Z.lxor (Z.lxor (rotr 7 v2) (rotr 18 v2)) (Z.shiftr v2 3) in
  add32 (add32 (add32 t1 (nth 6 w 0)) t2) (nth 15 w 0) :: w.

Definition schedule (block : list byte) : list Z :=
  rev (Nat.iter 48 schedule_step (rev (be_words block))).

(** One of the 64 rounds on the working variables [a..h]. *)
Definition round (s : words8) (kw : Z * Z) : words8 :=
  let '(W8 a b c d e f g h) := s in
  let t1 :=
    add32 (add32 (add32 (add32 h
      (Z.lxor (Z.lxor (rotr 6 e) (rotr 11 e)) (rotr 25 e)))
      (Z.lxor (Z.land e f) (Z.land (not32 e) g)))
      (fst kw)) (snd kw) in
  let t2 :=
    add32 (Z.lxor (Z.lxor (rotr 2 a) (rotr 13 a)) (rotr 22 a))
          (Z.lxor (Z.lxor (Z.land a b) (Z.land a c)) (Z.land b c)) in
  W8 (add32 t1 t2) a b c (add32 d t1) e f g.

(** [blockGeneric] on one 64-byte chunk. *)
Definition block (s : words8) (chunk : list byte) : words8 :=
  let r := fold_left round (combine _K (schedule chunk)) s in
  W8 (add32 (h0 s) (h0 r)) (add32 (h1 s) (h1 r)) (add32 (h2 s) (h2 r)) (add32 (h3 s) (h3 r))
     (add32 (h4 s) (h4 r)) (add32 (h5 s) (h5 r)) (add32 (h6 s) (h6 r)) (add32 (h7 s) (h7 r)).

Fixpoint blocks (n : nat) (s : words8) (p : list byte) : words8 :=
  match n with
  | O => s
  | S n' => blocks n' (block s (firstn 64 p)) (skipn 64 p)
  end.

(** Big-endian bytes of a [uint32] / [uint64]. *)
Definition be32 (x : Z) : list byte :=
  [byte_of_Z (Z.shiftr x 24); byte_of_Z (Z.shiftr x 16); byte_of_Z (Z.shiftr x 8); byte_of_Z x].
Definition be64 (x : Z) : list byte := be32 (Z.shiftr x 32) ++ be32 x.

(** [checkSum]: the padding is 0x80, zeros up to 56 mod 64, then the
    length in bits. *)
Definition pad (msg : list byte) : list byte :=
  let len := Z.of_nat (length msg) in
  msg ++ x80 :: repeat x00 (Z.to_nat ((55 - len) mod 64)) ++ be64 (Z.shiftl len 3).

Definition digest_bytes (s : words8) : list byte :=
  be32 (h0 s) ++ be32 (h1 s) ++ be32 (h2 s) ++ be32 (h3 s) ++
  be32 (h4 s) ++ be32 (h5 s) ++ be32 (h6 s) ++ be32 (h7 s).

(** [sha256.Sum256] *)
Definition Sum256 (msg : list byte) : list byte :=
  let p := pad msg in
  digest_bytes (blocks (length p / 64) init p).

End sha256.

(** ** hash.Hash

    The interface [hmac.New] builds on. A hash state is the bytes written
    so far: [Write] never fails and [Sum] depends only on their
    concatenation. *)

Record Hash := {
  hash_sum : list byte -> list byte;   (* digest of everything written *)
  hash_Size : nat;
  hash_BlockSize : nat;
}.

Record hash_state := { hash_alg : Hash; hash_written : list byte }.

Definition hash_New (alg : Hash) : hash_state := {| hash_alg := alg; hash_written := [] |}.
Definition hash_Write (h : hash_state) (p : list byte) : hash_state :=
  {| hash_alg := hash_alg h; hash_written := hash_written h ++ p |}.
(** [h.Sum(b)] appends the digest to [b]. *)
Definition hash_Sum (h : hash_state) (b : list byte) : list byte :=
  b ++ hash_sum (hash_alg h) (hash_written h).

(** [sha256.New] *)
Definition sha256_New : Hash :=
  {| hash_sum := sha256.Sum256; hash_Size := sha256.Size; hash_BlockSize := sha256.BlockSize |}.

(** ** crypto/hmac *)

Module hmac.

Definition xor_byte (c : Z) (b : byte) : byte := byte_of_Z (Z.lxor (byte_to_Z b) c).

(** The [hmac] struct: the two hashes with their pads already written. *)
Record t := { outer : hash_state; inner : hash_state }.

(** [hmac.New(h, key)]: a key longer than the block size is hashed first;
    it is then copied into the pads, which are a block of zeros each, and
    these are xored with 0x36 (ipad) and 0x5c (opad). *)
Definition New (h : Hash) (key : list byte) : t :=
  let blocksize := hash_BlockSize h in
  let key := if (blocksize <? length key)%nat
             then hash_Sum (hash_Write (hash_New h) key) []
             else key in
  let padded := firstn blocksize (key ++ repeat x00 (blocksize - length key)) in
  let ipad := map (xor_byte 0x36) padded in
  let opad := map (xor_byte 0x5c) padded in
  {| outer := hash_Write (hash_New h) opad; inner := hash_Write (hash_New h) ipad |}.

Definition Write (m : t) (p : list byte) : t :=
  {| outer := outer m; inner := hash_Write (inner m) p |}.

(** [Sum(in)]: [in] followed by the outer hash of the inner digest. *)
Definition Sum (m : t) (b : list byte) : list byte :=
  let innerSum := hash_Sum (inner m) [] in
  b ++ hash_Sum (hash_Write (outer m) innerSum) [].

End hmac.

(** ** encoding/base64, [StdEncoding] *)

Module base64.

Definition encodeStd : string :=
  "ABCDEFGHIJKLMNOPQRSTUVWXYZabcdefghijklmnopqrstuvwxyz0123456789+/".

Definition StdPadding : ascii := "="%char.

(** [enc.encode[v & 0x3F]] *)
Definition enc (v : Z) : ascii :=
  match String.get (Z.to_nat (Z.land v 0x3F)) encodeStd with
  | Some c => c
  | None => StdPadding
  end.

Fixpoint EncodeToString (src : list byte) : string :=
  match src with
  | [] => EmptyString
  | [b0] =>
      let val := Z.shiftl (byte_to_Z b0) 16 in
      String (enc (Z.shiftr val 18)) (String (enc (Z.shiftr val 12))
        (String StdPadding (String StdPadding EmptyString)))
  | [b0; b1] =>
      let val := Z.lor (Z.shiftl (byte_to_Z b0) 16) (Z.shiftl (byte_to_Z b1) 8) in
      String (enc (Z.shiftr val 18)) (String (enc (Z.shiftr val 12))
        (String (enc (Z.shiftr val 6)) (String StdPadding EmptyString)))
  | b0 :: b1 :: b2 :: rest =>
      let val := Z.lor (Z.lor (Z.shiftl (byte_to_Z b0) 16) (Z.shiftl (byte_to_Z b1) 8))
                       (byte_to_Z b2) in
      String (enc (Z.shiftr val 18)) (String (enc (Z.shiftr val 12))
        (String (enc (Z.shiftr val 6)) (String (enc val) (EncodeToString rest))))
  end.

End base64.

(** ** strings *)

Definition ord (c : ascii) : Z := Z.of_N (N_of_ascii c).

(** The double quote character, for texts that contain it. *)
Definition dquote : string := String (ascii_of_nat 34) EmptyString.

Module strings.

(** [strings.Join(elems, sep)] *)
Fixpoint Join (elems : list string) (sep : string) : string :=
  match elems with
  | [] => EmptyString
  | [e] => e
  | e :: elems' => e +:+ sep +:+ Join elems' sep
  end.

(** [strings.Split(s, sep)] for a separator of one byte: the pieces of
    [s] between the separators, always at least one piece. *)
Fixpoint Split (s : string) (sep : ascii) : list string :=
  match s with
  | EmptyString => [EmptyString]
  | String c s' =>
      if Ascii.eqb c sep then EmptyString :: Split s' sep
      else match Split s' sep with
           | piece :: pieces => String c piece :: pieces
           | [] => [String c EmptyString]
           end
  end.

(** [strings.Contains(s, substr)] for a one-byte [substr] *)
Fixpoint ContainsByte (s : string) (c : ascii) : bool :=
  match s with
  | EmptyString => false
  | String c' s' => Ascii.eqb c' c || ContainsByte s' c
  end.

End strings.

(** ** strconv

    [Quote], which the verb [%q] of [fmt] writes a string with: the
    string between double quotes, a quote or a backslash after a
    backslash, the control characters of ASCII as escapes. A byte outside
    ASCII is copied: that is what the library does with the printable
    characters, and the others, which it writes as escapes, are not told
    apart here. *)

Module strconv.

Definition lowerhex (n : Z) : ascii :=
  nth (Z.to_nat n) (list_ascii_of_string "0123456789abcdef") "0"%char.

Definition one (c : ascii) : string := String c EmptyString.

Definition appendEscapedRune (c : ascii) : string :=
  let n := ord c in
  if (n =? 34) || (n =? 92) then String "\" (one c)
  else if (32 <=? n) && negb (n =? 127) then one c
  else if n =? 7 then "\a"
  else if n =? 8 then "\b"
  else if n =? 12 then "\f"
  else if n =? 10 then "\n"
  else if n =? 13 then "\r"
  else if n =? 9 then "\t"
  else if n =? 11 then "\v"
  else "\x" +:+ one (lowerhex (n / 16)) +:+ one (lowerhex (n mod 16)).

Fixpoint escape (s : string) : string :=
  match s with
  | EmptyString => EmptyString
  | String c s' => appendEscapedRune c +:+ escape s'
  end.

Definition Quote (s : string) : string := dquote +:+ escape s +:+ dquote.

End strconv.

(** ** text/template

    Endpoint paths are literal text with [{{.name}}] placeholders, executed
    against a [map[string]string]. The model covers that fragment: text,
    and actions made of one field of the dot value, with blanks allowed
    inside the delimiters. A template with any other action (pipelines,
    trim markers, comments, field chains, variables, ...) is reported as
    [OutsideFragment]: the model says nothing about it. *)

Module template.

Inductive Node :=
| TextNode (text : string)
| FieldNode (ident : string).

(** What [Parse] gives. [ParseError] carries the message of the lexer;
    the error that [Parse] returns words it together with the name of the
    template and the line, and no statement below depends on the text. *)
Inductive parsed :=
| Tree (root : list Node)
| ParseError (msg : string)
| OutsideFragment.

Definition isBlank (c : ascii) : bool := Ascii.eqb c " " || Ascii.eqb c "009".

(** [isAlphaNumeric], on ASCII: letters, digits and underscore *)
Definition isLetter (c : ascii) : bool :=
  ((65 <=? ord c) && (ord c <=? 90)) || ((97 <=? ord c) && (ord c <=? 122)) || Ascii.eqb c "_".
Definition isDigit (c : ascii) : bool := (48 <=? ord c) && (ord c <=? 57).
Definition isAlphaNumeric (c : ascii) : bool := isLetter c || isDigit c.

(** Where the lexer is: in text, or at one of the places of an action
    [{{ .name }}]. The text may end inside an action, after the left
    delimiter, the name or the blanks: the lexer then reports an unclosed
    action. Every other way in which an action can go wrong is left to
    [OutsideFragment]. *)
Inductive lexState :=
| lexText (text : string)          (* text collected since the last action *)
| lexInsideAction                  (* after the left delimiter *)
| lexField (ident : string)        (* after the dot, with the name so far *)
| lexRightDelim (ident : string).  (* after the name: blanks, then the right delimiter *)

Definition emitText (text : string) (p : parsed) : parsed :=
  match p with
  | Tree ns => match text with
               | EmptyString => Tree ns
               | _ => Tree (TextNode text :: ns)
               end
  | _ => p
  end.

Definition emitField (ident : string) (p : parsed) : parsed :=
  match p with
  | Tree ns => Tree (FieldNode ident :: ns)
  | _ => p
  end.

Definition snoc (s : string) (c : ascii) : string := s +:+ String c EmptyString.

Fixpoint lex (st : lexState) (input : string) {struct input} : parsed :=
  match input with
  | EmptyString =>
      match st with
      | lexText text => emitText text (Tree [])
      | _ => ParseError "unclosed action"
      end
  | String c rest =>
      match st with
      | lexText text =>
          (* the next left delimiter is the first place where "{{" occurs *)
          if Ascii.eqb c "{" then
            match rest with
            | String c' rest' =>
                if Ascii.eqb c' "{" then emitText text (lex lexInsideAction rest')
                else lex (lexText (snoc text c)) rest
            | EmptyString => lex (lexText (snoc text c)) rest
            end
          else lex (lexText (snoc text c)) rest
      | lexInsideAction =>
          if isBlank c then lex lexInsideAction rest
          else if Ascii.eqb c "." then
            match rest with
            | String c' _ => if isLetter c' then lex (lexField EmptyString) rest
                             else OutsideFragment
            | EmptyString => OutsideFragment
            end
          else OutsideFragment
      | lexField ident =>
          if isAlphaNumeric c then lex (lexField (snoc ident c)) rest
          else if isBlank c then lex (lexRightDelim ident) rest
          else if Ascii.eqb c "}" then
            match rest with
            | String c' rest' =>
                if Ascii.eqb c' "}" then emitField ident (lex (lexText EmptyString) rest')
                else OutsideFragment
            | EmptyString => OutsideFragment
            end
          else OutsideFragment
      | lexRightDelim ident =>
          if isBlank c then lex (lexRightDelim ident) rest
          else if Ascii.eqb c "}" then
            match rest with
            | String c' rest' =>
                if Ascii.eqb c' "}" then emitField ident (lex (lexText EmptyString) rest')
                else OutsideFragment
            | EmptyString => OutsideFragment
            end
          else OutsideFragment
      end
  end.

(** [template.New(name).Parse(text)] *)
Definition Parse (text : string) : parsed := lex (lexText EmptyString) text.

(** What [printValue] writes for the invalid [reflect.Value]. *)
Definition noValue : string := "<no value>".

(** [evalField] on a [map[string]string] receiver, followed by
    [printValue]: the entry for the name is printed as it stands. For a
    missing key, [MapIndex] gives the invalid value; under the default
    [missingkey] option, the one [GetEndpointURL] leaves in place, that is
    no error: the invalid value is handed on and printed as [noValue]. *)
Definition evalField (data : gmap string string) (ident : string) : string :=
  match data !! ident with
  | Some v => v
  | None => noValue
  end.

(** [Execute]: text is copied, a field is printed. No node of the
    fragment can fail on a [map[string]string]. *)
Fixpoint Execute (root : list Node) (data : gmap string string) : string :=
  match root with
  | [] => EmptyString
  | TextNode text :: root' => text +:+ Execute root' data
  | FieldNode ident :: root' => evalField data ident +:+ Execute root' data
  end.

End template.

(** ** Errors

    [Error] is the error object of the API. [error] is Go's interface,
    with the dynamic types that reach an [ErrorResponse] or a caller. *)

Record Error := { Message : string; MessageDetail : string }.

Inductive error :=
| errorString (s : string)              (* errors.New, fmt.Errorf *)
| ErrorValue (e : Error)                (* an Error of this package *)
| io_EOF
| io_ErrUnexpectedEOF
| json_SyntaxError (msg : string)
| json_UnmarshalTypeError (Value Type_ Struct Field : string).

(** [func (e Error) Error() string] *)
Definition Error_Error (e : Error) : string :=
  Message e +:+ ": " +:+ MessageDetail e.

Definition error_Error (err : error) : string :=
  match err with
  | errorString s => s
  | ErrorValue e => Error_Error e
  | io_EOF => "EOF"
  | io_ErrUnexpectedEOF => "unexpected EOF"
  | json_SyntaxError msg => msg
  | json_UnmarshalTypeError v t s f =>
      match s, f with
      | EmptyString, EmptyString =>
          "json: cannot unmarshal " +:+ v +:+ " into Go value of type " +:+ t
      | _, _ =>
          "json: cannot unmarshal " +:+ v +:+ " into Go struct field " +:+ s +:+ "." +:+ f
            +:+ " of type " +:+ t
      end
  end.

(** A Go function that either returns or panics. *)
Inductive outcome (A : Type) :=
| Returns (a : A)
| Panics (msg : string).
Arguments Returns {A} a.
Arguments Panics {A} msg.

(** An [io.ReadCloser] such as a response body: the bytes it delivers, and
    the error that ends the reading, [None] for a clean [io.EOF]. *)
Record ReadCloser := { body_data : list byte; body_err : option error }.

(** [ioutil.ReadAll] *)
Definition ReadAll (b : ReadCloser) : list byte * option error := (body_data b, body_err b).

(** [ioutil.NopCloser(bytes.NewReader(data))] *)
Definition NopCloser (data : list byte) : ReadCloser := {| body_data := data; body_err := None |}.

(** The Go values a JSON text is decoded into: what a destination pointer
    points to. The model has strings, booleans and structs of them, a
    struct field being listed under the name it has in JSON. *)
Inductive GoValue :=
| GoString (s : string)
| GoBool (b : bool)
| GoStruct (type : string) (fields : list (string * GoValue)).

(** ** encoding/json: the scanner *)

Module json.

Inductive value :=
| JNull
| JBool (b : bool)
| JNumber (lit : string)
| JString (s : string)
| JArray (elems : list value)
| JObject (members : list (string * value)).

(** What scanning a prefix of the input gives: a result and the input
    left, a byte that cannot come next, or the end of the input inside
    a value. [OutOfFuel] is not a result of the Go code: it marks a
    recursion bound chosen too small, and [scan_fuel] shows that the
    bound used here never is. *)
Inductive scanned (A : Type) :=
| Scanned (a : A) (rest : list byte)
| Invalid (c : byte) (context : string)
| EndOfInput
| OutOfFuel.
Arguments Scanned {A} a rest.
Arguments Invalid {A} c context.
Arguments EndOfInput {A}.
Arguments OutOfFuel {A}.

Definition smap {A B} (f : A -> B) (r : scanned A) : scanned B :=
  match r with
  | Scanned a rest => Scanned (f a) rest
  | Invalid c ctx => Invalid c ctx
  | EndOfInput => EndOfInput
  | OutOfFuel => OutOfFuel
  end.

Definition byte_is (c expected : byte) : bool := Byte.eqb c expected.

Definition isSpace (c : byte) : bool :=
  byte_is c " " || byte_is c x09 || byte_is c x0d || byte_is c x0a.

Fixpoint skip_space (s : list byte) : list byte :=
  match s with
  | c :: rest => if isSpace c then skip_space rest else s
  | [] => []
  end.

Definition isDigit (c : byte) : bool := (48 <=? byte_to_Z c) && (byte_to_Z c <=? 57).

Definition hexval (c : byte) : option Z :=
  let z := byte_to_Z c in
  if (48 <=? z) && (z <=? 57) then Some (z - 48)
  else if (97 <=? z) && (z <=? 102) then Some (z - 97 + 10)
  else if (65 <=? z) && (z <=? 70) then Some (z - 65 + 10)
  else None.

(** [getu4] on the four bytes after a backslash and u *)
Definition getu4 (a b c d : byte) : option Z :=
  match hexval a, hexval b, hexval c, hexval d with
  | Some x3, Some x2, Some x1, Some x0 => Some (x3 * 4096 + x2 * 256 + x1 * 16 + x0)
  | _, _, _, _ => None
  end.

(** The scanner inside a hexadecimal escape: the first byte that is no
    hexadecimal digit is an error, the end of the input otherwise. *)
Fixpoint bad_hex {A} (l : list byte) : scanned A :=
  match l with
  | [] => EndOfInput
  | c :: l' => match hexval c with
               | Some _ => bad_hex l'
               | None => Invalid c "in \u hexadecimal character escape"
               end
  end.

Definition RuneError : list byte := [xef; xbf; xbd].

(** [utf8.EncodeRune] *)
Definition EncodeRune (r : Z) : list byte :=
  if (r <? 0) || (0x10FFFF <? r) || ((0xD800 <=? r) && (r <=? 0xDFFF)) then RuneError
  else if r <? 0x80 then [byte_of_Z r]
  else if r <? 0x800 then
    [byte_of_Z (Z.lor 0xC0 (Z.shiftr r 6)); byte_of_Z (Z.lor 0x80 (Z.land r 0x3F))]
  else if r <? 0x10000 then
    [byte_of_Z (Z.lor 0xE0 (Z.shiftr r 12));
     byte_of_Z (Z.lor 0x80 (Z.land (Z.shiftr r 6) 0x3F));
     byte_of_Z (Z.lor 0x80 (Z.land r 0x3F))]
  else
    [byte_of_Z (Z.lor 0xF0 (Z.shiftr r 18));
     byte_of_Z (Z.lor 0x80 (Z.land (Z.shiftr r 12) 0x3F));
     byte_of_Z (Z.lor 0x80 (Z.land (Z.shiftr r 6) 0x3F));
     byte_of_Z (Z.lor 0x80 (Z.land r 0x3F))].

Definition between (lo hi : Z) (c : byte) : bool :=
  (lo <=? byte_to_Z c) && (byte_to_Z c <=? hi).

(** [utf8.DecodeRune] on a lead byte above 0x7F and what follows it:
    the number of continuation bytes of a well-formed encoding, or
    [None] where Go yields [(RuneError, 1)]. *)
Definition utf8_continuation (c : byte) (rest : list byte) : option nat :=
  let z := byte_to_Z c in
  let tail2 lo hi :=
    match rest with
    | c1 :: c2 :: _ => if between lo hi c1 && between 0x80 0xBF c2 then Some 2%nat else None
    | _ => None
    end in
  let tail3 lo hi :=
    match rest with
    | c1 :: c2 :: c3 :: _ =>
        if between lo hi c1 && between 0x80 0xBF c2 && between 0x80 0xBF c3
        then Some 3%nat else None
    | _ => None
    end in
  if (0xC2 <=? z) && (z <=? 0xDF) then
    match rest with
    | c1 :: _ => if between 0x80 0xBF c1 then Some 1%nat else None
    | _ => None
    end
  else if z =? 0xE0 then tail2 0xA0 0xBF
  else if z =? 0xED then tail2 0x80 0x9F
  else if (0xE1 <=? z) && (z <=? 0xEF) then tail2 0x80 0xBF
  else if z =? 0xF0 then tail3 0x90 0xBF
  else if (0xF1 <=? z) && (z <=? 0xF3) then tail3 0x80 0xBF
  else if z =? 0xF4 then tail3 0x80 0x8F
  else None.

(** The second half of a surrogate pair: [getu4] on the next six bytes
    and [utf16.DecodeRune]. *)
Definition surrogate_pair (rr : Z) (b0 b1 c1 c2 c3 c4 : byte) : option Z :=
  if byte_is b0 x5c && byte_is b1 "u" then
    match getu4 c1 c2 c3 c4 with
    | Some rr1 =>
        if (0xD800 <=? rr) && (rr <? 0xDC00) && (0xDC00 <=? rr1) && (rr1 <? 0xE000)
        then Some (Z.lor (Z.shiftl (rr - 0xD800) 10) (rr1 - 0xDC00) + 0x10000)
        else None
    | None => None
    end
  else None.

Definition emit {A} (l : list A) (r : scanned (list A)) : scanned (list A) :=
  smap (fun s => l ++ s) r.

(** The one-byte escapes after a backslash. *)
Definition escape (e : byte) : option byte :=
  if byte_is e x22 then Some x22
  else if byte_is e x5c then Some x5c
  else if byte_is e "/" then Some "/"%byte
  else if byte_is e "b" then Some x08
  else if byte_is e "f" then Some x0c
  else if byte_is e "n" then Some x0a
  else if byte_is e "r" then Some x0d
  else if byte_is e "t" then Some x09
  else None.

(** A string literal after its opening quote, scanned ([stateInString]
    and the states after it) and unquoted ([unquoteBytes]) in one pass:
    escapes are replaced, ill-formed UTF-8 becomes U+FFFD. [pending]
    counts the continuation bytes of a UTF-8 encoding already checked. *)
Fixpoint scan_string (pending : nat) (s : list byte) {struct s} : scanned (list byte) :=
  match s with
  | [] => EndOfInput
  | c :: rest =>
      match pending with
      | S k => emit [c] (scan_string k rest)
      | O =>
          if byte_is c x22 then Scanned [] rest
          else if byte_is c x5c then
            match rest with
            | [] => EndOfInput
            | e :: rest1 =>
                match escape e with
                | Some b => emit [b] (scan_string 0 rest1)
                | None =>
                    if byte_is e "u" then
                      match rest1 with
                      | a1 :: a2 :: a3 :: a4 :: rest2 =>
                          match getu4 a1 a2 a3 a4 with
                          | None => bad_hex [a1; a2; a3; a4]
                          | Some rr =>
                              if (0xD800 <=? rr) && (rr <? 0xE000) then
                                match rest2 with
                                | b0 :: b1 :: c1 :: c2 :: c3 :: c4 :: rest3 =>
                                    match surrogate_pair rr b0 b1 c1 c2 c3 c4 with
                                    | Some dec => emit (EncodeRune dec) (scan_string 0 rest3)
                                    | None => emit RuneError (scan_string 0 rest2)
                                    end
                                | _ => emit RuneError (scan_string 0 rest2)
                                end
                              else emit (EncodeRune rr) (scan_string 0 rest2)
                          end
                      | _ => bad_hex rest1
                      end
                    else Invalid e "in string escape code"
                end
            end
          else if byte_to_Z c <? 0x20 then Invalid c "in string literal"
          else if byte_to_Z c <? 0x80 then emit [c] (scan_string 0 rest)
          else match utf8_continuation c rest with
               | Some k => emit [c] (scan_string k rest)
               | None => emit RuneError (scan_string 0 rest)
               end
      end
  end.

(** The rest of a literal ([true], [false], [null]) after its first byte. *)
Fixpoint scan_literal (name : string) (expect : list byte) (s : list byte) : scanned unit :=
  match expect with
  | [] => Scanned tt s
  | e :: expect' =>
      match s with
      | [] => EndOfInput
      | c :: rest =>
          if byte_is c e then scan_literal name expect' rest
          else Invalid c ("in literal " +:+ name +:+ " (expecting '"
                            +:+ string_of_bytes [e] +:+ "')")
      end
  end.

Fixpoint skip_digits (s : list byte) : list byte :=
  match s with
  | c :: rest => if isDigit c then skip_digits rest else s
  | [] => []
  end.

(** [stateE], [stateESign], [stateE0] *)
Definition scan_exponent (s : list byte) : scanned unit :=
  match s with
  | c :: rest =>
      if byte_is c "e" || byte_is c "E" then
        let rest := match rest with
                    | sign :: rest' => if byte_is sign "+" || byte_is sign "-" then rest' else rest
                    | [] => rest
                    end in
        match rest with
        | [] => EndOfInput
        | d :: rest' => if isDigit d then Scanned tt (skip_digits rest')
                        else Invalid d "in exponent of numeric literal"
        end
      else Scanned tt s
  | [] => Scanned tt s
  end.

(** [stateDot], [stateDot0] and the exponent *)
Definition scan_fraction (s : list byte) : scanned unit :=
  match s with
  | c :: rest =>
      if byte_is c "." then
        match rest with
        | [] => EndOfInput
        | d :: rest' => if isDigit d then scan_exponent (skip_digits rest')
                        else Invalid d "after decimal point in numeric literal"
        end
      else scan_exponent s
  | [] => Scanned tt s
  end.

(** [stateNeg], [state0], [state1]; the input begins with a minus sign
    or a digit *)
Definition scan_number (s : list byte) : scanned unit :=
  let digits := match s with
                | c :: rest => if byte_is c "-" then rest else s
                | [] => s
                end in
  match digits with
  | [] => EndOfInput
  | d :: rest =>
      if byte_is d "0" then scan_fraction rest
      else if isDigit d then scan_fraction (skip_digits rest)
      else Invalid d "in numeric literal"
  end.

Definition maxNestingDepth : Z := 10000.

Definition consumed (s rest : list byte) : string :=
  string_of_bytes (firstn (length s - length rest) s).

(** A value at [stateBeginValue], the members of an object from a key
    on, and the elements of an array from a value on. [depth] is the
    length of the scanner's [parseState]. *)
Fixpoint scan_value (fuel : nat) (depth : Z) (s : list byte) {struct fuel} : scanned value :=
  match fuel with
  | O => OutOfFuel
  | S fuel' =>
      match skip_space s with
      | [] => EndOfInput
      | c :: rest =>
          if byte_is c "{" then
            if maxNestingDepth <? depth + 1 then Invalid c "exceeded max depth"
            else match skip_space rest with
                 | [] => EndOfInput
                 | c' :: rest' =>
                     if byte_is c' "}" then Scanned (JObject []) rest'
                     else smap JObject (scan_members fuel' (depth + 1) (c' :: rest'))
                 end
          else if byte_is c "[" then
            if maxNestingDepth <? depth + 1 then Invalid c "exceeded max depth"
            else match skip_space rest with
                 | [] => EndOfInput
                 | c' :: rest' =>
                     if byte_is c' "]" then Scanned (JArray []) rest'
                     else smap JArray (scan_elems fuel' (depth + 1) (c' :: rest'))
                 end
          else if byte_is c x22 then smap (fun b => JString (string_of_bytes b)) (scan_string 0 rest)
          else if byte_is c "-" || isDigit c then
            match scan_number (c :: rest) with
            | Scanned _ rest' => Scanned (JNumber (consumed (c :: rest) rest')) rest'
            | Invalid c' ctx => Invalid c' ctx
            | EndOfInput => EndOfInput
            | OutOfFuel => OutOfFuel
            end
          else if byte_is c "t" then
            smap (fun _ => JBool true) (scan_literal "true" ["r"; "u"; "e"]%byte rest)
          else if byte_is c "f" then
            smap (fun _ => JBool false) (scan_literal "false" ["a"; "l"; "s"; "e"]%byte rest)
          else if byte_is c "n" then
            smap (fun _ => JNull) (scan_literal "null" ["u"; "l"; "l"]%byte rest)
          else Invalid c "looking for beginning of value"
      end
  end

with scan_members (fuel : nat) (depth : Z) (s : list byte) {struct fuel}
  : scanned (list (string * value)) :=
  match fuel with
  | O => OutOfFuel
  | S fuel' =>
      match skip_space s with
      | [] => EndOfInput
      | c :: rest =>
          if byte_is c x22 then
            match scan_string 0 rest with
            | Scanned key rest1 =>
                match skip_space rest1 with
                | [] => EndOfInput
                | c1 :: rest2 =>
                    if byte_is c1 ":" then
                      match scan_value fuel' depth rest2 with
                      | Scanned v rest3 =>
                          match skip_space rest3 with
                          | [] => EndOfInput
                          | c3 :: rest4 =>
                              if byte_is c3 "," then
                                smap (cons (string_of_bytes key, v))
                                     (scan_members fuel' depth rest4)
                              else if byte_is c3 "}" then Scanned [(string_of_bytes key, v)] rest4
                              else Invalid c3 "after object key:value pair"
                          end
                      | Invalid c' ctx => Invalid c' ctx
                      | EndOfInput => EndOfInput
                      | OutOfFuel => OutOfFuel
                      end
                    else Invalid c1 "after object key"
                end
            | Invalid c' ctx => Invalid c' ctx
            | EndOfInput => EndOfInput
            | OutOfFuel => OutOfFuel
            end
          else Invalid c "looking for beginning of object key string"
      end
  end

with scan_elems (fuel : nat) (depth : Z) (s : list byte) {struct fuel}
  : scanned (list value) :=
  match fuel with
  | O => OutOfFuel
  | S fuel' =>
      match scan_value fuel' depth s with
      | Scanned v rest =>
          match skip_space rest with
          | [] => EndOfInput
          | c :: rest' =>
              if byte_is c "," then smap (cons v) (scan_elems fuel' depth rest')
              else if byte_is c "]" then Scanned [v] rest'
              else Invalid c "after array element"
          end
      | Invalid c' ctx => Invalid c' ctx
      | EndOfInput => EndOfInput
      | OutOfFuel => OutOfFuel
      end
  end.

(** The first value of the input. Of any two calls in a row, one takes
    a byte of the input, so twice the number of bytes bounds the
    recursion. *)
Definition scan (data : list byte) : scanned value :=
  scan_value (S (2 * length data)) 0 data.

(** *** Errors of the scanner *)

Definition hexdigit (n : Z) : string :=
  match String.get (Z.to_nat n) "0123456789abcdef" with
  | Some c => String c EmptyString
  | None => EmptyString
  end.

(** [quoteChar]: the byte as it is shown in a syntax error *)
Definition quoteChar (c : byte) : string :=
  let z := byte_to_Z c in
  let quoted :=
    if z =? 39 then "\'"
    else if z =? 92 then "\\"
    else if z =? 7 then "\a"
    else if z =? 8 then "\b"
    else if z =? 12 then "\f"
    else if z =? 10 then "\n"
    else if z =? 13 then "\r"
    else if z =? 9 then "\t"
    else if z =? 11 then "\v"
    else if (0x20 <=? z) && (z <=? 0x7E) then string_of_bytes [c]
    else if (z <? 0x20) || (z =? 0x7F) then "\x" +:+ hexdigit (z / 16) +:+ hexdigit (z mod 16)
    else if (0xA1 <=? z) && negb (z =? 0xAD) then string_of_bytes (EncodeRune z)
    else "\u00" +:+ hexdigit (z / 16) +:+ hexdigit (z mod 16) in
  "'" +:+ quoted +:+ "'".

Definition syntaxError (c : byte) (context : string) : error :=
  json_SyntaxError ("invalid character " +:+ quoteChar c +:+ " " +:+ context).

Definition unexpectedEnd : error := json_SyntaxError "unexpected end of JSON input".

(** [checkValid]: the data is one value between white space *)
Definition checkValid (data : list byte) : option error :=
  match scan data with
  | Scanned _ rest =>
      match skip_space rest with
      | [] => None
      | c :: _ => Some (syntaxError c "after top-level value")
      end
  | Invalid c ctx => Some (syntaxError c ctx)
  | EndOfInput | OutOfFuel => Some unexpectedEnd
  end.

(** *** Decoding into a Go value *)

Definition toLower (c : ascii) : ascii :=
  if (65 <=? ord c) && (ord c <=? 90) then ascii_of_N (N_of_ascii c + 32) else c.

(** The long s, U+017F, and the Kelvin sign, U+212A, in UTF-8 *)
Definition isLongS (c1 c2 : ascii) : bool := (ord c1 =? 0xC5) && (ord c2 =? 0xBF).
Definition isKelvin (c1 c2 c3 : ascii) : bool :=
  (ord c1 =? 0xE2) && (ord c2 =? 0x84) && (ord c3 =? 0xAA).

(** The folding under which a key is compared with the names of the
    fields. The case of ASCII letters is dropped, and the two characters
    outside ASCII that Unicode folds together with an ASCII letter, the
    long s and the Kelvin sign, go to [s] and [k]. Every other byte is
    kept, where the library folds the other characters among themselves:
    that gives the comparison of the library for every key as long as the
    names of the fields are in ASCII, which the theorems on keys without
    a field ask of the destination. *)
Fixpoint foldName (s : string) : string :=
  match s with
  | EmptyString => EmptyString
  | String c1 s1 =>
      match s1 with
      | EmptyString => String (toLower c1) EmptyString
      | String c2 s2 =>
          if isLongS c1 c2 then String "s" (foldName s2)
          else
            match s2 with
            | EmptyString => String (toLower c1) (foldName s1)
            | String c3 s3 =>
                if isKelvin c1 c2 c3 then String "k" (foldName s3)
                else String (toLower c1) (foldName s1)
            end
      end
  end.

(** The field a key selects: the one of that name or, failing that, the
    first whose name equals the key under [foldName]. *)
Fixpoint index_where {A} (p : A -> bool) (l : list A) : option nat :=
  match l with
  | [] => None
  | x :: l' => if p x then Some O else S <$> index_where p l'
  end.

Definition find_field (key : string) (fields : list (string * GoValue)) : option nat :=
  match index_where (fun f => String.eqb (fst f) key) fields with
  | Some i => Some i
  | None => index_where (fun f => String.eqb (foldName (fst f)) (foldName key)) fields
  end.

(** [d.errorContext] *)
Record errorContext := { ctx_Struct : string; ctx_FieldStack : list string }.

Definition type_String (v : GoValue) : string :=
  match v with
  | GoString _ => "string"
  | GoBool _ => "bool"
  | GoStruct t _ => t
  end.

(** [reflect.Type.Name]: the type's name without its package *)
Definition type_Name (t : string) : string :=
  List.last (strings.Split t ".") EmptyString.

Definition noContext : errorContext := {| ctx_Struct := EmptyString; ctx_FieldStack := [] |}.

(** What [d.saveError] is given while a value is stored: an
    [*UnmarshalTypeError] under [addErrorContext], or the error for a key
    without a field. *)
Inductive decodeError :=
| TypeMismatch (Value Type_ Struct Field : string)
| UnknownField (key : string).

Definition error_of (e : decodeError) : error :=
  match e with
  | TypeMismatch v t s f => json_UnmarshalTypeError v t s f
  | UnknownField key => errorString ("json: unknown field " +:+ strconv.Quote key)
  end.

(** [&UnmarshalTypeError{Value: what, Type: v.Type()}] under [addErrorContext] *)
Definition typeError (ctx : errorContext) (what : string) (v : GoValue) : decodeError :=
  TypeMismatch what (type_String v) (ctx_Struct ctx) (strings.Join (ctx_FieldStack ctx) ".").

(** [d.saveError]: the first error is the one kept *)
Definition saveError (saved new : option decodeError) : option decodeError :=
  match saved with
  | Some _ => saved
  | None => new
  end.

(** [d.object] on a struct of type [t]: the members in turn, each stored
    by [dec] into the field its key selects. Under
    [DisallowUnknownFields] a key without a field is saved as an error;
    its value is skipped in both modes. *)
Fixpoint object (dec : errorContext -> value -> GoValue -> GoValue * option decodeError)
    (strict : bool) (t : string) (ctx : errorContext) (members : list (string * value))
    (fields : list (string * GoValue)) (saved : option decodeError) {struct members}
  : list (string * GoValue) * option decodeError :=
  match members with
  | [] => (fields, saved)
  | (key, jv) :: members' =>
      match find_field key fields with
      | Some i =>
          match fields !! i with
          | Some (name, fv) =>
              let ctx' := {| ctx_Struct := type_Name t;
                             ctx_FieldStack := ctx_FieldStack ctx ++ [name] |} in
              let '(fv', err) := dec ctx' jv fv in
              object dec strict t ctx members' (<[i := (name, fv')]> fields) (saveError saved err)
          | None => object dec strict t ctx members' fields saved
          end
      | None =>
          object dec strict t ctx members' fields
            (if strict then saveError saved (Some (UnknownField key)) else saved)
      end
  end.

(** [d.value]: the value is stored where its kind fits; a misfit is
    saved as an error and decoding goes on. *)
Fixpoint decode (strict : bool) (ctx : errorContext) (j : value) (v : GoValue) {struct j}
  : GoValue * option decodeError :=
  match j with
  | JNull => (v, None)
  | JBool b =>
      match v with
      | GoBool _ => (GoBool b, None)
      | _ => (v, Some (typeError ctx "bool" v))
      end
  | JNumber _ => (v, Some (typeError ctx "number" v))
  | JString s =>
      match v with
      | GoString _ => (GoString s, None)
      | _ => (v, Some (typeError ctx "string" v))
      end
  | JArray _ => (v, Some (typeError ctx "array" v))
  | JObject members =>
      match v with
      | GoStruct t fields =>
          let '(fields', saved) := object (decode strict) strict t ctx members fields None in
          (GoStruct t fields', saved)
      | _ => (v, Some (typeError ctx "object" v))
      end
  end.

(** [d.unmarshal]: the value stored and [d.savedError] *)
Definition unmarshal (strict : bool) (j : value) (v : GoValue) : GoValue * option error :=
  let '(v', saved) := decode strict noContext j v in
  (v', error_of <$> saved).

(** [json.Unmarshal(data, &v)]: the value after decoding and the error *)
Definition Unmarshal (data : list byte) (v : GoValue) : GoValue * option error :=
  match checkValid data with
  | Some err => (v, Some err)
  | None =>
      match scan data with
      | Scanned j _ => unmarshal false j v
      | _ => (v, Some unexpectedEnd)
      end
  end.

(** [json.NewDecoder(body).Decode(&v)], with [DisallowUnknownFields]
    called before when [strict]. The decoder reads on until the first
    value of the stream is complete and looks no further. An object or
    an array is complete at its closing bracket; a string, a number or
    a literal needs the byte after it or the end of the stream. A
    stream that ends before any value gives [io.EOF]. *)
Definition Decode (strict : bool) (body : ReadCloser) (v : GoValue) : GoValue * option error :=
  match scan (body_data body) with
  | Scanned j rest =>
      let complete :=
        match j, rest, body_err body with
        | (JObject _ | JArray _), _, _ => true
        | _, _ :: _, _ => true
        | _, [], None => true
        | _, [], Some _ => false
        end in
      if complete then unmarshal strict j v else (v, body_err body)
  | Invalid c ctx => (v, Some (syntaxError c ctx))
  | EndOfInput | OutOfFuel =>
      match body_err body with
      | Some err => (v, Some err)
      | None =>
          match skip_space (body_data body) with
          | [] => (v, Some io_EOF)
          | _ => (v, Some io_ErrUnexpectedEOF)
          end
      end
  end.

End json.

(** ** context, net/url, net/http *)

Module context.
Inductive Context :=
| Background
| WithCancel (parent : Context)
| WithDeadline (parent : Context) (deadline : Z)
| WithValue (parent : Context) (key val : string).
End context.

Module url.

Record URL := { Scheme : string; Host : string; Path : string }.

Definition withPath (u : URL) (path : string) : URL :=
  {| Scheme := Scheme u; Host := Host u; Path := path |}.

(** [Values.Add]: the value is appended to those of the key *)
Definition Add (v : gmap string (list string)) (key value : string)
  : gmap string (list string) :=
  <[key := default [] (v !! key) ++ [value]]> v.

End url.

Module http.

(** [Header.Get] and [Header.Add]; the keys used here are in canonical form. *)
Definition Get (h : gmap string (list string)) (key : string) : string :=
  match h !! key with
  | Some (v :: _) => v
  | _ => EmptyString
  end.

Definition Add (h : gmap string (list string)) (key value : string)
  : gmap string (list string) :=
  <[key := default [] (h !! key) ++ [value]]> h.

Record Response := {
  Status : string;                      (* e.g. "404 Not Found" *)
  StatusCode : Z;
  Header : gmap string (list string);
  Body : ReadCloser;
}.

Definition withBody (r : Response) (body : ReadCloser) : Response :=
  {| Status := Status r; StatusCode := StatusCode r; Header := Header r; Body := body |}.

(** A request. [ReqQuery] is the query of its URL as [URL.Query()]
    gives it; [ReqContext] is [None] for the background context that
    [http.NewRequest] sets. *)
Record Request := {
  Method : string;
  ReqURL : url.URL;
  ReqQuery : gmap string (list string);
  ReqHeader : gmap string (list string);
  ReqBody : list byte;
  ReqContext : option context.Context;
}.

Definition withQuery (r : Request) (q : gmap string (list string)) : Request :=
  {| Method := Method r; ReqURL := ReqURL r; ReqQuery := q; ReqHeader := ReqHeader r;
     ReqBody := ReqBody r; ReqContext := ReqContext r |}.

Definition withHeader (r : Request) (h : gmap string (list string)) : Request :=
  {| Method := Method r; ReqURL := ReqURL r; ReqQuery := ReqQuery r; ReqHeader := h;
     ReqBody := ReqBody r; ReqContext := ReqContext r |}.

(** [req.WithContext(ctx)] *)
Definition WithContext (r : Request) (ctx : context.Context) : Request :=
  {| Method := Method r; ReqURL := ReqURL r; ReqQuery := ReqQuery r; ReqHeader := ReqHeader r;
     ReqBody := ReqBody r; ReqContext := Some ctx |}.

(** [http.RoundTripper]: one exchange, which gives a response or fails. *)
Definition RoundTripper : Type := Request -> error + Response.

(** [http.Client]. [Transport] is the field of that name. What the other
    fields, [CheckRedirect], [Jar] and [Timeout], make of an exchange is
    [exchange]: what [Client.Do] does, as a function of the round tripper
    that the requests are sent through. *)
Record Client := {
  Transport : RoundTripper;
  exchange : RoundTripper -> Request -> error + Response;
}.

(** [client.Transport = rt] *)
Definition withTransport (client : Client) (rt : RoundTripper) : Client :=
  {| Transport := rt; exchange := exchange client |}.

(** [Client.Do] *)
Definition Do (client : Client) (req : Request) : error + Response :=
  exchange client (Transport client) req.

End http.

(** [c.http.Do(req)] is written [Client.http c req]. *)
Coercion http.Do : http.Client >-> Funclass.

(** ** package aktiva *)

Definition libraryVersion : string := "0.0.1".
Definition userAgent : string := "go-merit-aktiva/" +:+ libraryVersion.
Definition mediaType : string := "application/json".
Definition charset : string := "utf-8".

Definition BaseURL : url.URL :=
  {| url.Scheme := "https"; url.Host := "aktiva.merit.ee"; url.Path := "/api/v1/" |}.

(** [RequestCompletionCallback]: the callback is handed the request and
    the response by pointer; the function gives the response as the
    callback leaves it. *)
Definition RequestCompletionCallback : Type := http.Request -> http.Response -> http.Response.

(** The [Client] struct. Its fields keep their Go names inside the module,
    where [Client.mediaType c] is the field and [mediaType] outside is the
    constant of the package. *)
Module Client.
Record t := mk {
  http : http.Client;
  debug : bool;
  baseURL : url.URL;
  apiID : string;
  apiKey : string;
  userAgent : string;
  mediaType : string;
  charset : string;
  disallowUnknownFields : bool;
  onRequestCompleted : option RequestCompletionCallback;
}.
End Client.

(** [SetHTTPClient] uses two things of other packages, taken as
    parameters: [http.DefaultTransport] and [ntlmssp.Negotiator], which
    makes a round tripper of the one it is given. [NewClient] uses
    [http.DefaultClient] as well. *)
Section SetHTTPClient.

Variable http_DefaultTransport : http.RoundTripper.
Variable ntlmssp_Negotiator : http.RoundTripper -> http.RoundTripper.

(** [SetHTTPClient] overwrites the transport of the [http.Client] it is
    handed, whatever it was, and keeps the client. The client is handed
    over by pointer: the field holds the caller's client as the
    assignment leaves it. *)
Definition SetHTTPClient (c : Client.t) (client : http.Client) : Client.t :=
  (* set NTLM authentication *)
  let client := http.withTransport client (ntlmssp_Negotiator http_DefaultTransport) in
  Client.mk client (Client.debug c) (Client.baseURL c) (Client.apiID c) (Client.apiKey c)
    (Client.userAgent c) (Client.mediaType c) (Client.charset c)
    (Client.disallowUnknownFields c) (Client.onRequestCompleted c).

End SetHTTPClient.

Definition Debug (c : Client.t) : bool := Client.debug c.

Definition SetDebug (c : Client.t) (debug : bool) : Client.t :=
  Client.mk (Client.http c) debug (Client.baseURL c) (Client.apiID c) (Client.apiKey c)
    (Client.userAgent c) (Client.mediaType c) (Client.charset c)
    (Client.disallowUnknownFields c) (Client.onRequestCompleted c).

Definition APIID (c : Client.t) : string := Client.apiID c.

Definition SetAPIID (c : Client.t) (apiID : string) : Client.t :=
  Client.mk (Client.http c) (Client.debug c) (Client.baseURL c) apiID (Client.apiKey c)
    (Client.userAgent c) (Client.mediaType c) (Client.charset c)
    (Client.disallowUnknownFields c) (Client.onRequestCompleted c).

Definition APIKey (c : Client.t) : string := Client.apiKey c.

Definition SetAPIKey (c : Client.t) (apiKey : string) : Client.t :=
  Client.mk (Client.http c) (Client.debug c) (Client.baseURL c) (Client.apiID c) apiKey
    (Client.userAgent c) (Client.mediaType c) (Client.charset c)
    (Client.disallowUnknownFields c) (Client.onRequestCompleted c).

(** [func (c Client) BaseURL() url.URL]; the name [BaseURL] is the
    variable of the package. *)
Definition Client_BaseURL (c : Client.t) : url.URL := Client.baseURL c.

Definition SetBaseURL (c : Client.t) (baseURL : url.URL) : Client.t :=
  Client.mk (Client.http c) (Client.debug c) baseURL (Client.apiID c) (Client.apiKey c)
    (Client.userAgent c) (Client.mediaType c) (Client.charset c)
    (Client.disallowUnknownFields c) (Client.onRequestCompleted c).

Definition SetMediaType (c : Client.t) (mediaType : string) : Client.t :=
  Client.mk (Client.http c) (Client.debug c) (Client.baseURL c) (Client.apiID c) (Client.apiKey c)
    (Client.userAgent c) mediaType (Client.charset c)
    (Client.disallowUnknownFields c) (Client.onRequestCompleted c).

(** [return mediaType]: the constant, not the field [c.mediaType] *)
Definition MediaType (c : Client.t) : string := mediaType.

Definition SetCharset (c : Client.t) (charset : string) : Client.t :=
  Client.mk (Client.http c) (Client.debug c) (Client.baseURL c) (Client.apiID c) (Client.apiKey c)
    (Client.userAgent c) (Client.mediaType c) charset
    (Client.disallowUnknownFields c) (Client.onRequestCompleted c).

(** [return charset]: the constant *)
Definition Charset (c : Client.t) : string := charset.

Definition SetUserAgent (c : Client.t) (userAgent : string) : Client.t :=
  Client.mk (Client.http c) (Client.debug c) (Client.baseURL c) (Client.apiID c) (Client.apiKey c)
    userAgent (Client.mediaType c) (Client.charset c)
    (Client.disallowUnknownFields c) (Client.onRequestCompleted c).

(** [return userAgent]: the constant *)
Definition UserAgent (c : Client.t) : string := userAgent.

Definition SetDisallowUnknownFields (c : Client.t) (disallowUnknownFields : bool) : Client.t :=
  Client.mk (Client.http c) (Client.debug c) (Client.baseURL c) (Client.apiID c) (Client.apiKey c)
    (Client.userAgent c) (Client.mediaType c) (Client.charset c)
    disallowUnknownFields (Client.onRequestCompleted c).

(** [client := &Client{}]. The field [http] is nil until
    [SetHTTPClient] is called, which [NewClient] does first: the record
    is built with the client that will be set. *)
Definition zeroClient (httpClient : http.Client) : Client.t :=
  Client.mk httpClient false (url.Build_URL EmptyString EmptyString EmptyString)
    EmptyString EmptyString EmptyString EmptyString EmptyString false None.

Section NewClient.

Variable http_DefaultClient : http.Client.
Variable http_DefaultTransport : http.RoundTripper.
Variable ntlmssp_Negotiator : http.RoundTripper -> http.RoundTripper.

(** [NewClient]; [None] is a nil [httpClient]. *)
Definition NewClient (httpClient : option http.Client) (apiID apiKey : string) : Client.t :=
  let httpClient := match httpClient with
                    | None => http_DefaultClient
                    | Some httpClient => httpClient
                    end in
  let client := zeroClient httpClient in
  let client := SetHTTPClient http_DefaultTransport ntlmssp_Negotiator client httpClient in
  let client := SetAPIID client apiID in
  let client := SetAPIKey client apiKey in
  let client := SetBaseURL client BaseURL in
  let client := SetDebug client false in
  let client := SetUserAgent client userAgent in
  let client := SetMediaType client mediaType in
  let client := SetCharset client charset in
  client.

End NewClient.

(** *** GetEndpointURL *)

(** The [PathParams] interface: [Params() map[string]string] *)
Record PathParams := { Params : gmap string string }.

(** How a function with [log.Fatal] in it ends: it returns, or the process
    exits with the error logged. [Unmodelled] is for a template outside
    the fragment of [template.Parse]. *)
Inductive exit (A : Type) :=
| Returned (a : A)
| LogFatal (err : error)
| Unmodelled.
Arguments Returned {A} a.
Arguments LogFatal {A} err.
Arguments Unmodelled {A}.

Definition GetEndpointURL (c : Client.t) (path : string) (pathParams : PathParams)
  : exit url.URL :=
  let clientURL := Client_BaseURL c in
  let clientURL := url.withPath clientURL (url.Path clientURL +:+ path) in
  match template.Parse (url.Path clientURL) with
  | template.ParseError msg => LogFatal (errorString msg)   (* of the error, the lexer's words *)
  | template.OutsideFragment => Unmodelled
  | template.Tree tmpl =>
      let params := Params pathParams in
      (* Execute returns no error on the nodes of the fragment *)
      let buf := template.Execute tmpl params in
      Returned (url.withPath clientURL buf)
  end.

(** *** ErrorResponse *)

(** [Response] is a pointer in Go. The record keeps what it points to, as
    it is when the function that built the value returns. *)
Record ErrorResponse := { Response : http.Response; Errors : list error }.

(** [json.Unmarshal(data, &e)] for an [Error]: the struct as the decoder
    sees it, with its two tagged fields. *)
Definition Error_fields (e : Error) : GoValue :=
  GoStruct "aktiva.Error"
    [("message"%string, GoString (Message e)); ("MessageDetail"%string, GoString (MessageDetail e))].

Definition Error_of_fields (v : GoValue) : Error :=
  match v with
  | GoStruct _ [(_, GoString m); (_, GoString d)] => {| Message := m; MessageDetail := d |}
  | _ => {| Message := EmptyString; MessageDetail := EmptyString |}
  end.

(** [func (r *ErrorResponse) UnmarshalJSON(data []byte) error] *)
Definition UnmarshalJSON (r : ErrorResponse) (data : list byte) : ErrorResponse * option error :=
  let e := {| Message := EmptyString; MessageDetail := EmptyString |} in
  let '(e, err) := json.Unmarshal data (Error_fields e) in
  match err with
  | Some err => (r, Some err)
  | None =>
      ({| Response := Response r; Errors := Errors r ++ [ErrorValue (Error_of_fields e)] |}, None)
  end.

(** The bytes of the one value in valid [data], which is what an
    [Unmarshaler] is handed. *)
Definition value_bytes (data : list byte) : list byte :=
  let s := json.skip_space data in
  match json.scan data with
  | json.Scanned _ rest => firstn (length s - length rest) s
  | _ => s
  end.

(** [json.Unmarshal(data, errorResponse)]: the data is checked, then
    [*ErrorResponse], an [Unmarshaler], decodes the value itself. *)
Definition json_Unmarshal_ErrorResponse (data : list byte) (r : ErrorResponse)
  : ErrorResponse * option error :=
  match json.checkValid data with
  | Some err => (r, Some err)
  | None => UnmarshalJSON r (value_bytes data)
  end.

(** [func (r ErrorResponse) Error() string] *)
Definition ErrorResponse_Error (r : ErrorResponse) : outcome string :=
  if (0 <? length (Errors r))%nat then
    let str := fold_left (fun str err => str ++ [error_Error err]) (Errors r) [] in
    Returns (strings.Join str ", ")
  else
    match Errors r !! 0%nat with
    | Some err => Returns (error_Error err)
    | None => Panics "runtime error: index out of range [0] with length 0"
    end.

(** *** CheckResponse *)

(** The field [Body] of the response is assigned to on the way: what it
    holds when it is closed is the body the exchange gave, as the
    callback left it, or what one of two calls has put in its place. *)
Inductive heldBody :=
| FromExchange   (* the body c.http.Do gave, as the callback left it *)
| FromDump       (* what httputil.DumpResponse left in the field *)
| FromCheck.     (* the NopCloser that CheckResponse put in the field *)

(** What a call does to the response body and to the log, in order. *)
Inductive event :=
| ev_Println_Request (req : http.Request)      (* log.Println of DumpRequestOut *)
| ev_DumpResponse                              (* httputil.DumpResponse(httpResp, true) *)
| ev_Println_Response (resp : http.Response)   (* log.Println of the dump *)
| ev_Completed                                 (* c.onRequestCompleted(req, httpResp) *)
| ev_ReadAll                                   (* ioutil.ReadAll(r.Body) *)
| ev_Unmarshal (data : list byte)              (* json.Unmarshal(data, errorResponse) *)
| ev_Decode                                    (* dec.Decode(responseBody) *)
| ev_Close (held : heldBody).                  (* httpResp.Body.Close() *)

Definition checkContentType (response : http.Response) : option error :=
  let header := http.Get (http.Header response) "Content-Type" in
  (* strings.Split never gives an empty slice *)
  let contentType := hd EmptyString (strings.Split header ";") in
  if negb (String.eqb contentType mediaType) then
    Some (errorString ("Expected Content-Type " +:+ dquote +:+ mediaType +:+ dquote
                         +:+ ", got " +:+ dquote +:+ contentType +:+ dquote))
  else None.

(** The error returned ([None] for nil) and what was done on the way. The
    response, changed or not, is the [Response] of the error. *)
Definition CheckResponse (r : http.Response) : option ErrorResponse * list event :=
  let errorResponse := {| Response := r; Errors := [] |} in
  let c := http.StatusCode r in
  if (200 <=? c) && (c <=? 299) then (None, [])
  else
    match checkContentType r with
    | Some _ =>
        (Some {| Response := r; Errors := Errors errorResponse ++ [errorString (http.Status r)] |},
         [])
    | None =>
        (* read data and copy it back *)
        let '(data, err) := ReadAll (http.Body r) in
        let r := http.withBody r (NopCloser data) in
        let errorResponse := {| Response := r; Errors := Errors errorResponse |} in
        match err with
        | Some _ => (Some errorResponse, [ev_ReadAll])
        | None =>
            if (length data =? 0)%nat then (Some errorResponse, [ev_ReadAll])
            else
              (* convert json to struct *)
              let '(errorResponse, err) := json_Unmarshal_ErrorResponse data errorResponse in
              match err with
              | Some err =>
                  (Some {| Response := Response errorResponse;
                           Errors := Errors errorResponse ++ [err] |},
                   [ev_ReadAll; ev_Unmarshal data])
              | None => (Some errorResponse, [ev_ReadAll; ev_Unmarshal data])
              end
        end
    end.

(** [CheckResponse] assigns to [r.Body] right after it has read it, and
    nowhere else. *)
Definition copiedBack (checked : list event) : bool :=
  existsb (fun e => match e with ev_ReadAll => true | _ => false end) checked.

(** *** Do *)

(** The [error] that [Do] returns: the one of the transport, or an
    [*ErrorResponse]. *)
Inductive failure :=
| TransportError (err : error)
| ResponseError (er : ErrorResponse).

Record DoResult := {
  do_response : option http.Response;   (* nil after a transport error *)
  do_error : option failure;
  do_responseBody : option GoValue;     (* what responseBody points to afterwards *)
  do_events : list event;
}.

(** [httputil.DumpResponse(httpResp, true)], as to the response it
    leaves: it reads the body to its end, closes it and puts a copy in
    the field; when the reading fails the body stays as it is, read. A
    body that is [http.NoBody] is neither read nor closed, and stays. *)
Definition DumpResponse (resp : http.Response) : http.Response :=
  match body_err (http.Body resp) with
  | None => resp
  | Some err => http.withBody resp {| body_data := []; body_err := Some err |}
  end.

Definition Do (c : Client.t) (req : http.Request) (responseBody : option GoValue) : DoResult :=
  let log1 := if Client.debug c then [ev_Println_Request req] else [] in
  match Client.http c req with
  | inl err =>
      {| do_response := None; do_error := Some (TransportError err);
         do_responseBody := responseBody; do_events := log1 |}
  | inr httpResp =>
      let '(httpResp, called) :=
        match Client.onRequestCompleted c with
        | Some callback => (callback req httpResp, [ev_Completed])
        | None => (httpResp, [])
        end in
      let '(httpResp, log2, held) :=
        if Client.debug c
        then (DumpResponse httpResp, [ev_DumpResponse; ev_Println_Response httpResp], FromDump)
        else (httpResp, [], FromExchange) in
      (* check if the response isn't an error *)
      let '(err, checked) := CheckResponse httpResp in
      (* the deferred call closes what the field holds when Do returns *)
      let held := if copiedBack checked then FromCheck else held in
      let events := log1 ++ called ++ log2 ++ checked in
      match err with
      | Some er =>
          {| do_response := Some (Response er); do_error := Some (ResponseError er);
             do_responseBody := responseBody; do_events := events ++ [ev_Close held] |}
      | None =>
          (* check the provided interface parameter; httpResp is not nil here *)
          match responseBody with
          | None =>
              {| do_response := Some httpResp; do_error := None;
                 do_responseBody := None; do_events := events ++ [ev_Close held] |}
          | Some v =>
              (* try to decode body into interface parameter *)
              let '(v, err) := json.Decode (Client.disallowUnknownFields c) (http.Body httpResp) v in
              match err with
              | None | Some io_EOF =>
                  {| do_response := Some httpResp; do_error := None;
                     do_responseBody := Some v; do_events := events ++ [ev_Decode; ev_Close held] |}
              | Some err =>
                  (* create a simple error response *)
                  let errorResponse := {| Response := httpResp; Errors := [] |} in
                  let errorResponse :=
                    {| Response := httpResp; Errors := Errors errorResponse ++ [err] |} in
                  {| do_response := Some httpResp; do_error := Some (ResponseError errorResponse);
                     do_responseBody := Some v; do_events := events ++ [ev_Decode; ev_Close held] |}
              end
          end
      end
  end.

(** *** Timestamp, signature and NewRequest

    Not among the sources, and taken as parameters: the [DateTime] type
    with its [String] method, the JSON encoding of a request body, and
    [http.NewRequest]. The wall clock is the sequence of the instants
    that the successive calls of [time.Now] return; the state threaded
    through is the number of calls made so far. *)

Section Signing.

Variable time_Time : Type.

(** [DateTime{time.Now()}] wraps a [time.Time]. *)
Record DateTime := { Time : time_Time }.

Variable DateTime_String : DateTime -> string.
Variable wall_clock : nat -> time_Time.

Variable BodyValue : Type.
(** [json.NewEncoder(buf).Encode(body)]: the bytes written to [buf], or the error *)
Variable json_Encode : BodyValue -> error + list byte.
(** [http.NewRequest(method, URL.String(), buf)] *)
Variable http_NewRequest : string -> url.URL -> list byte -> error + http.Request.

Definition time_Now (clock : nat) : time_Time * nat := (wall_clock clock, S clock).

Definition GenerateTimestamp (c : Client.t) (clock : nat) : DateTime * nat :=
  let '(now, clock) := time_Now clock in
  ({| Time := now |}, clock).

Definition GenerateSignature (c : Client.t) (timestamp : DateTime) (body : list byte) : string :=
  let h := hmac.New sha256_New (bytes_of_string (APIKey c)) in
  let data := [] in
  let data := data ++ bytes_of_string (APIID c) in
  let data := data ++ bytes_of_string (DateTime_String timestamp) in
  let data := data ++ body in
  let h := hmac.Write h data in
  base64.EncodeToString (hmac.Sum h []).

(** Modelled from the spec: [utils.AddURLValuesToRequest], of package
    [utils] of this repository, is not among the sources. The spec has
    the three values attached to every request, "appended to any
    existing query parameters on the URL (never replacing them)", and
    names no failure; it gives the flag no meaning. *)
Definition AddURLValuesToRequest (values : gmap string (list string)) (req : http.Request)
    (flag : bool) : http.Request * option error :=
  (http.withQuery req
     (union_with (fun old new => Some (old ++ new)) (http.ReqQuery req) values),
   None).

Definition NewRequest (c : Client.t) (ctx : option context.Context) (method : string)
    (URL : url.URL) (body : option BodyValue) (clock : nat)
  : (error + http.Request) * nat :=
  (* convert body struct to json *)
  let buf : list byte := [] in
  let encoded := match body with
                 | Some body => match json_Encode body with
                                | inl err => inl err
                                | inr written => inr (buf ++ written)
                                end
                 | None => inr buf
                 end in
  match encoded with
  | inl err => (inl err, clock)
  | inr buf =>
      (* create new http request *)
      match http_NewRequest method URL buf with
      | inl err => (inl err, clock)
      | inr req =>
          let values : gmap string (list string) := ∅ in
          let values := url.Add values "ApiId" (APIID c) in
          let '(timestamp, clock) := GenerateTimestamp c clock in
          let values := url.Add values "timestamp" (DateTime_String timestamp) in
          let values := url.Add values "signature" (GenerateSignature c timestamp buf) in
          let '(req, err) := AddURLValuesToRequest values req true in
          match err with
          | Some err => (inl err, clock)
          | None =>
              (* optionally pass along context *)
              let req := match ctx with
                         | Some ctx => http.WithContext req ctx
                         | None => req
                         end in
              (* set other headers *)
              let req := http.withHeader req
                           (http.Add (http.ReqHeader req) "Content-Type"
                              (MediaType c +:+ "; charset=" +:+ Charset c)) in
              let req := http.withHeader req
                           (http.Add (http.ReqHeader req) "Accept" (MediaType c)) in
              let req := http.withHeader req
                           (http.Add (http.ReqHeader req) "User-Agent" (UserAgent c)) in
              (inr req, clock)
          end
      end
  end.

End Signing.

Arguments Time {time_Time} d.
Arguments GenerateSignature {time_Time} DateTime_String c timestamp body : simpl never.
Arguments GenerateTimestamp {time_Time} wall_clock c clock.
Arguments NewRequest {time_Time} DateTime_String wall_clock {BodyValue} json_Encode
  http_NewRequest c ctx method URL body clock.

(** ** The specification's side

    Definitions that follow the words of the specification, for the
    theorems to compare the code with. *)

(** *** The signature: HMAC with SHA-256, in base64

    The keyed hash of RFC 2104 over a hash [H] of block size [B]:
    [H((K0 xor opad) || H((K0 xor ipad) || text))], where [K0] is the key,
    hashed when longer than a block, then zero-padded to a block. *)
Definition HMAC (H : list byte -> list byte) (B : nat) (key text : list byte) : list byte :=
  let K0 := if (B <? length key)%nat then H key else key in
  let K0 := K0 ++ repeat x00 (B - length K0) in
  H (map (hmac.xor_byte 0x5c) K0 ++ H (map (hmac.xor_byte 0x36) K0 ++ text)).

(** [Sign(secret, identifier, timestamp, bodyBytes)] of the specification *)
Definition Sign (secret identifier : list byte) (timestamp : string) (bodyBytes : list byte)
  : string :=
  base64.EncodeToString
    (HMAC sha256.Sum256 64 secret (identifier ++ bytes_of_string timestamp ++ bodyBytes)).

(** A text in the standard alphabet with padding: groups of four
    characters of the alphabet, the last group ending in at most two
    padding characters. *)
Definition inAlphabet (c : ascii) : bool := strings.ContainsByte base64.encodeStd c.

Fixpoint isStdPadded (s : string) : bool :=
  match s with
  | EmptyString => true
  | String a (String b (String c (String d rest))) =>
      inAlphabet a && inAlphabet b &&
      match rest with
      | EmptyString =>
          (inAlphabet c && inAlphabet d)
          || (inAlphabet c && Ascii.eqb d base64.StdPadding)
          || (Ascii.eqb c base64.StdPadding && Ascii.eqb d base64.StdPadding)
      | _ => inAlphabet c && inAlphabet d && isStdPadded rest
      end
  | _ => false
  end.

(** *** Path templates

    A path template as the specification has it: literal text and named
    placeholders [{{.name}}]. *)
Inductive piece :=
| Literal (text : string)
| Placeholder (name : string).

Fixpoint template_text (pieces : list piece) : string :=
  match pieces with
  | [] => EmptyString
  | Literal text :: pieces' => text +:+ template_text pieces'
  | Placeholder name :: pieces' => "{{." +:+ name +:+ "}}" +:+ template_text pieces'
  end.

(** The template with each placeholder replaced by the value of its
    name, and by the text [<no value>] where the mapping has no such
    name. *)
Fixpoint expansion (params : gmap string string) (pieces : list piece) : string :=
  match pieces with
  | [] => EmptyString
  | Literal text :: pieces' => text +:+ expansion params pieces'
  | Placeholder name :: pieces' =>
      default "<no value>"%string (params !! name) +:+ expansion params pieces'
  end.

Fixpoint allAlphaNumeric (s : string) : bool :=
  match s with
  | EmptyString => true
  | String c s' => template.isAlphaNumeric c && allAlphaNumeric s'
  end.

(** A name: a letter or an underscore, then letters, digits, underscores *)
Definition isName (s : string) : bool :=
  match s with
  | EmptyString => false
  | String c s' => template.isLetter c && allAlphaNumeric s'
  end.

(** Literal text is free of braces, so that it cannot be taken for a
    delimiter. *)
Definition braceFree (s : string) : bool := negb (strings.ContainsByte s "{").

Definition wellFormedPiece (p : piece) : bool :=
  match p with
  | Literal text => braceFree text
  | Placeholder name => isName name
  end.


(** *** Responses

    The media type of a [Content-Type] header, its parameters ignored:
    what stands before the first semicolon. *)
Fixpoint withoutParameters (header : string) : string :=
  match header with
  | EmptyString => EmptyString
  | String c rest => if Ascii.eqb c ";" then EmptyString else String c (withoutParameters rest)
  end.

Definition contentTypeOf (r : http.Response) : string :=
  withoutParameters (http.Get (http.Header r) "Content-Type").

(** A status code outside 200-299 *)
Definition isFailure (r : http.Response) : Prop :=
  http.StatusCode r < 200 \/ 299 < http.StatusCode r.

(** *** The scanner's bound *)

(** The result leaves less than [bound] bytes and is not [OutOfFuel]. *)
Definition within {A : Type} (bound : nat) (r : json.scanned A) : Prop :=
  match r with
  | json.Scanned _ rest => (length rest < bound)%nat
  | json.OutOfFuel => False
  | _ => True
  end.

(** The result leaves less than the input and, given [enough], is not
    [OutOfFuel]. *)
Definition bounded {A : Type} (enough : Prop) (s : list byte) (r : json.scanned A) : Prop :=
  match r with
  | json.Scanned _ rest => (length rest < length s)%nat
  | json.OutOfFuel => ~ enough
  | _ => True
  end.

(** *** The bytes of a value

    Predicates for the proof that the scanner's result depends on the
    bytes of the value only. *)

(** A string scanned ends with the closing quote. *)
Definition ends_quote {A} (s : list byte) (r : json.scanned A) : Prop :=
  match r with
  | json.Scanned _ rest => exists t, s = t ++ x22 :: rest
  | _ => True
  end.

(** What [scan_string] goes on with after the escape of the first half of
    a surrogate pair. *)
Definition after_surrogate (rr : Z) (u : list byte) : json.scanned (list byte) :=
  match u with
  | b0 :: b1 :: c1 :: c2 :: c3 :: c4 :: rest3 =>
      match json.surrogate_pair rr b0 b1 c1 c2 c3 c4 with
      | Some dec => json.emit (json.EncodeRune dec) (json.scan_string 0 rest3)
      | None => json.emit json.RuneError (json.scan_string 0 u)
      end
  | _ => json.emit json.RuneError (json.scan_string 0 u)
  end.

(** What may stand in the place of the input left: nothing, or
    something with the same first byte. *)
Definition follows (rest rest' : list byte) : Prop :=
  rest' = [] \/ exists c r r', rest = c :: r /\ rest' = c :: r'.

(** The result of [f] on [s], when it is a value, depends on the bytes
    taken and on the byte after them only. *)
Definition local {A} (f : list byte -> json.scanned A) (s : list byte) : Prop :=
  forall (a : A) (rest : list byte),
    f s = json.Scanned a rest ->
    exists pre, s = pre ++ rest
                /\ forall rest', follows rest rest' -> f (pre ++ rest') = json.Scanned a rest'.

(** More fuel changes no result but [OutOfFuel]. *)
Definition settled {A} (r r' : json.scanned A) : Prop := r <> json.OutOfFuel -> r' = r.

(** The zero value of [Error], its fields as the decoder sees them, and
    the kind of a JSON value that is neither an object nor [null], as an
    [UnmarshalTypeError] names it. *)
Definition noError : Error := {| Message := EmptyString; MessageDetail := EmptyString |}.

Definition errorFields : list (string * GoValue) :=
  [("message"%string, GoString EmptyString); ("MessageDetail"%string, GoString EmptyString)].

Definition kind_of (j : json.value) : option string :=
  match j with
  | json.JBool _ => Some "bool"%string
  | json.JNumber _ => Some "number"%string
  | json.JString _ => Some "string"%string
  | json.JArray _ => Some "array"%string
  | json.JNull | json.JObject _ => None
  end.

(** The entry that decoding the JSON value [j] into an [Error] leaves in
    an [ErrorResponse]: the [Error] decoded, or the error of the
    decoding. *)
Definition entry_of (j : json.value) : error :=
  match json.unmarshal false j (Error_fields noError) with
  | (e, None) => ErrorValue (Error_of_fields e)
  | (_, Some err) => err
  end.

(** *** JSON error bodies *)

(** A string as JSON text: between quotes, with the quote and the
    backslash behind a backslash and a control character as a
    hexadecimal escape. *)
Definition escapeChar (c : ascii) : string :=
  if ord c =? 34 then "\" +:+ dquote
  else if ord c =? 92 then "\\"
  else if ord c <? 0x20 then
    "\u00" +:+ json.hexdigit (ord c / 16) +:+ json.hexdigit (ord c mod 16)
  else String c EmptyString.

Fixpoint escaped (s : string) : string :=
  match s with
  | EmptyString => EmptyString
  | String c s' => escapeChar c +:+ escaped s'
  end.

Definition quoted (s : string) : string := dquote +:+ escaped s +:+ dquote.

(** The JSON object [{"message": m, "MessageDetail": d}] *)
Definition error_body (m d : string) : list byte :=
  bytes_of_string ("{" +:+ quoted "message" +:+ ":" +:+ quoted m +:+ ","
                     +:+ quoted "MessageDetail" +:+ ":" +:+ quoted d +:+ "}").

Fixpoint isASCII (s : string) : bool :=
  match s with
  | EmptyString => true
  | String c s' => (ord c <? 0x80) && isASCII s'
  end.

(** The data is a JSON text, with nothing around it, of an object with
    the members [message] and [MessageDetail], of values [m] and [d]. *)
Definition isErrorObject (data : list byte) (m d : string) : Prop :=
  json.skip_space data = data
  /\ json.scan data
     = json.Scanned (json.JObject [("message"%string, json.JString m);
                                   ("MessageDetail"%string, json.JString d)]) [].

(** *** Requests *)

(** The serialized body: what [Encode] writes for a body, nothing for nil *)
Definition serialized {BodyValue : Type} (json_Encode : BodyValue -> error + list byte)
    (body : option BodyValue) : error + list byte :=
  match body with
  | Some body => json_Encode body
  | None => inr []
  end.

(** The values of a query parameter *)
Definition queryValues (req : http.Request) (key : string) : list string :=
  default [] (http.ReqQuery req !! key).

(** *** Do *)

(** The response as the completion callback leaves it *)
Definition completed (c : Client.t) (req : http.Request) (resp : http.Response)
  : http.Response :=
  match Client.onRequestCompleted c with
  | Some callback => callback req resp
  | None => resp
  end.

(** The key selects no field of the struct. *)
Definition unknownTo (fields : list (string * GoValue)) (key : string) : bool :=
  match json.find_field key fields with
  | Some _ => false
  | None => true
  end.

(** The members whose keys the struct knows *)
Definition knownMembers (fields : list (string * GoValue))
    (members : list (string * json.value)) : list (string * json.value) :=
  List.filter (fun kv => negb (unknownTo fields (fst kv))) members.

(** The names under which the fields of a destination are listed, those
    of the structs inside it too, are in ASCII. *)
Fixpoint asciiNames (v : GoValue) : bool :=
  match v with
  | GoStruct _ fields => forallb (fun f => isASCII (fst f) && asciiNames (snd f)) fields
  | _ => true
  end.

(** The bytes of the two keys *)
Definition message_key : list byte := Eval vm_compute in bytes_of_string "message".
Definition detail_key : list byte := Eval vm_compute in bytes_of_string "MessageDetail".

(** *** Strict and lenient decoding *)

(** What [Do] takes for a success of [Decode]: no error, or [io.EOF] *)
Definition accepted (err : option error) : Prop :=
  match err with
  | None | Some io_EOF => True
  | Some _ => False
  end.

(** What is stored is the same in both modes, and an error of the
    lenient mode is an error of the strict mode. *)
Definition stricter {A E : Type} (strict lenient : A * option E) : Prop :=
  fst strict = fst lenient /\ (snd lenient <> None -> snd strict <> None).

(** ** Examples *)

(** A default transport that fails, a negotiator that adds nothing to
    the round tripper it is given, and an [http.Client] that sends every
    request once through its transport. *)
Definition noTransport : http.RoundTripper := fun _ => inl (errorString "no transport").

Definition plainNegotiator (rt : http.RoundTripper) : http.RoundTripper := rt.

Definition direct (rt : http.RoundTripper) : http.Client :=
  {| http.Transport := rt; http.exchange := fun rt req => rt req |}.

Definition exampleClient : Client.t :=
  NewClient (direct noTransport) noTransport plainNegotiator None "Jefe-id" "Jefe".

Definition jsonHeader : gmap string (list string) :=
  {[ "Content-Type"%string := ["application/json; charset=utf-8"%string] ]}.

Definition htmlHeader : gmap string (list string) :=
  {[ "Content-Type"%string := ["text/html"%string] ]}.

Definition response (code : Z) (status : string) (header : gmap string (list string))
    (body : list byte) : http.Response :=
  {| http.Status := status; http.StatusCode := code; http.Header := header;
     http.Body := NopCloser body |}.

Definition notFound : http.Response :=
  response 404 "404 Not Found" jsonHeader (error_body "Not found" "no such id").

Definition emptyNotFound : http.Response := response 404 "404 Not Found" jsonHeader [].

Definition serverError : http.Response :=
  response 500 "500 Internal Server Error" htmlHeader (bytes_of_string "<html>oops</html>").

Definition noContent : http.Response := response 204 "204 No Content" jsonHeader [].

(** A client made where the default transport answers every request
    with [resp]. *)
Definition answering (resp : http.Response) : http.RoundTripper := fun _ => inr resp.

Definition clientAnswering (resp : http.Response) (strict : bool) : Client.t :=
  SetDisallowUnknownFields
    (NewClient (direct (answering resp)) (answering resp) plainNegotiator None "id" "key")
    strict.

Definition exampleRequest : http.Request :=
  {| http.Method := "GET"; http.ReqURL := BaseURL; http.ReqQuery := ∅; http.ReqHeader := ∅;
     http.ReqBody := []; http.ReqContext := None |}.

(** A clock that gives another instant at every reading, a [DateTime]
    printed as its number, a body that is its own encoding, and a request
    that comes with a query parameter. *)
Definition tickingClock (n : nat) : nat := (100 + n)%nat.

Definition printInstant (d : DateTime nat) : string :=
  "t+" +:+ String (ascii_of_nat (48 + (Time d - 100))) EmptyString.

Definition encodeText (body : string) : error + list byte := inr (bytes_of_string body).

Definition requestWithPage (method : string) (URL : url.URL) (body : list byte)
  : error + http.Request :=
  inr {| http.Method := method; http.ReqURL := URL;
         http.ReqQuery := {[ "page"%string := ["2"%string] ]};
         http.ReqHeader := ∅; http.ReqBody := body; http.ReqContext := None |}.

Definition pageRequest : http.Request :=
  {| http.Method := "POST"; http.ReqURL := BaseURL;
     http.ReqQuery := {[ "page"%string := ["2"%string] ]};
     http.ReqHeader := ∅; http.ReqBody := bytes_of_string "{}"; http.ReqContext := None |}.

(** The character of code 0 *)
Definition NUL : string := String Ascii.zero EmptyString.

(** The example client with the text of RFC 4231's second test case cut
    into identifier, timestamp and body at other places. *)
Definition recutClient : Client.t := SetAPIID exampleClient "what do ".

(** An encoder that refuses every body, and a constructor of requests
    that refuses every method. *)
Definition refusingEncode (body : string) : error + list byte :=
  inl (errorString "json: unsupported type").

Definition refusingNewRequest (method : string) (URL : url.URL) (body : list byte)
  : error + http.Request :=
  inl (errorString "net/http: invalid method").

(** A client with every setter of a text called, on the example client *)
Definition reconfiguredClient : Client.t :=
  SetDebug
    (SetBaseURL
       (SetUserAgent (SetCharset (SetMediaType exampleClient "text/xml") "latin1") "curl")
       {| url.Scheme := "http"; url.Host := "localhost"; url.Path := "/" |})
    true.


Definition customerParams : PathParams := {| Params := {[ "id"%string := "42"%string ]} |}.

(** A destination struct with one field. *)
Definition customer (name : string) : GoValue :=
  GoStruct "aktiva.Customer" [("Name"%string, GoString name)].

Definition customerBody (extra : bool) : list byte :=
  bytes_of_string ("{" +:+ quoted "Name" +:+ ":" +:+ quoted "Ann"
                     +:+ (if extra then "," +:+ quoted "Age" +:+ ":41" else EmptyString) +:+ "}").

(** A body with a field that [customer] does not have, [Age], and a
    number where the field [Name] is a string. *)
Definition mistypedBody : list byte :=
  bytes_of_string ("{" +:+ quoted "Name" +:+ ":5," +:+ quoted "Age" +:+ ":41}").

Definition ok (body : list byte) : http.Response := response 200 "200 OK" jsonHeader body.

(** A body whose reading breaks off after [data]. *)
Definition interrupted (data : list byte) : ReadCloser :=
  {| body_data := data; body_err := Some io_ErrUnexpectedEOF |}.

(** A 404 of the expected content type whose body breaks off after its
    first byte, and one whose body is a page of HTML. *)
Definition interruptedNotFound : http.Response :=
  http.withBody emptyNotFound (interrupted (bytes_of_string "{")).

Definition htmlNotFound : http.Response :=
  response 404 "404 Not Found" jsonHeader (bytes_of_string "<html>oops</html>").

(** The messages of a list of errors, each followed by the next after a
    comma and a space. *)
Fixpoint messages (first : error) (others : list error) : string :=
  match others with
  | [] => error_Error first
  | next :: others' => error_Error first +:+ ", " +:+ messages next others'
  end.

(** The names a template refers to *)
Fixpoint placeholders (pieces : list piece) : list string :=
  match pieces with
  | [] => []
  | Literal _ :: pieces' => placeholders pieces'
  | Placeholder name :: pieces' => name :: placeholders pieces'
  end.

(** Kinds of events: the closing of the body, the call of the callback,
    and what reads the body. *)
Definition isClose (e : event) : bool :=
  match e with ev_Close _ => true | _ => false end.

Definition isCompleted (e : event) : bool :=
  match e with ev_Completed => true | _ => false end.

Definition readsBody (e : event) : bool :=
  match e with
  | ev_DumpResponse | ev_ReadAll | ev_Unmarshal _ | ev_Decode => true
  | _ => false
  end.

(** What can close the body that the exchange gave: the call of [Do]
    when the field still holds it, and the dump of the response, which
    closes the body it has read. *)
Definition closesExchangeBody (e : event) : bool :=
  match e with ev_Close FromExchange | ev_DumpResponse => true | _ => false end.

(** A client that calls [callback] on completion. *)
Definition withCallback (c : Client.t) (callback : option RequestCompletionCallback) : Client.t :=
  Client.mk (Client.http c) (Client.debug c) (Client.baseURL c) (Client.apiID c)
    (Client.apiKey c) (Client.userAgent c) (Client.mediaType c) (Client.charset c)
    (Client.disallowUnknownFields c) callback.

(** Error bodies: an error object between white space with a member more,
    an object with another member only, and an array. *)
Definition paddedErrorBody : list byte :=
  bytes_of_string (" {" +:+ quoted "code" +:+ ":404," +:+ quoted "message" +:+ ":"
                     +:+ quoted "Not found" +:+ "," +:+ quoted "MessageDetail" +:+ ":"
                     +:+ quoted "no such id" +:+ "} ") ++ [x0a].

Definition otherErrorBody : list byte :=
  bytes_of_string ("{" +:+ quoted "error" +:+ ":" +:+ quoted "invalid token" +:+ "}").

Definition otherCaseErrorBody : list byte :=
  bytes_of_string ("{" +:+ quoted "MESSAGEDETAIL" +:+ ":" +:+ quoted "no such id" +:+ ","
                     +:+ quoted "Message" +:+ ":" +:+ quoted "Not found" +:+ "}").

Definition arrayErrorBody : list byte :=
  bytes_of_string ("[" +:+ quoted "a" +:+ "," +:+ quoted "b" +:+ "]").

(** A callback that overwrites the status of the response it is handed. *)
Definition markOK (req : http.Request) (resp : http.Response) : http.Response :=
  {| http.Status := "200 OK"; http.StatusCode := 200; http.Header := http.Header resp;
     http.Body := http.Body resp |}.

(** The error of the 404 of the example *)
Definition notFoundError : ErrorResponse :=
  {| Response := notFound;
     Errors := [ErrorValue {| Message := "Not found"; MessageDetail := "no such id" |}] |}.

(** A client that is answered a 404 and marks every response as a
    success on completion. *)
Definition markingClient : Client.t :=
  withCallback (clientAnswering notFound false) (Some markOK).

(** The response as [Do] has it when it checks it: after the callback
    and, in debug mode, after the dump. *)
Definition received (c : Client.t) (req : http.Request) (resp : http.Response)
  : http.Response :=
  if Client.debug c then DumpResponse (completed c req resp) else completed c req resp.

(** What [Do] has logged and called by the time it checks the response *)
Definition beforeCheck (c : Client.t) (req : http.Request) (resp : http.Response)
  : list event :=
  (if Client.debug c then [ev_Println_Request req] else [])
  ++ match Client.onRequestCompleted c with
     | Some _ => [ev_Completed]
     | None => []
     end
  ++ (if Client.debug c
      then [ev_DumpResponse; ev_Println_Response (completed c req resp)]
      else []).

(** What the response holds as its body when [Do] returns *)
Definition heldAtReturn (c : Client.t) (req : http.Request) (resp : http.Response)
  : heldBody :=
  if copiedBack (snd (CheckResponse (received c req resp))) then FromCheck
  else if Client.debug c then FromDump else FromExchange.

Definition readsForCheck (e : event) : bool :=
  match e with ev_ReadAll | ev_Unmarshal _ => true | _ => false end.

Definition isDecode (e : event) : bool :=
  match e with ev_Decode => true | _ => false end.

(** Bodies for a response in 200-299: a page of HTML, white space only,
    an object that breaks off, an object followed by something else. *)
Definition htmlBody : list byte := bytes_of_string "<html>oops</html>".

Definition blankBody : list byte := [x20; x0d; x0a].

Definition truncatedBody : list byte := bytes_of_string ("{" +:+ quoted "Name" +:+ ":").

Definition trailedBody : list byte := customerBody false ++ bytes_of_string "</html>".


(** * Theorems *)

(** ** The signature *)

(** The computed constants are those of the standard, and the models
    give the digests of its test vectors: SHA-256 of "abc", and test
    case 2 of RFC 4231 for the keyed hash. *)
Example sha256_constants :
  length sha256._K = 64%nat
  /\ nth 0 sha256._K 0 = 0x428a2f98 /\ nth 63 sha256._K 0 = 0xc67178f2
  /\ sha256.h0 sha256.init = 0x6a09e667 /\ sha256.h7 sha256.init = 0x5be0cd19.
Proof. vm_compute. repeat split; reflexivity. Qed.

Example sha256_abc :
  base64.EncodeToString (sha256.Sum256 (bytes_of_string "abc"))
  = "ungWv48Bz+pBQUDeXa4iI7ADYaOWF3qctBD/YfIAFa0="%string.
Proof. vm_compute. reflexivity. Qed.

Example hmac_rfc4231_case2 :
  base64.EncodeToString
    (hmac.Sum (hmac.Write (hmac.New sha256_New (bytes_of_string "Jefe"))
                 (bytes_of_string "what do ya want for nothing?")) [])
  = "W9zBRr9gdU5qBCQmCJV1x1oAPwidJzmDnexYuWTsOEM="%string.
Proof. vm_compute. reflexivity. Qed.

Lemma Sum256_length (msg : list byte) : length (sha256.Sum256 msg) = 32%nat.
Proof. reflexivity. Qed.

Lemma firstn_padded (B : nat) (key : list byte) :
  (length key <= B)%nat ->
  firstn B (key ++ repeat x00 (B - length key)) = key ++ repeat x00 (B - length key).
Proof.
  intros Hlen. apply firstn_all2.
  rewrite length_app, repeat_length. lia.
Qed.

(** The streaming interface of [crypto/hmac] over SHA-256 computes the
    keyed hash of RFC 2104. *)
Lemma hmac_sha256_HMAC (key msg : list byte) :
  hmac.Sum (hmac.Write (hmac.New sha256_New key) msg) [] =
  HMAC sha256.Sum256 64 key msg.
Proof.
  unfold hmac.Sum, hmac.Write, hmac.New, HMAC, hash_Sum, hash_Write, hash_New; simpl.
  change sha256.BlockSize with 64%nat.
  destruct (64 <? length key)%nat eqn:Hlong.
  - rewrite firstn_padded by (rewrite Sum256_length; lia). reflexivity.
  - apply Nat.ltb_ge in Hlong. rewrite firstn_padded by lia. reflexivity.
Qed.

Lemma enc_inAlphabet (v : Z) : inAlphabet (base64.enc v) = true.
Proof.
  unfold base64.enc.
  assert (Hn : (Z.to_nat (Z.land v 0x3F) < 64)%nat).
  { change 0x3F with (Z.ones 6). rewrite Z.land_ones by lia.
    pose proof (Z.mod_pos_bound v (2 ^ 6) ltac:(lia)). lia. }
  revert Hn. generalize (Z.to_nat (Z.land v 0x3F)). intros n Hn.
  do 64 (destruct n as [|n]; [reflexivity|]). lia.
Qed.

Lemma EncodeToString_isStdPadded_bounded (n : nat) :
  forall src : list byte, (length src <= n)%nat -> isStdPadded (base64.EncodeToString src) = true.
Proof.
  induction n as [|n IH]; intros src Hlen.
  - destruct src; [reflexivity | simpl in Hlen; lia].
  - destruct src as [|b0 [|b1 [|b2 rest]]]; cbn [base64.EncodeToString isStdPadded].
    + reflexivity.
    + rewrite !enc_inAlphabet. reflexivity.
    + rewrite !enc_inAlphabet. reflexivity.
    + rewrite !enc_inAlphabet.
      assert (Hrest : isStdPadded (base64.EncodeToString rest) = true).
      { apply IH. simpl in Hlen. lia. }
      destruct (base64.EncodeToString rest); [reflexivity | exact Hrest].
Qed.

Lemma EncodeToString_isStdPadded (src : list byte) :
  isStdPadded (base64.EncodeToString src) = true.
Proof. apply (EncodeToString_isStdPadded_bounded (length src)). lia. Qed.

Lemma EncodeToString_length_32 (src : list byte) :
  length src = 32%nat -> String.length (base64.EncodeToString src) = 44%nat.
Proof.
  intros Hlen.
  do 32 (destruct src as [|? src]; [discriminate Hlen|]).
  destruct src; [reflexivity | discriminate Hlen].
Qed.

Lemma HMAC_sha256_length (key text : list byte) :
  length (HMAC sha256.Sum256 64 key text) = 32%nat.
Proof. unfold HMAC. apply Sum256_length. Qed.

(** C1. [GenerateSignature] returns the base64 text, in the standard
    alphabet and padded, of the HMAC-SHA256 of identifier, timestamp
    string and body in that order, keyed by the secret: it is [Sign] of the
    specification, 44 characters long. It is a function of these four
    inputs: two calls that agree on them return the same string, whatever
    else differs between the clients. *)
Theorem GenerateSignature_is_Sign :
  forall (time_Time : Type) (DateTime_String : DateTime time_Time -> string)
         (c : Client.t) (timestamp : DateTime time_Time) (body : list byte),
    GenerateSignature DateTime_String c timestamp body
    = Sign (bytes_of_string (APIKey c)) (bytes_of_string (APIID c))
           (DateTime_String timestamp) body
    /\ GenerateSignature DateTime_String c timestamp body
       = base64.EncodeToString
           (HMAC sha256.Sum256 64 (bytes_of_string (APIKey c))
              (bytes_of_string (APIID c) ++ bytes_of_string (DateTime_String timestamp) ++ body))
    /\ String.length (GenerateSignature DateTime_String c timestamp body) = 44%nat
    /\ isStdPadded (GenerateSignature DateTime_String c timestamp body) = true
    /\ (forall (c' : Client.t) (timestamp' : DateTime time_Time) (body' : list byte),
          APIKey c' = APIKey c -> APIID c' = APIID c ->
          DateTime_String timestamp' = DateTime_String timestamp -> body' = body ->
          GenerateSignature DateTime_String c' timestamp' body'
          = GenerateSignature DateTime_String c timestamp body).
Proof.
  intros time_Time DateTime_String c timestamp body.
  assert (Heq : forall c0 t0 b0,
             GenerateSignature DateTime_String c0 t0 b0
             = Sign (bytes_of_string (APIKey c0)) (bytes_of_string (APIID c0))
                    (DateTime_String t0) b0).
  { intros c0 t0 b0. unfold GenerateSignature, Sign.
    rewrite hmac_sha256_HMAC. cbn [app]. rewrite <- app_assoc. reflexivity. }
  split; [|split; [|split; [|split]]].
  - apply Heq.
  - rewrite Heq. reflexivity.
  - rewrite Heq. unfold Sign. apply EncodeToString_length_32, HMAC_sha256_length.
  - rewrite Heq. apply EncodeToString_isStdPadded.
  - intros c' timestamp' body' Hkey Hid Hts Hbody.
    rewrite !Heq, Hkey, Hid, Hts, Hbody. reflexivity.
Qed.

(** The second test case of RFC 4231, as a signature: the key is "Jefe"
    and identifier, timestamp and body make up "what do ya want for
    nothing?". *)
Lemma GenerateSignature_rfc4231 :
  GenerateSignature (fun d : DateTime string => Time d)
    (SetAPIID exampleClient "what do ya ") {| Time := "want for "%string |}
    (bytes_of_string "nothing?")
  = "W9zBRr9gdU5qBCQmCJV1x1oAPwidJzmDnexYuWTsOEM="%string.
Proof.
  destruct (GenerateSignature_is_Sign string (fun d => Time d)
              (SetAPIID exampleClient "what do ya ") {| Time := "want for "%string |}
              (bytes_of_string "nothing?")) as [H _].
  rewrite H. vm_compute. reflexivity.
Defined.

(** ** Configuration getters *)

(** C10. [MediaType], [Charset] and [UserAgent] return the constants of
    the package for every client, also right after the setter of the
    field was given another string: setting then getting does not give
    the string back. *)
Theorem getters_return_package_constants :
  forall (c : Client.t) (s : string),
    MediaType c = "application/json"%string
    /\ Charset c = "utf-8"%string
    /\ UserAgent c = "go-merit-aktiva/0.0.1"%string
    /\ MediaType (SetMediaType c s) = "application/json"%string
    /\ Charset (SetCharset c s) = "utf-8"%string
    /\ UserAgent (SetUserAgent c s) = "go-merit-aktiva/0.0.1"%string
    /\ Client.mediaType (SetMediaType c s) = s
    /\ Client.charset (SetCharset c s) = s
    /\ Client.userAgent (SetUserAgent c s) = s
    /\ MediaType (SetMediaType c "text/xml") <> "text/xml"%string
    /\ Charset (SetCharset c "latin1") <> "latin1"%string
    /\ UserAgent (SetUserAgent c "curl") <> "curl"%string.
Proof.
  intros c s.
  do 9 (split; [reflexivity|]).
  split; [|split]; discriminate.
Qed.

(** ** Errors of a response *)

(** C9. The [Error] method of an [ErrorResponse] without entries panics:
    it skips the loop and indexes element 0 of the empty sequence. This is
    the value [CheckResponse] returns for a response outside 200-299 of
    the expected content type whose body is empty. *)
Theorem ErrorResponse_Error_panics_without_entries :
  (forall resp : http.Response,
      ErrorResponse_Error {| Response := resp; Errors := [] |}
      = Panics "runtime error: index out of range [0] with length 0")
  /\ (forall r : http.Response,
        isFailure r ->
        checkContentType r = None ->
        http.Body r = NopCloser [] ->
        exists er, fst (CheckResponse r) = Some er
                   /\ Errors er = []
                   /\ ErrorResponse_Error er
                      = Panics "runtime error: index out of range [0] with length 0").
Proof.
  split.
  - intros resp. reflexivity.
  - intros r Hcode Hct Hbody.
    unfold CheckResponse. rewrite Hct, Hbody.
    unfold isFailure in Hcode.
    replace ((200 <=? http.StatusCode r) && (http.StatusCode r <=? 299)) with false by lia.
    cbn. eexists. split; [reflexivity|]. split; reflexivity.
Qed.

Lemma ErrorResponse_Error_panics_emptyNotFound :
  exists er, fst (CheckResponse emptyNotFound) = Some er
             /\ Errors er = []
             /\ ErrorResponse_Error er
                = Panics "runtime error: index out of range [0] with length 0".
Proof.
  apply (proj2 ErrorResponse_Error_panics_without_entries emptyNotFound);
    [right; reflexivity | reflexivity | reflexivity].
Defined.

Lemma Split_hd (s : string) :
  hd EmptyString (strings.Split s ";") = withoutParameters s.
Proof.
  induction s as [|c s IH]; [reflexivity|].
  cbn [strings.Split withoutParameters].
  destruct (Ascii.eqb c ";"); [reflexivity|].
  rewrite <- IH. destruct (strings.Split s ";"); reflexivity.
Qed.

Lemma checkContentType_None (r : http.Response) :
  checkContentType r = None <-> contentTypeOf r = mediaType.
Proof.
  unfold checkContentType, contentTypeOf. rewrite Split_hd.
  destruct (String.eqb_spec (withoutParameters (http.Get (http.Header r) "Content-Type"))
              mediaType) as [Heq|Hne]; cbn.
  - split; [intros _; exact Heq | reflexivity].
  - split; [discriminate | intros Heq; contradiction].
Qed.

Lemma isFailure_test (r : http.Response) :
  isFailure r -> (200 <=? http.StatusCode r) && (http.StatusCode r <=? 299) = false.
Proof. unfold isFailure. lia. Qed.

(** An unexpected content type: the status line is the one entry, and
    nothing is read. *)
Lemma CheckResponse_status_line (r : http.Response) :
  isFailure r ->
  contentTypeOf r <> mediaType ->
  CheckResponse r = (Some {| Response := r; Errors := [errorString (http.Status r)] |}, []).
Proof.
  intros Hcode Hct. unfold CheckResponse.
  rewrite (isFailure_test r Hcode).
  destruct (checkContentType r) as [err|] eqn:Hcheck; [reflexivity|].
  apply checkContentType_None in Hcheck. contradiction.
Qed.

(** C4. For a response outside 200-299 whose [Content-Type], parameters
    ignored, is not [application/json], [CheckResponse] returns an
    [ErrorResponse] whose only entry is made of the status line. The body
    is neither read nor decoded: no event is recorded, the response is
    left as it was, and another body in its place changes nothing else. *)
Theorem CheckResponse_unexpected_content_type :
  forall r : http.Response,
    isFailure r ->
    contentTypeOf r <> "application/json"%string ->
    CheckResponse r
    = (Some {| Response := r; Errors := [errorString (http.Status r)] |}, [])
    /\ (forall body : ReadCloser,
          CheckResponse (http.withBody r body)
          = (Some {| Response := http.withBody r body;
                     Errors := [errorString (http.Status r)] |}, [])).
Proof.
  intros r Hcode Hct. split; [apply CheckResponse_status_line; assumption|].
  intros body. apply (CheckResponse_status_line (http.withBody r body)); assumption.
Qed.

Lemma CheckResponse_serverError :
  CheckResponse serverError
  = (Some {| Response := serverError;
             Errors := [errorString "500 Internal Server Error"] |}, []).
Proof.
  apply (CheckResponse_unexpected_content_type serverError).
  - right. reflexivity.
  - vm_compute. discriminate.
Defined.

(** The entries of the error for a response of the expected content
    type, by what reading the body gives. *)
Lemma CheckResponse_expected_content_type (r : http.Response) :
  isFailure r ->
  checkContentType r = None ->
  exists er, fst (CheckResponse r) = Some er
             /\ Response er = http.withBody r (NopCloser (body_data (http.Body r)))
             /\ (body_err (http.Body r) = None -> body_data (http.Body r) <> [] ->
                 length (Errors er) = 1%nat)
             /\ (body_err (http.Body r) = None -> body_data (http.Body r) = [] ->
                 Errors er = []).
Proof.
  intros Hcode Hct. unfold CheckResponse.
  rewrite (isFailure_test r Hcode), Hct. unfold ReadAll.
  destruct (body_err (http.Body r)) as [err|].
  - eexists. split; [reflexivity|]. split; [reflexivity|]. split; discriminate.
  - destruct (body_data (http.Body r)) as [|b data] eqn:Hdata.
    + eexists. split; [reflexivity|]. split; [reflexivity|].
      split; [intros _ Hne; contradiction | reflexivity].
    + cbn [length Nat.eqb].
      unfold json_Unmarshal_ErrorResponse.
      destruct (json.checkValid (b :: data)) as [err|].
      * eexists. split; [reflexivity|]. split; [reflexivity|].
        split; [reflexivity | discriminate].
      * unfold UnmarshalJSON.
        destruct (json.Unmarshal _ _) as [v [err|]];
          (eexists; split; [reflexivity|]; split; [reflexivity|];
           split; [reflexivity | discriminate]).
Qed.

(** C5, amended. For a response outside 200-299 [CheckResponse] returns
    an error, never nil, and the error holds the response. It has exactly
    one entry when the [Content-Type] is not the expected one, and when the
    body is read to its end and is not empty; it has no entry when the
    [Content-Type] is the expected one and the body is empty. *)
Theorem CheckResponse_failure_entries :
  forall r : http.Response,
    isFailure r ->
    exists er,
      fst (CheckResponse r) = Some er
      /\ http.StatusCode (Response er) = http.StatusCode r
      /\ http.Status (Response er) = http.Status r
      /\ http.Header (Response er) = http.Header r
      /\ (contentTypeOf r <> mediaType -> length (Errors er) = 1%nat)
      /\ (body_err (http.Body r) = None -> body_data (http.Body r) <> [] ->
          length (Errors er) = 1%nat)
      /\ (contentTypeOf r = mediaType ->
          body_err (http.Body r) = None -> body_data (http.Body r) = [] ->
          Errors er = []).
Proof.
  intros r Hcode.
  destruct (String.eqb_spec (contentTypeOf r) mediaType) as [Hct|Hct].
  - destruct (CheckResponse_expected_content_type r Hcode) as (er & Her & Hresp & Hone & Hnone).
    { apply checkContentType_None. exact Hct. }
    exists er. rewrite Hresp. repeat (split; [first [exact Her | reflexivity]|]).
    split; [intros Hne; contradiction|].
    split; [exact Hone | intros _; exact Hnone].
  - rewrite (CheckResponse_status_line r Hcode Hct). eexists. split; [reflexivity|].
    do 3 (split; [reflexivity|]).
    split; [reflexivity|]. split; [reflexivity|].
    intros Heq'. contradiction.
Qed.

Lemma CheckResponse_failure_entries_notFound :
  exists er,
    fst (CheckResponse notFound) = Some er
    /\ http.StatusCode (Response er) = 404
    /\ length (Errors er) = 1%nat.
Proof.
  destruct (CheckResponse_failure_entries notFound (or_intror eq_refl))
    as (er & Her & Hcode & _ & _ & _ & Hone & _).
  exists er. split; [exact Her|]. split; [exact Hcode|].
  apply Hone; [reflexivity | discriminate].
Defined.

(** C5 as stated fails: a 404 of the expected content type with an empty
    body gives an error without any entry. *)
Lemma CheckResponse_emptyNotFound_no_entry :
  http.StatusCode emptyNotFound = 404
  /\ CheckResponse emptyNotFound
     = (Some {| Response := emptyNotFound; Errors := [] |}, [ev_ReadAll])
  /\ length (Errors {| Response := emptyNotFound; Errors := [] |}) = 0%nat.
Proof. split; [reflexivity|]. split; [|reflexivity]. vm_compute. reflexivity. Qed.

(** ** The error object of a response *)

Lemma bytes_of_string_app (a b : string) :
  bytes_of_string (a +:+ b) = bytes_of_string a ++ bytes_of_string b.
Proof.
  induction a as [|c a IH]; [reflexivity|].
  unfold bytes_of_string, list_byte_of_string in *. simpl. f_equal. exact IH.
Qed.

(** An escaped ASCII character is read back as the character. *)
Lemma scan_string_escapeChar (c : ascii) (rest : list byte) :
  (ord c <? 0x80) = true ->
  json.scan_string 0 (bytes_of_string (escapeChar c) ++ rest)
  = json.emit [byte_of_ascii c] (json.scan_string 0 rest).
Proof.
  intros Hc.
  destruct c as [[] [] [] [] [] [] [] []];
    try (vm_compute in Hc; discriminate Hc); reflexivity.
Qed.

Lemma scan_string_escaped (s : string) (rest : list byte) :
  isASCII s = true ->
  json.scan_string 0 (bytes_of_string (escaped s) ++ x22 :: rest)
  = json.Scanned (bytes_of_string s) rest.
Proof.
  induction s as [|c s IH]; intros Hs.
  - reflexivity.
  - cbn [isASCII] in Hs. apply andb_prop in Hs as [Hc Hs].
    cbn [escaped]. rewrite bytes_of_string_app, <- app_assoc.
    rewrite scan_string_escapeChar by exact Hc.
    rewrite IH by exact Hs. reflexivity.
Qed.

Lemma scan_value_string (fuel : nat) (depth : Z) (s : list byte) :
  json.scan_value (S fuel) depth (x22 :: s)
  = json.smap (fun b => json.JString (string_of_bytes b)) (json.scan_string 0 s).
Proof. reflexivity. Qed.

Lemma scan_value_object (fuel : nat) (s : list byte) :
  json.scan_value (S fuel) 0 (x7b :: x22 :: s)
  = json.smap json.JObject (json.scan_members fuel 1 (x22 :: s)).
Proof. reflexivity. Qed.

(** A member with a string for value, before a comma and before the
    closing brace. *)
Lemma scan_members_more (fuel : nat) (depth : Z) (s rest1 rest2 key val : list byte) :
  json.scan_string 0 s = json.Scanned key (x3a :: x22 :: rest1) ->
  json.scan_string 0 rest1 = json.Scanned val (x2c :: rest2) ->
  json.scan_members (S (S fuel)) depth (x22 :: s)
  = json.smap (cons (string_of_bytes key, json.JString (string_of_bytes val)))
      (json.scan_members (S fuel) depth rest2).
Proof.
  intros Hkey Hval.
  cbn [json.scan_members json.skip_space].
  change (json.isSpace x22) with false. cbv iota.
  change (json.byte_is x22 x22) with true. cbv iota.
  rewrite Hkey.
  cbn [json.skip_space]. change (json.isSpace x3a) with false. cbv iota.
  change (json.byte_is x3a ":") with true. cbv iota.
  rewrite scan_value_string, Hval.
  cbn [json.smap json.skip_space]. change (json.isSpace x2c) with false. cbv iota.
  change (json.byte_is x2c ",") with true. cbv iota.
  reflexivity.
Qed.

Lemma scan_members_last (fuel : nat) (depth : Z) (s rest1 rest2 key val : list byte) :
  json.scan_string 0 s = json.Scanned key (x3a :: x22 :: rest1) ->
  json.scan_string 0 rest1 = json.Scanned val (x7d :: rest2) ->
  json.scan_members (S (S fuel)) depth (x22 :: s)
  = json.Scanned [(string_of_bytes key, json.JString (string_of_bytes val))] rest2.
Proof.
  intros Hkey Hval.
  cbn [json.scan_members json.skip_space].
  change (json.isSpace x22) with false. cbv iota.
  change (json.byte_is x22 x22) with true. cbv iota.
  rewrite Hkey.
  cbn [json.skip_space]. change (json.isSpace x3a) with false. cbv iota.
  change (json.byte_is x3a ":") with true. cbv iota.
  rewrite scan_value_string, Hval.
  cbn [json.smap json.skip_space]. change (json.isSpace x7d) with false. cbv iota.
  change (json.byte_is x7d ",") with false. change (json.byte_is x7d "}") with true.
  cbv iota. reflexivity.
Qed.

Lemma error_body_bytes (m d : string) :
  error_body m d =
  x7b :: x22 :: message_key ++ x22 :: x3a :: x22 :: bytes_of_string (escaped m) ++
  x22 :: x2c :: x22 :: detail_key ++ x22 :: x3a :: x22 :: bytes_of_string (escaped d) ++
  [x22; x7d].
Proof.
  unfold error_body, quoted. rewrite !bytes_of_string_app.
  change (bytes_of_string dquote) with [x22].
  change (bytes_of_string "{") with [x7b]. change (bytes_of_string ":") with [x3a].
  change (bytes_of_string ",") with [x2c]. change (bytes_of_string "}") with [x7d].
  change (bytes_of_string (escaped "message")) with message_key.
  change (bytes_of_string (escaped "MessageDetail")) with detail_key.
  rewrite <- !app_assoc. reflexivity.
Qed.

Lemma scan_members_error_body (fuel : nat) (m d : string) :
  isASCII m = true -> isASCII d = true ->
  json.scan_members (S (S (S fuel))) 1
    (x22 :: message_key ++ x22 :: x3a :: x22 :: bytes_of_string (escaped m) ++
     x22 :: x2c :: x22 :: detail_key ++ x22 :: x3a :: x22 :: bytes_of_string (escaped d) ++
     [x22; x7d])
  = json.Scanned [("message"%string, json.JString m);
                  ("MessageDetail"%string, json.JString d)] [].
Proof.
  intros Hm Hd.
  rewrite (scan_members_more (S fuel) 1 _ _ _ message_key (bytes_of_string m)
             (scan_string_escaped "message" _ eq_refl) (scan_string_escaped m _ Hm)).
  rewrite (scan_members_last fuel 1 _ _ _ detail_key (bytes_of_string d)
             (scan_string_escaped "MessageDetail" _ eq_refl) (scan_string_escaped d _ Hd)).
  unfold string_of_bytes, bytes_of_string. rewrite !string_of_list_byte_of_string.
  reflexivity.
Qed.

(** The object written out, with its strings escaped, is read as the
    object. *)
Lemma error_body_isErrorObject (m d : string) :
  isASCII m = true -> isASCII d = true -> isErrorObject (error_body m d) m d.
Proof.
  intros Hm Hd. split.
  - rewrite error_body_bytes. reflexivity.
  - unfold json.scan. rewrite error_body_bytes.
    match goal with
    | |- json.scan_value (S (2 * length (_ :: _ :: ?l))) _ _ = _ =>
        replace (2 * length (x7b :: x22 :: l))%nat with (S (S (S (S (2 * length l)))))
          by (cbn [length]; lia)
    end.
    rewrite scan_value_object, scan_members_error_body by assumption.
    reflexivity.
Qed.

Lemma Unmarshal_error_object (data : list byte) (m d : string) :
  isErrorObject data m d ->
  json.checkValid data = None
  /\ value_bytes data = data
  /\ json.Unmarshal data (Error_fields {| Message := EmptyString; MessageDetail := EmptyString |})
     = (Error_fields {| Message := m; MessageDetail := d |}, None).
Proof.
  intros [Hspace Hscan].
  assert (Hvalid : json.checkValid data = None).
  { unfold json.checkValid. rewrite Hscan. reflexivity. }
  split; [exact Hvalid|]. split.
  - unfold value_bytes. rewrite Hscan, Hspace. cbn [length].
    rewrite Nat.sub_0_r. apply firstn_all.
  - unfold json.Unmarshal. rewrite Hvalid, Hscan. reflexivity.
Qed.

(** C6. For a response outside 200-299 of the expected content type
    whose body is the JSON object with the members [message], of value
    [m], and [MessageDetail], of value [d], [CheckResponse] returns an
    [ErrorResponse] with exactly one entry, the [Error] of these two
    strings, whose [Error] method gives [m], a colon and a space, and
    [d]; so does the [Error] method of the [ErrorResponse]. The object
    written with its two strings between quotes and escaped is such a
    body, for all ASCII strings. *)
Theorem CheckResponse_error_object :
  (forall (r : http.Response) (m d : string),
      isFailure r ->
      contentTypeOf r = "application/json"%string ->
      body_err (http.Body r) = None ->
      isErrorObject (body_data (http.Body r)) m d ->
      exists er,
        fst (CheckResponse r) = Some er
        /\ Errors er = [ErrorValue {| Message := m; MessageDetail := d |}]
        /\ map error_Error (Errors er) = [m +:+ ": " +:+ d]
        /\ ErrorResponse_Error er = Returns (m +:+ ": " +:+ d))
  /\ (forall m d : string,
        isASCII m = true -> isASCII d = true -> isErrorObject (error_body m d) m d).
Proof.
  split; [|exact error_body_isErrorObject].
  intros r m d Hcode Hct Herr Hobj.
  destruct (Unmarshal_error_object _ m d Hobj) as (Hvalid & Hbytes & Hdecode).
  assert (Hdata : body_data (http.Body r) <> []).
  { destruct Hobj as [_ Hscan]. intros Hnil. rewrite Hnil in Hscan. discriminate Hscan. }
  unfold CheckResponse. rewrite (isFailure_test r Hcode).
  rewrite (proj2 (checkContentType_None r) Hct).
  unfold ReadAll. rewrite Herr.
  destruct (body_data (http.Body r)) as [|b data] eqn:Hbody; [contradiction|].
  cbn [length Nat.eqb].
  unfold json_Unmarshal_ErrorResponse, UnmarshalJSON.
  rewrite Hvalid, Hbytes, Hdecode.
  eexists. split; [reflexivity|]. cbn. split; [reflexivity|]. split; reflexivity.
Qed.

Lemma CheckResponse_notFound :
  exists er,
    fst (CheckResponse notFound) = Some er
    /\ Errors er = [ErrorValue {| Message := "Not found"; MessageDetail := "no such id" |}]
    /\ map error_Error (Errors er) = ["Not found: no such id"%string]
    /\ ErrorResponse_Error er = Returns "Not found: no such id"%string.
Proof.
  apply (proj1 CheckResponse_error_object notFound "Not found" "no such id").
  - right. reflexivity.
  - reflexivity.
  - reflexivity.
  - apply (proj2 CheckResponse_error_object); reflexivity.
Defined.

(** ** Decoding the body of a success *)

Lemma CheckResponse_success (r : http.Response) :
  200 <= http.StatusCode r <= 299 -> CheckResponse r = (None, []).
Proof.
  intros Hcode. unfold CheckResponse.
  replace ((200 <=? http.StatusCode r) && (http.StatusCode r <=? 299)) with true by lia.
  reflexivity.
Qed.

Lemma DumpResponse_read (r : http.Response) :
  body_err (http.Body r) = None -> DumpResponse r = r.
Proof. intros Herr. unfold DumpResponse. rewrite Herr. reflexivity. Qed.

(** What [Do] returns for a response in 200-299 whose body is read
    without error, by what decoding gives. *)
Lemma Do_success (c : Client.t) (req : http.Request) (r0 : http.Response) (v : GoValue) :
  Client.http c req = inr r0 ->
  200 <= http.StatusCode (completed c req r0) <= 299 ->
  body_err (http.Body (completed c req r0)) = None ->
  let r := completed c req r0 in
  let decoded := json.Decode (Client.disallowUnknownFields c) (http.Body r) v in
  do_response (Do c req (Some v)) = Some r
  /\ do_responseBody (Do c req (Some v)) = Some (fst decoded)
  /\ do_error (Do c req (Some v))
     = match snd decoded with
       | None | Some io_EOF => None
       | Some err => Some (ResponseError {| Response := r; Errors := [err] |})
       end.
Proof.
  intros Hhttp Hcode Herr r decoded. subst r decoded.
  unfold Do. rewrite Hhttp. unfold completed in *.
  destruct (Client.onRequestCompleted c) as [callback|];
    destruct (Client.debug c);
    rewrite ?DumpResponse_read by exact Herr;
    rewrite (CheckResponse_success _ Hcode);
    destruct (json.Decode _ _ v) as [v' [[]|]]; cbn; auto.
Qed.

(** C7. For a response in 200-299 with an empty body and a destination
    that is not nil, [Do] returns the response and no error, and the
    destination is as it was: the end of the input met by the decoder is
    no error. *)
Theorem Do_empty_body :
  forall (c : Client.t) (req : http.Request) (r0 : http.Response) (v : GoValue),
    Client.http c req = inr r0 ->
    200 <= http.StatusCode (completed c req r0) <= 299 ->
    http.Body (completed c req r0) = NopCloser [] ->
    do_error (Do c req (Some v)) = None
    /\ do_responseBody (Do c req (Some v)) = Some v
    /\ do_response (Do c req (Some v)) = Some (completed c req r0).
Proof.
  intros c req r0 v Hhttp Hcode Hbody.
  assert (Herr : body_err (http.Body (completed c req r0)) = None)
    by (rewrite Hbody; reflexivity).
  destruct (Do_success c req r0 v Hhttp Hcode Herr) as (Hresp & Hdest & Herror).
  rewrite Hbody in Hdest, Herror.
  split; [exact Herror|]. split; [exact Hdest | exact Hresp].
Qed.

Lemma Do_noContent :
  do_error (Do (clientAnswering noContent true) exampleRequest (Some (customer "before"))) = None
  /\ do_responseBody (Do (clientAnswering noContent true) exampleRequest
                        (Some (customer "before")))
     = Some (customer "before")
  /\ do_response (Do (clientAnswering noContent true) exampleRequest (Some (customer "before")))
     = Some (completed (clientAnswering noContent true) exampleRequest noContent).
Proof.
  apply (Do_empty_body (clientAnswering noContent true) exampleRequest noContent).
  - reflexivity.
  - vm_compute. split; discriminate.
  - reflexivity.
Defined.

(** The field a key selects depends on the names of the fields only, and
    storing into a field keeps the names. *)
Lemma index_where_names (p : string -> bool) (fields fields' : list (string * GoValue)) :
  map fst fields = map fst fields' ->
  json.index_where (fun f => p (fst f)) fields = json.index_where (fun f => p (fst f)) fields'.
Proof.
  revert fields'. induction fields as [|f fields IH]; intros [|f' fields'] Hnames;
    try discriminate Hnames; [reflexivity|].
  cbn in Hnames. injection Hnames as Hf Hrest.
  cbn [json.index_where]. rewrite Hf, (IH fields' Hrest). reflexivity.
Qed.

Lemma find_field_names (key : string) (fields fields' : list (string * GoValue)) :
  map fst fields = map fst fields' -> json.find_field key fields = json.find_field key fields'.
Proof.
  intros Hnames. unfold json.find_field.
  rewrite (index_where_names (fun name => String.eqb name key) fields fields' Hnames).
  rewrite (index_where_names (fun name => String.eqb (json.foldName name) (json.foldName key))
             fields fields' Hnames).
  reflexivity.
Qed.

Lemma insert_field_names (fields : list (string * GoValue)) (i : nat) (name : string)
    (fv fv' : GoValue) :
  fields !! i = Some (name, fv) -> map fst (<[i := (name, fv')]> fields) = map fst fields.
Proof.
  revert i. induction fields as [|f fields IH]; intros [|i] Hi; try discriminate Hi.
  - simpl in Hi. injection Hi as ->. reflexivity.
  - simpl. f_equal. apply IH. exact Hi.
Qed.

(** An error once saved stays. *)
Lemma object_saved dec strict t ctx members fields e :
  snd (json.object dec strict t ctx members fields (Some e)) = Some e.
Proof.
  revert fields. induction members as [|[key jv] members IH]; intros fields; [reflexivity|].
  cbn [json.object].
  destruct (json.find_field key fields) as [i|].
  - destruct (fields !! i) as [[name fv]|]; [|apply IH].
    destruct (dec _ jv fv) as [fv' err]. apply IH.
  - destruct strict; apply IH.
Qed.

(** Under [DisallowUnknownFields], members with a key that selects no
    field leave an error. *)
Lemma object_strict_unknown dec t ctx members fields0 fields saved key :
  map fst fields = map fst fields0 ->
  In key (map fst members) ->
  unknownTo fields0 key = true ->
  snd (json.object dec true t ctx members fields saved) <> None.
Proof.
  intros Hnames Hin Hunknown. revert fields saved Hnames.
  induction members as [|[k jv] members IH]; intros fields saved Hnames; [destruct Hin|].
  cbn [json.object]. destruct Hin as [Hk|Hin].
  - cbn in Hk. subst k. unfold unknownTo in Hunknown.
    rewrite (find_field_names key fields fields0 Hnames).
    destruct (json.find_field key fields0); [discriminate Hunknown|].
    destruct saved as [e|]; cbn [json.saveError]; rewrite object_saved; discriminate.
  - destruct (json.find_field k fields) as [i|]; [|apply IH; [exact Hin | exact Hnames]].
    destruct (fields !! i) as [[name fv]|] eqn:Hi; [|apply IH; [exact Hin | exact Hnames]].
    destruct (dec _ jv fv) as [fv' err]. apply IH; [exact Hin|].
    rewrite (insert_field_names fields i name fv fv' Hi). exact Hnames.
Qed.

(** Without [DisallowUnknownFields], members with a key that selects no
    field are as good as absent. *)
Lemma object_lenient_known dec t ctx members fields0 fields saved :
  map fst fields = map fst fields0 ->
  json.object dec false t ctx members fields saved
  = json.object dec false t ctx (knownMembers fields0 members) fields saved.
Proof.
  intros Hnames. revert fields saved Hnames.
  induction members as [|[k jv] members IH]; intros fields saved Hnames; [reflexivity|].
  cbn [json.object knownMembers List.filter fst]. unfold unknownTo.
  rewrite <- (find_field_names k fields fields0 Hnames).
  destruct (json.find_field k fields) as [i|] eqn:Hfind; cbn [negb].
  - cbn [json.object]. rewrite Hfind.
    destruct (fields !! i) as [[name fv]|] eqn:Hi; [|apply IH; exact Hnames].
    destruct (dec _ jv fv) as [fv' err]. apply IH.
    rewrite (insert_field_names fields i name fv fv' Hi). exact Hnames.
  - apply IH. exact Hnames.
Qed.

Lemma error_of_not_EOF (e : json.decodeError) : json.error_of e <> io_EOF.
Proof. destruct e; discriminate. Qed.

(** C8, amended. For a response in 200-299 whose body is a JSON object
    with a key that selects no field of the destination, a struct whose
    fields are listed under names in ASCII: under
    [DisallowUnknownFields], [Do] returns an [ErrorResponse] that holds
    the response and has one entry, the error of the decoder; without it,
    [Do] leaves in the destination what the object without such members
    gives, and returns no error when these members are stored without
    error. *)
Theorem Do_unknown_field :
  forall (c : Client.t) (req : http.Request) (r0 : http.Response) (t : string)
         (fields : list (string * GoValue)) (members : list (string * json.value))
         (rest : list byte) (key : string),
    Client.http c req = inr r0 ->
    200 <= http.StatusCode (completed c req r0) <= 299 ->
    body_err (http.Body (completed c req r0)) = None ->
    json.scan (body_data (http.Body (completed c req r0)))
    = json.Scanned (json.JObject members) rest ->
    asciiNames (GoStruct t fields) = true ->
    In key (map fst members) ->
    unknownTo fields key = true ->
    (Client.disallowUnknownFields c = true ->
     exists err,
       do_error (Do c req (Some (GoStruct t fields)))
       = Some (ResponseError {| Response := completed c req r0; Errors := [err] |}))
    /\ (Client.disallowUnknownFields c = false ->
        do_responseBody (Do c req (Some (GoStruct t fields)))
        = Some (fst (json.unmarshal false (json.JObject (knownMembers fields members))
                       (GoStruct t fields)))
        /\ (snd (json.unmarshal false (json.JObject (knownMembers fields members))
                   (GoStruct t fields)) = None ->
            do_error (Do c req (Some (GoStruct t fields))) = None)).
Proof.
  intros c req r0 t fields members rest key Hhttp Hcode Herr Hscan _ Hin Hunknown.
  destruct (Do_success c req r0 (GoStruct t fields) Hhttp Hcode Herr)
    as (_ & Hdest & Herror).
  unfold json.Decode in Hdest, Herror. rewrite Hscan in Hdest, Herror.
  cbn iota in Hdest, Herror. unfold json.unmarshal in *.
  cbn [json.decode] in *.
  split.
  - intros Hstrict. rewrite Hstrict in Herror.
    pose proof (object_strict_unknown (json.decode true) t json.noContext members fields
                  fields None key eq_refl Hin Hunknown) as Hsaved.
    destruct (json.object (json.decode true) true t json.noContext members fields None)
      as [fields' [e|]]; [|contradiction].
    cbn in Herror. exists (json.error_of e). rewrite Herror.
    pose proof (error_of_not_EOF e). destruct (json.error_of e); try reflexivity.
    contradiction.
  - intros Hlenient. rewrite Hlenient in Hdest, Herror.
    rewrite (object_lenient_known (json.decode false) t json.noContext members fields fields
               None eq_refl) in Hdest, Herror.
    destruct (json.object (json.decode false) false t json.noContext
                (knownMembers fields members) fields None) as [fields' saved].
    split; [exact Hdest|].
    cbn. intros Hsaved. destruct saved; [discriminate Hsaved|]. exact Herror.
Qed.

Lemma Do_unknown_field_customer :
  (exists err,
      do_error (Do (clientAnswering (ok (customerBody true)) true) exampleRequest
                  (Some (customer "before")))
      = Some (ResponseError {| Response := ok (customerBody true); Errors := [err] |}))
  /\ do_responseBody (Do (clientAnswering (ok (customerBody true)) false) exampleRequest
                        (Some (customer "before")))
     = Some (customer "Ann")
  /\ do_error (Do (clientAnswering (ok (customerBody true)) false) exampleRequest
                 (Some (customer "before")))
     = None.
Proof.
  assert (Hscan : json.scan (customerBody true)
                  = json.Scanned (json.JObject [("Name"%string, json.JString "Ann");
                                                ("Age"%string, json.JNumber "41")]) [])
    by (vm_compute; reflexivity).
  assert (Hcode : 200 <= 200 <= 299) by lia.
  assert (Hin : In "Age"%string (map fst [("Name"%string, json.JString "Ann");
                                          ("Age"%string, json.JNumber "41")]))
    by (right; left; reflexivity).
  destruct (Do_unknown_field (clientAnswering (ok (customerBody true)) true) exampleRequest
              (ok (customerBody true)) "aktiva.Customer" [("Name"%string, GoString "before")]
              _ [] "Age" eq_refl Hcode eq_refl Hscan eq_refl Hin eq_refl) as [Hstrict _].
  destruct (Do_unknown_field (clientAnswering (ok (customerBody true)) false) exampleRequest
              (ok (customerBody true)) "aktiva.Customer" [("Name"%string, GoString "before")]
              _ [] "Age" eq_refl Hcode eq_refl Hscan eq_refl Hin eq_refl) as [_ Hlenient].
  split; [exact (Hstrict eq_refl)|].
  destruct (Hlenient eq_refl) as [Hdest Herr].
  split; [exact Hdest | exact (Herr eq_refl)].
Defined.

(** C8 as stated fails: a body with an unknown field and a number where
    a string is expected is an error without [DisallowUnknownFields]
    too. *)
Lemma Do_unknown_field_mistyped :
  json.scan mistypedBody
  = json.Scanned (json.JObject [("Name"%string, json.JNumber "5");
                                ("Age"%string, json.JNumber "41")]) []
  /\ unknownTo [("Name"%string, GoString "before")] "Age" = true
  /\ Client.disallowUnknownFields (clientAnswering (ok mistypedBody) false) = false
  /\ do_error (Do (clientAnswering (ok mistypedBody) false) exampleRequest
                 (Some (customer "before")))
     = Some (ResponseError
               {| Response := ok mistypedBody;
                  Errors := [json_UnmarshalTypeError "number" "string" "Customer" "Name"] |}).
Proof. vm_compute. repeat split; reflexivity. Qed.

(** A key written with the long s or with the Kelvin sign selects the
    field that its folding names, as a key in another case does; the
    error for a key without a field quotes the key. *)
Example find_field_folded :
  json.find_field (String "197" (String "191" "tatus")) [("Status"%string, GoString "up")]
  = Some 0%nat
  /\ json.find_field (String "226" (String "132" (String "170" "ind")))
       [("Status"%string, GoString "up"); ("kind"%string, GoString "x")]
     = Some 1%nat
  /\ json.find_field "STATUS" [("Status"%string, GoString "up")] = Some 0%nat
  /\ unknownTo [("Status"%string, GoString "up")] "Statuz" = true
  /\ json.error_of (json.UnknownField "Age")
     = errorString ("json: unknown field " +:+ dquote +:+ "Age" +:+ dquote).
Proof. vm_compute. repeat split; reflexivity. Qed.

(** ** The timestamp of a request *)

Lemma Add_lookup (values : gmap string (list string)) (key value : string) :
  url.Add values key value !! key = Some (default [] (values !! key) ++ [value]).
Proof. unfold url.Add. apply lookup_insert_eq. Qed.

Lemma Add_lookup_ne (values : gmap string (list string)) (key key' value : string) :
  key <> key' -> url.Add values key value !! key' = values !! key'.
Proof. intros Hne. unfold url.Add. apply lookup_insert_ne. exact Hne. Qed.

Lemma AddURLValuesToRequest_lookup (values : gmap string (list string))
    (req : http.Request) (flag : bool) (key : string) (vs : list string) :
  values !! key = Some vs ->
  http.ReqQuery (fst (AddURLValuesToRequest values req flag)) !! key
  = Some (queryValues req key ++ vs).
Proof.
  intros Hkey. unfold AddURLValuesToRequest, queryValues. cbn.
  rewrite lookup_union_with, Hkey.
  destruct (http.ReqQuery req !! key); reflexivity.
Qed.

(** C3. [NewRequest] reads the clock once: when the body is serialized
    and [http.NewRequest] gives a request, it returns a request with the
    clock one reading further, and the instant of that one reading is the
    one whose string is added as the [timestamp] parameter and the one
    the signature added as the [signature] parameter is computed from,
    over the serialized body. *)
Theorem NewRequest_timestamp_once :
  forall (time_Time : Type) (DateTime_String : DateTime time_Time -> string)
         (wall_clock : nat -> time_Time) (BodyValue : Type)
         (json_Encode : BodyValue -> error + list byte)
         (http_NewRequest : string -> url.URL -> list byte -> error + http.Request)
         (c : Client.t) (ctx : option context.Context) (method : string) (URL : url.URL)
         (body : option BodyValue) (clock : nat) (buf : list byte) (req0 : http.Request),
    serialized json_Encode body = inr buf ->
    http_NewRequest method URL buf = inr req0 ->
    exists req : http.Request,
      NewRequest DateTime_String wall_clock json_Encode http_NewRequest
        c ctx method URL body clock = (inr req, S clock)
      /\ http.ReqQuery req !! "timestamp"%string
         = Some (queryValues req0 "timestamp"
                   ++ [DateTime_String {| Time := wall_clock clock |}])
      /\ http.ReqQuery req !! "signature"%string
         = Some (queryValues req0 "signature"
                   ++ [GenerateSignature DateTime_String c {| Time := wall_clock clock |} buf])
      /\ http.ReqQuery req !! "ApiId"%string = Some (queryValues req0 "ApiId" ++ [APIID c]).
Proof.
  intros time_Time DateTime_String wall_clock BodyValue json_Encode http_NewRequest
    c ctx method URL body clock buf req0 Hbody Hreq.
  unfold NewRequest.
  assert (Hencoded : match body with
                     | Some body => match json_Encode body with
                                    | inl err => inl err
                                    | inr written => inr ([] ++ written)
                                    end
                     | None => inr []
                     end = inr buf).
  { destruct body as [b|]; cbn in Hbody |- *; [|exact Hbody].
    destruct (json_Encode b); [discriminate Hbody | exact Hbody]. }
  rewrite Hencoded, Hreq.
  cbn [GenerateTimestamp time_Now].
  set (timestamp := {| Time := wall_clock clock |}).
  set (values := url.Add (url.Add (url.Add ∅ "ApiId" (APIID c)) "timestamp"
                            (DateTime_String timestamp)) "signature"
                   (GenerateSignature DateTime_String c timestamp buf)).
  assert (Hts : values !! "timestamp"%string = Some [DateTime_String timestamp]).
  { subst values. rewrite Add_lookup_ne by discriminate. rewrite Add_lookup.
    rewrite Add_lookup_ne by discriminate. reflexivity. }
  assert (Hsig : values !! "signature"%string
                 = Some [GenerateSignature DateTime_String c timestamp buf]).
  { subst values. rewrite Add_lookup. rewrite !Add_lookup_ne by discriminate. reflexivity. }
  assert (Hid : values !! "ApiId"%string = Some [APIID c]).
  { subst values. rewrite !Add_lookup_ne by discriminate. rewrite Add_lookup. reflexivity. }
  pose proof (AddURLValuesToRequest_lookup values req0 true
                "timestamp" _ Hts) as Hts'.
  pose proof (AddURLValuesToRequest_lookup values req0 true
                "signature" _ Hsig) as Hsig'.
  pose proof (AddURLValuesToRequest_lookup values req0 true
                "ApiId" _ Hid) as Hid'.
  destruct (AddURLValuesToRequest values req0 true) as [req [err|]] eqn:Hadd;
    [discriminate Hadd|].
  cbn [fst] in Hts', Hsig', Hid'.
  eexists. split; [reflexivity|].
  destruct ctx as [ctx|];
    cbn [http.ReqQuery http.withHeader http.WithContext]; auto.
Qed.

Lemma NewRequest_timestamp_once_ticking :
  exists req : http.Request,
    NewRequest printInstant tickingClock encodeText requestWithPage
      exampleClient None "POST" BaseURL (Some "{}"%string) 3%nat = (inr req, 4%nat)
    /\ http.ReqQuery req !! "timestamp"%string
       = Some (queryValues pageRequest "timestamp"
                 ++ [printInstant {| Time := tickingClock 3 |}])
    /\ http.ReqQuery req !! "signature"%string
       = Some (queryValues pageRequest "signature"
                 ++ [GenerateSignature printInstant exampleClient
                       {| Time := tickingClock 3 |} (bytes_of_string "{}")])
    /\ http.ReqQuery req !! "ApiId"%string
       = Some (queryValues pageRequest "ApiId" ++ [APIID exampleClient]).
Proof.
  exact (NewRequest_timestamp_once nat printInstant tickingClock string encodeText
           requestWithPage exampleClient None "POST" BaseURL (Some "{}"%string) 3%nat
           (bytes_of_string "{}") pageRequest eq_refl eq_refl).
Defined.

(** The same request, computed: the clock gives 103 at its fourth
    reading, and the parameters carry that instant and its signature. *)
Example NewRequest_ticking_computed :
  match NewRequest printInstant tickingClock encodeText requestWithPage
          exampleClient None "POST" BaseURL (Some "{}"%string) 3%nat with
  | (inr req, clock) =>
      clock = 4%nat
      /\ http.ReqQuery req !! "timestamp"%string = Some ["t+3"%string]
      /\ http.ReqQuery req !! "signature"%string
         = Some ["dyJkkEEdq/pXLu32Exxlj1PZ2bZpDUKMkBjG+JDXS4o="%string]
      /\ http.ReqQuery req !! "page"%string = Some ["2"%string]
  | (inl _, _) => False
  end.
Proof. vm_compute. repeat split; reflexivity. Qed.

(** ** Endpoint templates *)

Lemma append_cons (x : ascii) (a b : string) : String x a +:+ b = String x (a +:+ b).
Proof. reflexivity. Qed.

Lemma append_assoc (a b c : string) : (a +:+ b) +:+ c = a +:+ (b +:+ c).
Proof.
  induction a as [|x a IH]; [reflexivity|].
  rewrite !append_cons. f_equal. exact IH.
Qed.

Lemma append_nil_r (a : string) : a +:+ EmptyString = a.
Proof.
  induction a as [|x a IH]; [reflexivity|].
  rewrite append_cons. f_equal. exact IH.
Qed.

Lemma snoc_append (t : string) (c : ascii) (s : string) :
  template.snoc t c +:+ s = t +:+ String c s.
Proof. unfold template.snoc. rewrite append_assoc. reflexivity. Qed.

(** Text without a brace is collected as it stands. *)
Lemma lex_literal (text : string) :
  forall t s : string,
    braceFree text = true ->
    template.lex (template.lexText t) (text +:+ s)
    = template.lex (template.lexText (t +:+ text)) s.
Proof.
  induction text as [|c text IH]; intros t s Hfree.
  - rewrite append_nil_r. reflexivity.
  - unfold braceFree in Hfree. cbn [strings.ContainsByte] in Hfree.
    apply negb_true_iff, orb_false_iff in Hfree as [Hc Htext].
    rewrite append_cons. cbn [template.lex]. rewrite Hc.
    rewrite IH by (unfold braceFree; rewrite Htext; reflexivity).
    rewrite snoc_append. reflexivity.
Qed.

(** A name is collected up to the right delimiter. *)
Lemma lex_name (name : string) :
  forall acc s : string,
    allAlphaNumeric name = true ->
    template.lex (template.lexField acc) (name +:+ "}}" +:+ s)
    = template.emitField (acc +:+ name) (template.lex (template.lexText EmptyString) s).
Proof.
  induction name as [|c name IH]; intros acc s Hname.
  - rewrite append_nil_r. reflexivity.
  - cbn [allAlphaNumeric] in Hname. apply andb_prop in Hname as [Hc Hname].
    rewrite append_cons. cbn [template.lex]. rewrite Hc.
    rewrite IH by exact Hname. rewrite snoc_append. reflexivity.
Qed.

Lemma lex_placeholder (name t s : string) :
  isName name = true ->
  template.lex (template.lexText t) ("{{." +:+ name +:+ "}}" +:+ s)
  = template.emitText t
      (template.emitField name (template.lex (template.lexText EmptyString) s)).
Proof.
  intros Hname. destruct name as [|c name]; [discriminate Hname|].
  cbn [isName] in Hname. apply andb_prop in Hname as [Hc Hname].
  assert (Halnum : template.isAlphaNumeric c = true)
    by (unfold template.isAlphaNumeric; rewrite Hc; reflexivity).
  change ("{{." +:+ String c name +:+ "}}" +:+ s)
    with (String "{" (String "{" (String "." (String c (name +:+ "}}" +:+ s))))).
  cbn [template.lex].
  change (Ascii.eqb "{" "{") with true. change (template.isBlank ".") with false.
  change (Ascii.eqb "." ".") with true. cbv iota. rewrite Hc, Halnum.
  rewrite (lex_name name (template.snoc EmptyString c) s Hname), snoc_append.
  reflexivity.
Qed.

Lemma evalField_default (data : gmap string string) (name : string) :
  template.evalField data name = default "<no value>"%string (data !! name).
Proof. unfold template.evalField. destruct (data !! name); reflexivity. Qed.

(** A template of literal text and placeholders parses, and executing
    the tree writes its expansion. *)
Lemma lex_template_text (pieces : list piece) :
  forallb wellFormedPiece pieces = true ->
  forall t : string,
  exists root : list template.Node,
    template.lex (template.lexText t) (template_text pieces) = template.Tree root
    /\ forall data : gmap string string,
         template.Execute root data = t +:+ expansion data pieces.
Proof.
  induction pieces as [|[text|name] pieces IH]; intros Hwf t.
  - destruct t as [|c t].
    + exists []. split; [reflexivity|]. intros data. reflexivity.
    + exists [template.TextNode (String c t)]. split; [reflexivity|].
      intros data. reflexivity.
  - cbn [forallb wellFormedPiece] in Hwf. apply andb_prop in Hwf as [Htext Hwf].
    cbn [template_text expansion]. rewrite lex_literal by exact Htext.
    destruct (IH Hwf (t +:+ text)) as (root & Hroot & Hexec).
    exists root. split; [exact Hroot|].
    intros data. rewrite Hexec, append_assoc. reflexivity.
  - cbn [forallb wellFormedPiece] in Hwf. apply andb_prop in Hwf as [Hname Hwf].
    cbn [template_text expansion]. rewrite lex_placeholder by exact Hname.
    destruct (IH Hwf EmptyString) as (root & Hroot & Hexec). rewrite Hroot.
    destruct t as [|c t].
    + exists (template.FieldNode name :: root). split; [reflexivity|].
      intros data. cbn [template.Execute]. rewrite Hexec, evalField_default. reflexivity.
    + exists (template.TextNode (String c t) :: template.FieldNode name :: root).
      split; [reflexivity|].
      intros data. cbn [template.Execute]. rewrite Hexec, evalField_default. reflexivity.
Qed.

Lemma ContainsByte_append (a b : string) (c : ascii) :
  strings.ContainsByte (a +:+ b) c = strings.ContainsByte a c || strings.ContainsByte b c.
Proof.
  induction a as [|x a IH]; [reflexivity|].
  rewrite append_cons. cbn [strings.ContainsByte]. rewrite IH, orb_assoc. reflexivity.
Qed.

Lemma braceFree_append (a b : string) :
  braceFree a = true -> braceFree b = true -> braceFree (a +:+ b) = true.
Proof.
  unfold braceFree. rewrite ContainsByte_append.
  intros Ha Hb. apply negb_true_iff in Ha, Hb. rewrite Ha, Hb. reflexivity.
Qed.





(** A template whose action is not closed is a fatal error, and so is
    none of the results above. *)
Example GetEndpointURL_unclosed_action :
  exists err : error,
    GetEndpointURL exampleClient "customers/{{.id" customerParams = LogFatal err.
Proof. eexists. vm_compute. reflexivity. Qed.

(** ** The bound of the scanner is never reached *)

Lemma within_mono {A : Type} (n m : nat) (r : json.scanned A) :
  within n r -> (n <= m)%nat -> within m r.
Proof. destruct r; cbn; auto; lia. Qed.

Lemma within_smap {A B : Type} (f : A -> B) (n : nat) (r : json.scanned A) :
  within n r -> within n (json.smap f r).
Proof. destruct r; cbn; auto. Qed.

Lemma within_bad_hex {A : Type} (n : nat) (l : list byte) : within n (@json.bad_hex A l).
Proof. induction l as [|c l IH]; cbn; [exact I|]. destruct (json.hexval c); [exact IH | exact I]. Qed.

Ltac split_scan :=
  repeat match goal with
         | |- within _ (match ?x with _ => _ end) => destruct x; cbv beta iota
         | |- within _ (if ?b then _ else _) => destruct b
         end.

Lemma scan_string_within (n : nat) :
  forall (s : list byte) (pending : nat),
    (length s <= n)%nat -> within (length s) (json.scan_string pending s).
Proof.
  induction n as [|n IH]; intros s pending Hlen; destruct s as [|c rest];
    try exact I; [simpl in Hlen; lia|].
  simpl in Hlen. cbn [json.scan_string].
  split_scan;
    first [ exact I
          | apply within_bad_hex
          | cbn; lia
          | apply within_smap; eapply within_mono; [apply IH | ]; simpl in *; lia ].
Qed.

Lemma skip_space_length (s : list byte) : (length (json.skip_space s) <= length s)%nat.
Proof.
  induction s as [|c s IH]; [reflexivity|].
  cbn [json.skip_space]. destruct (json.isSpace c); simpl; lia.
Qed.

Lemma skip_digits_length (s : list byte) : (length (json.skip_digits s) <= length s)%nat.
Proof.
  induction s as [|c s IH]; [reflexivity|].
  cbn [json.skip_digits]. destruct (json.isDigit c); simpl; lia.
Qed.

Lemma scan_literal_within (name : string) (expect s : list byte) :
  within (S (length s)) (json.scan_literal name expect s).
Proof.
  revert s. induction expect as [|e expect IH]; intros s; cbn [json.scan_literal].
  - cbn. lia.
  - destruct s as [|c s]; [exact I|]. destruct (json.byte_is c e); [|exact I].
    eapply within_mono; [apply IH | simpl; lia].
Qed.

Lemma scan_exponent_within (s : list byte) : within (S (length s)) (json.scan_exponent s).
Proof.
  unfold json.scan_exponent.
  destruct s as [|c s]; [cbn; lia|].
  destruct (json.byte_is c "e" || json.byte_is c "E"); [|cbn; lia].
  destruct s as [|sign s]; [exact I|].
  destruct (json.byte_is sign "+" || json.byte_is sign "-").
  - destruct s as [|d s]; [exact I|]. destruct (json.isDigit d); [|exact I].
    cbn. pose proof (skip_digits_length s). lia.
  - destruct (json.isDigit sign); [|exact I].
    cbn. pose proof (skip_digits_length s). lia.
Qed.

Lemma scan_fraction_within (s : list byte) : within (S (length s)) (json.scan_fraction s).
Proof.
  unfold json.scan_fraction.
  destruct s as [|c s]; [cbn; lia|].
  destruct (json.byte_is c ".").
  - destruct s as [|d s]; [exact I|]. destruct (json.isDigit d); [|exact I].
    eapply within_mono; [apply scan_exponent_within|].
    pose proof (skip_digits_length s). simpl. lia.
  - apply scan_exponent_within.
Qed.

Lemma scan_number_within (s : list byte) : within (length s) (json.scan_number s).
Proof.
  unfold json.scan_number.
  destruct s as [|c s]; [exact I|].
  destruct (json.byte_is c "-").
  - destruct s as [|d s]; [exact I|].
    destruct (json.byte_is d "0").
    + eapply within_mono; [apply scan_fraction_within | simpl; lia].
    + destruct (json.isDigit d); [|exact I].
      eapply within_mono; [apply scan_fraction_within|].
      pose proof (skip_digits_length s). simpl. lia.
  - destruct (json.byte_is c "0").
    + eapply within_mono; [apply scan_fraction_within | simpl; lia].
    + destruct (json.isDigit c); [|exact I].
      eapply within_mono; [apply scan_fraction_within|].
      pose proof (skip_digits_length s). simpl. lia.
Qed.

Lemma bounded_within {A : Type} (enough : Prop) (s : list byte) (n : nat)
    (r : json.scanned A) :
  within n r -> (n <= length s)%nat -> bounded enough s r.
Proof. destruct r; cbn; auto; try lia. Qed.

Lemma bounded_smap {A B : Type} (f : A -> B) (enough enough' : Prop) (s s' : list byte)
    (r : json.scanned A) :
  bounded enough' s' r -> (length s' <= length s)%nat -> (enough -> enough') ->
  bounded enough s (json.smap f r).
Proof. destruct r; cbn; auto; try lia. Qed.

Ltac space_of X c rest :=
  let H := fresh "Hspace" in
  pose proof (skip_space_length X) as H;
  destruct (json.skip_space X) as [|c rest]; [exact I | simpl in H].

Section ScanStep.

Variable fuel : nat.
Hypothesis IHvalue : forall (depth : Z) (s : list byte),
    bounded (2 * length s < fuel)%nat s (json.scan_value fuel depth s).
Hypothesis IHmembers : forall (depth : Z) (s : list byte),
    bounded (2 * length s < fuel)%nat s (json.scan_members fuel depth s).
Hypothesis IHelems : forall (depth : Z) (s : list byte),
    bounded (2 * length s + 1 < fuel)%nat s (json.scan_elems fuel depth s).

Lemma scan_value_step (depth : Z) (s : list byte) :
  bounded (2 * length s < S fuel)%nat s (json.scan_value (S fuel) depth s).
Proof.
  cbn [json.scan_value]. space_of s c rest.
  destruct (json.byte_is c "{").
  { destruct (json.maxNestingDepth <? depth + 1); [exact I|].
    space_of rest c' rest'.
    destruct (json.byte_is c' "}"); [cbn; lia|].
    eapply bounded_smap; [apply IHmembers | simpl; lia | simpl; lia]. }
  destruct (json.byte_is c "[").
  { destruct (json.maxNestingDepth <? depth + 1); [exact I|].
    space_of rest c' rest'.
    destruct (json.byte_is c' "]"); [cbn; lia|].
    eapply bounded_smap; [apply IHelems | simpl; lia | simpl; lia]. }
  destruct (json.byte_is c x22).
  { eapply bounded_within; [apply within_smap, (scan_string_within (length rest)); lia | lia]. }
  destruct (json.byte_is c "-" || json.isDigit c).
  { pose proof (scan_number_within (c :: rest)) as Hnum.
    destruct (json.scan_number (c :: rest)); cbn in Hnum |- *; auto; lia. }
  destruct (json.byte_is c "t").
  { eapply bounded_within; [apply within_smap, scan_literal_within | lia]. }
  destruct (json.byte_is c "f").
  { eapply bounded_within; [apply within_smap, scan_literal_within | lia]. }
  destruct (json.byte_is c "n").
  { eapply bounded_within; [apply within_smap, scan_literal_within | lia]. }
  exact I.
Qed.

Lemma scan_members_step (depth : Z) (s : list byte) :
  bounded (2 * length s < S fuel)%nat s (json.scan_members (S fuel) depth s).
Proof.
  cbn [json.scan_members]. space_of s c rest.
  destruct (json.byte_is c x22); [|exact I].
  pose proof (scan_string_within (length rest) rest 0 (le_n _)) as Hkey.
  destruct (json.scan_string 0 rest) as [key rest1| | |]; cbn in Hkey; try exact I;
    [|destruct Hkey].
  space_of rest1 c1 rest2.
  destruct (json.byte_is c1 ":"); [|exact I].
  pose proof (IHvalue depth rest2) as Hvalue.
  destruct (json.scan_value fuel depth rest2) as [v rest3| | |]; cbn in Hvalue; try exact I;
    [|cbn; lia].
  space_of rest3 c3 rest4.
  destruct (json.byte_is c3 ",").
  { eapply bounded_smap; [apply IHmembers | lia | simpl; lia]. }
  destruct (json.byte_is c3 "}"); [cbn; lia | exact I].
Qed.

Lemma scan_elems_step (depth : Z) (s : list byte) :
  bounded (2 * length s + 1 < S fuel)%nat s (json.scan_elems (S fuel) depth s).
Proof.
  cbn [json.scan_elems].
  pose proof (IHvalue depth s) as Hvalue.
  destruct (json.scan_value fuel depth s) as [v rest| | |]; cbn in Hvalue; try exact I;
    [|cbn; lia].
  space_of rest c rest'.
  destruct (json.byte_is c ",").
  { eapply bounded_smap; [apply IHelems | lia | simpl; lia]. }
  destruct (json.byte_is c "]"); [cbn; lia | exact I].
Qed.

End ScanStep.

Lemma scan_bounded (fuel : nat) :
  (forall depth s, bounded (2 * length s < fuel)%nat s (json.scan_value fuel depth s))
  /\ (forall depth s, bounded (2 * length s < fuel)%nat s (json.scan_members fuel depth s))
  /\ (forall depth s, bounded (2 * length s + 1 < fuel)%nat s (json.scan_elems fuel depth s)).
Proof.
  induction fuel as [|fuel (IHvalue & IHmembers & IHelems)].
  - repeat split; intros depth s; cbn; lia.
  - split; [|split]; intros depth s.
    + apply scan_value_step; assumption.
    + apply scan_members_step; assumption.
    + apply scan_elems_step; assumption.
Qed.

(** The bound that [json.scan] gives the scanner is never reached, and a
    value scanned takes at least one byte. *)
Lemma scan_fuel (data : list byte) :
  match json.scan data with
  | json.Scanned _ rest => (length rest < length data)%nat
  | json.OutOfFuel => False
  | _ => True
  end.
Proof.
  unfold json.scan.
  pose proof (proj1 (scan_bounded (S (2 * length data))) 0 data) as H.
  destruct (json.scan_value (S (2 * length data)) 0 data); cbn in H; auto.
Qed.

(** * Further properties of the code *)

(** ** The check of a response *)

Lemma CheckResponse_failure_Some (r : http.Response) :
  (200 <=? http.StatusCode r) && (http.StatusCode r <=? 299) = false ->
  exists er, fst (CheckResponse r) = Some er.
Proof.
  intros Hcode. unfold CheckResponse. rewrite Hcode.
  destruct (checkContentType r); [eexists; reflexivity|].
  unfold ReadAll. destruct (body_err (http.Body r)); [eexists; reflexivity|].
  destruct (length (body_data (http.Body r)) =? 0)%nat; [eexists; reflexivity|].
  destruct (json_Unmarshal_ErrorResponse _ _) as [er [err|]]; eexists; reflexivity.
Qed.

Lemma CheckResponse_nil_2xx (r : http.Response) :
  fst (CheckResponse r) = None -> 200 <= http.StatusCode r <= 299.
Proof.
  intros Hnil.
  destruct ((200 <=? http.StatusCode r) && (http.StatusCode r <=? 299)) eqn:Hcode; [lia|].
  destruct (CheckResponse_failure_Some r Hcode) as [er Her].
  rewrite Her in Hnil. discriminate Hnil.
Qed.

(** X1. [CheckResponse] returns nil exactly for the status codes 200 to
    299, both included, whatever the headers and the body are; and when
    it returns nil it has read nothing. *)
Theorem CheckResponse_nil_iff_success :
  forall r : http.Response,
    (fst (CheckResponse r) = None <-> 200 <= http.StatusCode r <= 299)
    /\ (fst (CheckResponse r) = None -> snd (CheckResponse r) = []).
Proof.
  intros r.
  destruct ((200 <=? http.StatusCode r) && (http.StatusCode r <=? 299)) eqn:Hcode.
  - assert (Hrange : 200 <= http.StatusCode r <= 299) by lia.
    rewrite (CheckResponse_success r Hrange). split; [split; auto | auto].
  - destruct (CheckResponse_failure_Some r Hcode) as [er Her]. rewrite Her.
    split; [split; [discriminate | lia] | discriminate].
Qed.

(** X2. When reading the body of a response outside 200-299 of the
    expected content type fails, the error of the reading is dropped:
    the [ErrorResponse] returned has no entry, so that its [Error] method
    panics, and the response is left with a body that holds the bytes
    read before the failure and reads without error. *)
Theorem CheckResponse_read_error_unreported :
  forall (r : http.Response) (err : error),
    isFailure r ->
    contentTypeOf r = mediaType ->
    body_err (http.Body r) = Some err ->
    exists er,
      CheckResponse r = (Some er, [ev_ReadAll])
      /\ Errors er = []
      /\ ReadAll (http.Body (Response er)) = (body_data (http.Body r), None)
      /\ ErrorResponse_Error er = Panics "runtime error: index out of range [0] with length 0".
Proof.
  intros r err Hcode Hct Herr. unfold CheckResponse.
  rewrite (isFailure_test r Hcode), (proj2 (checkContentType_None r) Hct).
  unfold ReadAll. rewrite Herr.
  eexists. split; [reflexivity|]. split; [reflexivity|]. split; reflexivity.
Qed.

Lemma CheckResponse_read_error_interrupted :
  exists er,
    CheckResponse interruptedNotFound = (Some er, [ev_ReadAll])
    /\ Errors er = []
    /\ ReadAll (http.Body (Response er)) = (bytes_of_string "{", None)
    /\ ErrorResponse_Error er = Panics "runtime error: index out of range [0] with length 0".
Proof.
  apply (CheckResponse_read_error_unreported interruptedNotFound io_ErrUnexpectedEOF).
  - right. reflexivity.
  - reflexivity.
  - reflexivity.
Defined.

(** X3. A body that is not empty and is not one JSON value, for a
    response outside 200-299 of the expected content type, gives an
    [ErrorResponse] whose only entry is the syntax error of
    [json.Unmarshal], and whose message is that of the syntax error. *)
Theorem CheckResponse_undecodable_body :
  forall (r : http.Response) (err : error),
    isFailure r ->
    contentTypeOf r = mediaType ->
    body_err (http.Body r) = None ->
    body_data (http.Body r) <> [] ->
    json.checkValid (body_data (http.Body r)) = Some err ->
    exists er,
      CheckResponse r = (Some er, [ev_ReadAll; ev_Unmarshal (body_data (http.Body r))])
      /\ Errors er = [err]
      /\ ErrorResponse_Error er = Returns (error_Error err).
Proof.
  intros r err Hcode Hct Herr Hdata Hvalid. unfold CheckResponse.
  rewrite (isFailure_test r Hcode), (proj2 (checkContentType_None r) Hct).
  unfold ReadAll. rewrite Herr.
  destruct (body_data (http.Body r)) as [|b data] eqn:Hbody; [contradiction|].
  cbn [length Nat.eqb]. unfold json_Unmarshal_ErrorResponse. rewrite Hvalid.
  eexists. split; [reflexivity|]. split; reflexivity.
Qed.

Lemma CheckResponse_undecodable_html :
  exists er,
    CheckResponse htmlNotFound
    = (Some er, [ev_ReadAll; ev_Unmarshal (bytes_of_string "<html>oops</html>")])
    /\ Errors er
       = [json_SyntaxError "invalid character '<' looking for beginning of value"]
    /\ ErrorResponse_Error er
       = Returns "invalid character '<' looking for beginning of value"%string.
Proof.
  apply (CheckResponse_undecodable_body htmlNotFound
           (json_SyntaxError "invalid character '<' looking for beginning of value")).
  - right. reflexivity.
  - reflexivity.
  - reflexivity.
  - discriminate.
  - vm_compute. reflexivity.
Defined.

(** ** The content type of a response *)

Lemma withoutParameters_split (s : string) :
  s = withoutParameters s \/ exists p, s = withoutParameters s +:+ ";" +:+ p.
Proof.
  induction s as [|c s IH]; [left; reflexivity|].
  cbn [withoutParameters]. destruct (Ascii.eqb_spec c ";") as [->|Hc].
  - right. exists s. reflexivity.
  - destruct IH as [IH|[p IH]].
    + left. f_equal. exact IH.
    + right. exists p. rewrite append_cons. f_equal. exact IH.
Qed.

Lemma withoutParameters_prefix (t p : string) :
  strings.ContainsByte t ";" = false ->
  withoutParameters t = t /\ withoutParameters (t +:+ ";" +:+ p) = t.
Proof.
  induction t as [|c t IH]; intros Hfree; [split; reflexivity|].
  cbn [strings.ContainsByte] in Hfree. apply orb_false_iff in Hfree as [Hc Hfree].
  destruct (IH Hfree) as [IH1 IH2].
  rewrite append_cons. cbn [withoutParameters]. rewrite Hc, IH1, IH2. split; reflexivity.
Qed.

(** X4. [checkContentType] accepts a response exactly when the first
    [Content-Type] value is [application/json], alone or followed by a
    semicolon and anything: the comparison is exact, with no folding of
    case and no trimming of blanks, and a response without the header is
    refused. *)
Theorem checkContentType_accepts :
  forall r : http.Response,
    (checkContentType r = None
     <-> (http.Get (http.Header r) "Content-Type" = "application/json"%string
          \/ exists params : string,
               http.Get (http.Header r) "Content-Type"
               = "application/json;" +:+ params))
    /\ (http.Header r !! "Content-Type"%string = None -> checkContentType r <> None).
Proof.
  intros r. assert (Hiff : checkContentType r = None
     <-> (http.Get (http.Header r) "Content-Type" = "application/json"%string
          \/ exists params : string,
               http.Get (http.Header r) "Content-Type"
               = "application/json;" +:+ params)).
  { rewrite checkContentType_None. unfold contentTypeOf.
    generalize (http.Get (http.Header r) "Content-Type"). intros h. split.
    - intros Hct. destruct (withoutParameters_split h) as [Hh|[p Hh]]; rewrite Hct in Hh.
      + left. exact Hh.
      + right. exists p. exact Hh.
    - intros [->|[p ->]].
      + reflexivity.
      + exact (proj2 (withoutParameters_prefix mediaType p eq_refl)). }
  split; [exact Hiff|].
  intros Hnone Hcheck. apply Hiff in Hcheck. unfold http.Get in Hcheck.
  rewrite Hnone in Hcheck. destruct Hcheck as [Hcheck|[p Hcheck]]; discriminate Hcheck.
Qed.

(** ** The message of an ErrorResponse *)

Lemma fold_left_snoc_messages (es : list error) (acc : list string) :
  fold_left (fun str err => str ++ [error_Error err]) es acc = acc ++ map error_Error es.
Proof.
  revert acc. induction es as [|e es IH]; intros acc; cbn [fold_left map].
  - rewrite app_nil_r. reflexivity.
  - rewrite IH, <- app_assoc. reflexivity.
Qed.

Lemma Join_messages (e : error) (es : list error) :
  strings.Join (map error_Error (e :: es)) ", " = messages e es.
Proof.
  revert e. induction es as [|e' es IH]; intros e; [reflexivity|].
  cbn [messages]. rewrite <- IH. reflexivity.
Qed.

Lemma ErrorResponse_Error_messages (resp : http.Response) (e : error) (es : list error) :
  ErrorResponse_Error {| Response := resp; Errors := e :: es |} = Returns (messages e es).
Proof.
  unfold ErrorResponse_Error. cbn [Errors length Nat.ltb Nat.leb].
  rewrite fold_left_snoc_messages, app_nil_l, Join_messages. reflexivity.
Qed.

Lemma messages_app (e1 e2 : error) (es1 es2 : list error) :
  messages e1 (es1 ++ e2 :: es2) = messages e1 es1 +:+ ", " +:+ messages e2 es2.
Proof.
  revert e1. induction es1 as [|e es1 IH]; intros e1; cbn [app messages]; [reflexivity|].
  rewrite IH, !append_assoc. reflexivity.
Qed.

(** X5. The [Error] method of an [ErrorResponse] with at least one entry
    never panics: it returns the messages of the entries in their order,
    separated by a comma and a space. For one entry that is the message
    of the entry, and for two lists of entries put one after the other it
    is the two messages with the separator between them. *)
Theorem ErrorResponse_Error_joins :
  forall (resp : http.Response) (e1 e2 : error) (es1 es2 : list error),
    ErrorResponse_Error {| Response := resp; Errors := [e1] |} = Returns (error_Error e1)
    /\ ErrorResponse_Error {| Response := resp; Errors := e1 :: es1 |}
       = Returns (messages e1 es1)
    /\ ErrorResponse_Error {| Response := resp; Errors := (e1 :: es1) ++ e2 :: es2 |}
       = Returns (messages e1 es1 +:+ ", " +:+ messages e2 es2)
    /\ ErrorResponse_Error {| Response := resp; Errors := [e1; e2] |}
       = Returns (error_Error e1 +:+ ", " +:+ error_Error e2).
Proof.
  intros resp e1 e2 es1 es2.
  split; [apply ErrorResponse_Error_messages|].
  split; [apply ErrorResponse_Error_messages|].
  split; [|apply ErrorResponse_Error_messages].
  cbn [app]. rewrite ErrorResponse_Error_messages, messages_app. reflexivity.
Qed.

(** ** Decoding into an ErrorResponse *)

Lemma json_Unmarshal_ErrorResponse_error_body (r : ErrorResponse) (m d : string) :
  isASCII m = true -> isASCII d = true ->
  json_Unmarshal_ErrorResponse (error_body m d) r
  = ({| Response := Response r;
        Errors := Errors r ++ [ErrorValue {| Message := m; MessageDetail := d |}] |}, None).
Proof.
  intros Hm Hd.
  destruct (Unmarshal_error_object _ m d (error_body_isErrorObject m d Hm Hd))
    as (Hvalid & Hbytes & Hdecode).
  unfold json_Unmarshal_ErrorResponse, UnmarshalJSON.
  rewrite Hvalid, Hbytes, Hdecode. reflexivity.
Qed.

(** X6. Decoding into an [ErrorResponse] adds to its entries and never
    replaces them: a decoding that fails leaves the value as it was, and
    two error objects decoded one after the other into the same value
    leave their two errors after the entries that were there, in the
    order of the decodings. *)
Theorem UnmarshalJSON_accumulates :
  forall (r : ErrorResponse) (data : list byte),
    (forall err, snd (json_Unmarshal_ErrorResponse data r) = Some err ->
                 fst (json_Unmarshal_ErrorResponse data r) = r)
    /\ (snd (json_Unmarshal_ErrorResponse data r) = None ->
        exists e, fst (json_Unmarshal_ErrorResponse data r)
                  = {| Response := Response r; Errors := Errors r ++ [ErrorValue e] |})
    /\ (forall m1 d1 m2 d2 : string,
          isASCII m1 = true -> isASCII d1 = true -> isASCII m2 = true -> isASCII d2 = true ->
          json_Unmarshal_ErrorResponse (error_body m2 d2)
            (fst (json_Unmarshal_ErrorResponse (error_body m1 d1) r))
          = ({| Response := Response r;
                Errors := Errors r ++ [ErrorValue {| Message := m1; MessageDetail := d1 |};
                                       ErrorValue {| Message := m2; MessageDetail := d2 |}] |},
             None)).
Proof.
  intros r data. split; [|split].
  - intros err. unfold json_Unmarshal_ErrorResponse, UnmarshalJSON.
    destruct (json.checkValid data); [reflexivity|].
    destruct (json.Unmarshal _ _) as [v [e|]]; [reflexivity | discriminate].
  - unfold json_Unmarshal_ErrorResponse, UnmarshalJSON.
    destruct (json.checkValid data); [discriminate|].
    destruct (json.Unmarshal _ _) as [v [e|]]; [discriminate|].
    intros _. eexists. reflexivity.
  - intros m1 d1 m2 d2 Hm1 Hd1 Hm2 Hd2.
    rewrite (json_Unmarshal_ErrorResponse_error_body r m1 d1 Hm1 Hd1). cbn [fst].
    rewrite (json_Unmarshal_ErrorResponse_error_body _ m2 d2 Hm2 Hd2). cbn [Response Errors].
    rewrite <- app_assoc. reflexivity.
Qed.

(** ** The course of Do *)

(** [Do] after an exchange that gave a response, by what the check of
    the response and the decoding give. *)
Lemma Do_checked (c : Client.t) (req : http.Request) (v : option GoValue)
    (r0 : http.Response) :
  Client.http c req = inr r0 ->
  Do c req v =
  let r := received c req r0 in
  let events := beforeCheck c req r0 ++ snd (CheckResponse r) in
  match fst (CheckResponse r) with
  | Some er =>
      {| do_response := Some (Response er); do_error := Some (ResponseError er);
         do_responseBody := v; do_events := events ++ [ev_Close (heldAtReturn c req r0)] |}
  | None =>
      match v with
      | None =>
          {| do_response := Some r; do_error := None; do_responseBody := None;
             do_events := events ++ [ev_Close (heldAtReturn c req r0)] |}
      | Some v =>
          let decoded := json.Decode (Client.disallowUnknownFields c) (http.Body r) v in
          {| do_response := Some r;
             do_error := match snd decoded with
                         | None | Some io_EOF => None
                         | Some err => Some (ResponseError {| Response := r; Errors := [err] |})
                         end;
             do_responseBody := Some (fst decoded);
             do_events := events ++ [ev_Decode; ev_Close (heldAtReturn c req r0)] |}
      end
  end.
Proof.
  intros Hhttp. unfold Do, beforeCheck, heldAtReturn, received, completed. rewrite Hhttp.
  destruct (Client.onRequestCompleted c) as [callback|]; destruct (Client.debug c);
    destruct (CheckResponse _) as [[er|] checked]; cbn [fst snd app];
    destruct (copiedBack checked); cbn; try reflexivity;
    destruct v as [v|]; try reflexivity;
    destruct (json.Decode _ _ v) as [v' [[]|]]; reflexivity.
Qed.

Lemma CheckResponse_events (r : http.Response) :
  forallb readsForCheck (snd (CheckResponse r)) = true.
Proof.
  unfold CheckResponse.
  destruct ((200 <=? http.StatusCode r) && (http.StatusCode r <=? 299)); [reflexivity|].
  destruct (checkContentType r); [reflexivity|].
  unfold ReadAll. destruct (body_err (http.Body r)); [reflexivity|].
  destruct (length (body_data (http.Body r)) =? 0)%nat; [reflexivity|].
  destruct (json_Unmarshal_ErrorResponse _ _) as [er [err|]]; reflexivity.
Qed.

Lemma CheckResponse_keeps_status (r : http.Response) (er : ErrorResponse) :
  fst (CheckResponse r) = Some er ->
  http.StatusCode (Response er) = http.StatusCode r
  /\ http.Status (Response er) = http.Status r
  /\ http.Header (Response er) = http.Header r.
Proof.
  unfold CheckResponse.
  destruct ((200 <=? http.StatusCode r) && (http.StatusCode r <=? 299)); [discriminate|].
  destruct (checkContentType r).
  { intros [= <-]. repeat split. }
  unfold ReadAll. destruct (body_err (http.Body r)).
  { intros [= <-]. repeat split. }
  destruct (length (body_data (http.Body r)) =? 0)%nat.
  { intros [= <-]. repeat split. }
  unfold json_Unmarshal_ErrorResponse, UnmarshalJSON.
  destruct (json.checkValid _).
  { intros [= <-]. repeat split. }
  destruct (json.Unmarshal _ _) as [v [e|]]; intros [= <-]; repeat split.
Qed.

Lemma DumpResponse_keeps_status (r : http.Response) :
  http.StatusCode (DumpResponse r) = http.StatusCode r
  /\ http.Status (DumpResponse r) = http.Status r
  /\ http.Header (DumpResponse r) = http.Header r.
Proof. unfold DumpResponse. destruct (body_err (http.Body r)); repeat split. Qed.

Lemma received_keeps_status (c : Client.t) (req : http.Request) (r0 : http.Response) :
  http.StatusCode (received c req r0) = http.StatusCode (completed c req r0)
  /\ http.Status (received c req r0) = http.Status (completed c req r0)
  /\ http.Header (received c req r0) = http.Header (completed c req r0).
Proof.
  unfold received. destruct (Client.debug c); [apply DumpResponse_keeps_status | repeat split].
Qed.

Lemma forallb_weaken {A : Type} (p q : A -> bool) (l : list A) :
  (forall a, p a = true -> q a = true) -> forallb p l = true -> forallb q l = true.
Proof.
  intros Hpq. induction l as [|a l IH]; [reflexivity|]. cbn [forallb].
  intros H. apply andb_prop in H as [Ha Hl]. rewrite (Hpq a Ha), (IH Hl). reflexivity.
Qed.

Lemma existsb_forallb_negb {A : Type} (p : A -> bool) (l : list A) :
  forallb (fun a => negb (p a)) l = true -> existsb p l = false.
Proof.
  induction l as [|a l IH]; [reflexivity|]. cbn [forallb existsb].
  intros H. apply andb_prop in H as [Ha Hl]. rewrite (IH Hl).
  apply negb_true_iff in Ha. rewrite Ha. reflexivity.
Qed.

(** What the check of a response does is neither a closing, nor a call
    of the callback, nor a decoding into the destination. *)
Lemma CheckResponse_events_not (p : event -> bool) (r : http.Response) :
  p ev_ReadAll = false -> (forall data, p (ev_Unmarshal data) = false) ->
  forallb (fun e => negb (p e)) (snd (CheckResponse r)) = true.
Proof.
  intros Hread Hunmarshal.
  apply (forallb_weaken readsForCheck); [|apply CheckResponse_events].
  intros [] He; try discriminate He; [rewrite Hread | rewrite Hunmarshal]; reflexivity.
Qed.

Lemma beforeCheck_no_close (c : Client.t) (req : http.Request) (r0 : http.Response) :
  forallb (fun e => negb (isClose e)) (beforeCheck c req r0) = true.
Proof.
  unfold beforeCheck.
  destruct (Client.debug c); destruct (Client.onRequestCompleted c); reflexivity.
Qed.

(** X7. When the exchange fails, [Do] returns no response and the error
    of the transport as it is, not wrapped in an [ErrorResponse]; it
    leaves the destination alone, does not call the completion callback
    and closes nothing. Only the request is logged, in debug mode. *)
Theorem Do_transport_error :
  forall (c : Client.t) (req : http.Request) (responseBody : option GoValue) (err : error),
    Client.http c req = inl err ->
    Do c req responseBody
    = {| do_response := None; do_error := Some (TransportError err);
         do_responseBody := responseBody;
         do_events := if Client.debug c then [ev_Println_Request req] else [] |}
    /\ existsb isCompleted (do_events (Do c req responseBody)) = false
    /\ existsb isClose (do_events (Do c req responseBody)) = false
    /\ existsb readsBody (do_events (Do c req responseBody)) = false.
Proof.
  intros c req responseBody err Hhttp. unfold Do. rewrite Hhttp.
  split; [reflexivity|]. cbn [do_events].
  destruct (Client.debug c); repeat split.
Qed.

Lemma Do_transport_error_example :
  Do (withCallback exampleClient (Some markOK)) exampleRequest (Some (customer "before"))
  = {| do_response := None; do_error := Some (TransportError (errorString "no transport"));
       do_responseBody := Some (customer "before"); do_events := [] |}.
Proof.
  exact (proj1 (Do_transport_error (withCallback exampleClient (Some markOK)) exampleRequest
                  (Some (customer "before")) (errorString "no transport") eq_refl)).
Defined.

(** The check of a response puts a copy in the place of the body
    exactly for a status code outside 200-299 with the expected content
    type. *)
Lemma CheckResponse_copiedBack (r : http.Response) :
  copiedBack (snd (CheckResponse r))
  = negb ((200 <=? http.StatusCode r) && (http.StatusCode r <=? 299))
    && match checkContentType r with
       | None => true
       | Some _ => false
       end.
Proof.
  unfold CheckResponse.
  destruct ((200 <=? http.StatusCode r) && (http.StatusCode r <=? 299)); [reflexivity|].
  destruct (checkContentType r); [reflexivity|].
  unfold ReadAll. destruct (body_err (http.Body r)); [reflexivity|].
  destruct (length (body_data (http.Body r)) =? 0)%nat; [reflexivity|].
  destruct (json_Unmarshal_ErrorResponse _ _) as [er [err|]]; reflexivity.
Qed.

Lemma heldAtReturn_copied (c : Client.t) (req : http.Request) (r0 : http.Response) :
  isFailure (completed c req r0) ->
  contentTypeOf (completed c req r0) = mediaType ->
  heldAtReturn c req r0 = FromCheck.
Proof.
  intros Hcode Hct. unfold heldAtReturn. rewrite CheckResponse_copiedBack.
  destruct (received_keeps_status c req r0) as (Hkept & _ & Hheader).
  rewrite Hkept, (isFailure_test _ Hcode).
  assert (Hcheck : checkContentType (received c req r0) = None).
  { apply checkContentType_None. unfold contentTypeOf in *. rewrite Hheader. exact Hct. }
  rewrite Hcheck. reflexivity.
Qed.

Lemma heldAtReturn_kept (c : Client.t) (req : http.Request) (r0 : http.Response) :
  200 <= http.StatusCode (completed c req r0) <= 299
  \/ contentTypeOf (completed c req r0) <> mediaType ->
  heldAtReturn c req r0 = if Client.debug c then FromDump else FromExchange.
Proof.
  intros Hkeep. unfold heldAtReturn. rewrite CheckResponse_copiedBack.
  destruct (received_keeps_status c req r0) as (Hkept & _ & Hheader).
  rewrite Hkept. destruct Hkeep as [Hcode|Hct].
  - replace ((200 <=? http.StatusCode (completed c req r0))
             && (http.StatusCode (completed c req r0) <=? 299)) with true by lia.
    reflexivity.
  - destruct (checkContentType (received c req r0)) eqn:Hcheck.
    { rewrite andb_false_r. reflexivity. }
    apply checkContentType_None in Hcheck. unfold contentTypeOf in *.
    rewrite Hheader in Hcheck. contradiction.
Qed.

(** X8. After an exchange that gave a response, [Do] calls [Close]
    exactly once, as the last thing it does, on what the response holds
    as its body by then. With debug mode off that is the body the
    exchange gave, as the callback left it, unless the status code is
    outside 200-299 and the content type the expected one: then
    [CheckResponse] has put a copy of the bytes in its place, the call
    closes the copy, and nothing closes the body the exchange gave. *)
Theorem Do_closes_body_once :
  forall (c : Client.t) (req : http.Request) (responseBody : option GoValue)
         (r0 : http.Response),
    Client.http c req = inr r0 ->
    exists (before : list event) (held : heldBody),
      do_events (Do c req responseBody) = before ++ [ev_Close held]
      /\ forallb (fun e => negb (isClose e)) before = true
      /\ (Client.debug c = false ->
          (isFailure (completed c req r0) /\ contentTypeOf (completed c req r0) = mediaType ->
           held = FromCheck
           /\ existsb closesExchangeBody (do_events (Do c req responseBody)) = false)
          /\ (200 <= http.StatusCode (completed c req r0) <= 299
              \/ contentTypeOf (completed c req r0) <> mediaType ->
              held = FromExchange)).
Proof.
  intros c req responseBody r0 Hhttp.
  pose proof (beforeCheck_no_close c req r0) as Hbefore.
  pose proof (CheckResponse_events_not isClose (received c req r0) eq_refl
                (fun _ => eq_refl)) as Hchecked.
  pose proof (CheckResponse_events_not closesExchangeBody (received c req r0) eq_refl
                (fun _ => eq_refl)) as Hkept.
  assert (Hshape : exists before : list event,
             do_events (Do c req responseBody) = before ++ [ev_Close (heldAtReturn c req r0)]
             /\ forallb (fun e => negb (isClose e)) before = true
             /\ (Client.debug c = false ->
                 forallb (fun e => negb (closesExchangeBody e)) before = true)).
  { rewrite (Do_checked c req responseBody r0 Hhttp). cbv zeta.
    assert (Hquiet : Client.debug c = false ->
                     forallb (fun e => negb (closesExchangeBody e)) (beforeCheck c req r0)
                     = true).
    { intros Hdebug. unfold beforeCheck. rewrite Hdebug.
      destruct (Client.onRequestCompleted c); reflexivity. }
    destruct (fst (CheckResponse (received c req r0))) as [er|];
      [|destruct responseBody as [v|]]; cbn [do_events].
    - eexists. split; [reflexivity|]. rewrite !forallb_app, Hbefore, Hchecked, Hkept.
      split; [reflexivity|]. intros Hdebug. rewrite (Hquiet Hdebug). reflexivity.
    - exists ((beforeCheck c req r0 ++ snd (CheckResponse (received c req r0))) ++ [ev_Decode]).
      split; [rewrite <- !app_assoc; reflexivity|].
      rewrite !forallb_app, Hbefore, Hchecked, Hkept. split; [reflexivity|].
      intros Hdebug. rewrite (Hquiet Hdebug). reflexivity.
    - eexists. split; [reflexivity|]. rewrite !forallb_app, Hbefore, Hchecked, Hkept.
      split; [reflexivity|]. intros Hdebug. rewrite (Hquiet Hdebug). reflexivity. }
  destruct Hshape as (before & Hevents & Hclose & Hquiet).
  exists before, (heldAtReturn c req r0). split; [exact Hevents|]. split; [exact Hclose|].
  intros Hdebug. split.
  - intros [Hcode Hct]. rewrite (heldAtReturn_copied c req r0 Hcode Hct) in *.
    split; [reflexivity|]. rewrite Hevents. apply existsb_forallb_negb.
    rewrite forallb_app, (Hquiet Hdebug). reflexivity.
  - intros Hkeep. rewrite (heldAtReturn_kept c req r0 Hkeep), Hdebug. reflexivity.
Qed.

Lemma Do_closes_body_once_notFound :
  exists before : list event,
    do_events (Do (clientAnswering notFound false) exampleRequest (Some (customer "before")))
    = before ++ [ev_Close FromCheck]
    /\ forallb (fun e => negb (isClose e)) before = true
    /\ existsb closesExchangeBody
         (do_events (Do (clientAnswering notFound false) exampleRequest
                       (Some (customer "before")))) = false.
Proof.
  destruct (Do_closes_body_once (clientAnswering notFound false) exampleRequest
              (Some (customer "before")) notFound eq_refl)
    as (before & held & Hevents & Hclose & Hquiet).
  destruct (Hquiet eq_refl) as [Hcopied _].
  destruct (Hcopied (conj (or_intror eq_refl) eq_refl)) as [Hheld Hnone].
  exists before. rewrite <- Hheld. split; [exact Hevents|]. split; [exact Hclose | exact Hnone].
Defined.

(** For the 404 of the example the one call of [Close] is on the copy
    that the check has made; for a success it is on the body the exchange
    gave. *)
Example Do_closes_computed :
  do_events (Do (clientAnswering notFound false) exampleRequest (Some (customer "before")))
  = [ev_ReadAll; ev_Unmarshal (error_body "Not found" "no such id"); ev_Close FromCheck]
  /\ do_events (Do (clientAnswering noContent false) exampleRequest (Some (customer "before")))
     = [ev_Decode; ev_Close FromExchange].
Proof. vm_compute. split; reflexivity. Qed.

Lemma beforeCheck_callback (c : Client.t) (req : http.Request) (r0 : http.Response)
    (callback : RequestCompletionCallback) :
  Client.onRequestCompleted c = Some callback ->
  beforeCheck c req r0
  = (if Client.debug c then [ev_Println_Request req] else [])
    ++ ev_Completed
       :: (if Client.debug c
           then [ev_DumpResponse; ev_Println_Response (callback req r0)]
           else []).
Proof.
  intros Hcb. unfold beforeCheck, completed. rewrite Hcb. reflexivity.
Qed.

(** X9. With a completion callback set, [Do] calls it exactly once for
    every response the exchange gives, before anything reads the body and
    also when the response is an error. The response is checked as the
    callback leaves it: the status and the headers of the response that
    [Do] returns are those the callback left, and [Do] returns no error
    only if the status code the callback left is in 200-299. *)
Theorem Do_callback_once :
  forall (c : Client.t) (req : http.Request) (responseBody : option GoValue)
         (r0 : http.Response) (callback : RequestCompletionCallback),
    Client.http c req = inr r0 ->
    Client.onRequestCompleted c = Some callback ->
    (exists after : list event,
        do_events (Do c req responseBody)
        = (if Client.debug c then [ev_Println_Request req] else []) ++ ev_Completed :: after
        /\ forallb (fun e => negb (isCompleted e)) after = true)
    /\ (exists r : http.Response,
           do_response (Do c req responseBody) = Some r
           /\ http.StatusCode r = http.StatusCode (callback req r0)
           /\ http.Status r = http.Status (callback req r0)
           /\ http.Header r = http.Header (callback req r0))
    /\ (do_error (Do c req responseBody) = None ->
        200 <= http.StatusCode (callback req r0) <= 299).
Proof.
  intros c req responseBody r0 callback Hhttp Hcb.
  rewrite (Do_checked c req responseBody r0 Hhttp). cbv zeta.
  rewrite (beforeCheck_callback c req r0 callback Hcb).
  pose proof (received_keeps_status c req r0) as Hkept.
  unfold completed in Hkept. rewrite Hcb in Hkept. destruct Hkept as (Hcode & Hstatus & Hheader).
  pose proof (CheckResponse_events_not isCompleted (received c req r0) eq_refl
                (fun _ => eq_refl)) as Hchecked.
  pose proof (CheckResponse_nil_2xx (received c req r0)) as Hnil.
  destruct (fst (CheckResponse (received c req r0))) as [er|] eqn:Hcheck.
  - destruct (CheckResponse_keeps_status _ er Hcheck) as (Hcode' & Hstatus' & Hheader').
    cbn [do_events do_response do_error]. split; [|split].
    + eexists. split; [rewrite <- !app_assoc; cbn [app]; reflexivity|].
      rewrite !forallb_app, Hchecked. destruct (Client.debug c); reflexivity.
    + exists (Response er). rewrite Hcode', Hstatus', Hheader'. auto.
    + discriminate.
  - rewrite Hcode in Hnil. specialize (Hnil eq_refl).
    destruct responseBody as [v|]; cbn [do_events do_response do_error]; (split; [|split]).
    + eexists. split; [rewrite <- !app_assoc; cbn [app]; reflexivity|].
      rewrite !forallb_app, Hchecked. destruct (Client.debug c); reflexivity.
    + exists (received c req r0). auto.
    + intros _. exact Hnil.
    + eexists. split; [rewrite <- !app_assoc; cbn [app]; reflexivity|].
      rewrite !forallb_app, Hchecked. destruct (Client.debug c); reflexivity.
    + exists (received c req r0). auto.
    + intros _. exact Hnil.
Qed.

Lemma Do_callback_once_markOK :
  (exists after : list event,
      do_events (Do markingClient exampleRequest (Some (customer "before")))
      = (if Client.debug markingClient then [ev_Println_Request exampleRequest] else [])
        ++ ev_Completed :: after
      /\ forallb (fun e => negb (isCompleted e)) after = true)
  /\ (exists r : http.Response,
         do_response (Do markingClient exampleRequest (Some (customer "before"))) = Some r
         /\ http.StatusCode r = http.StatusCode (markOK exampleRequest notFound)
         /\ http.Status r = http.Status (markOK exampleRequest notFound)
         /\ http.Header r = http.Header (markOK exampleRequest notFound))
  /\ (do_error (Do markingClient exampleRequest (Some (customer "before"))) = None ->
      200 <= http.StatusCode (markOK exampleRequest notFound) <= 299).
Proof.
  exact (Do_callback_once markingClient exampleRequest (Some (customer "before")) notFound
           markOK eq_refl eq_refl).
Defined.

(** The callback of this client turns the 404 into a success: [Do]
    returns no error and decodes the error object into the destination. *)
Example Do_markOK_computed :
  do_error (Do markingClient exampleRequest (Some (customer "before"))) = None
  /\ do_events (Do markingClient exampleRequest (Some (customer "before")))
     = [ev_Completed; ev_Decode; ev_Close FromExchange]
  /\ do_error (Do (clientAnswering notFound false) exampleRequest (Some (customer "before")))
     <> None.
Proof. vm_compute. repeat split; discriminate. Qed.

(** X10. For a response that [CheckResponse] refuses, [Do] returns the
    response together with the [ErrorResponse] of the check, and never
    decodes: the destination is left as it was, whatever the body holds. *)
Theorem Do_failure_leaves_destination :
  forall (c : Client.t) (req : http.Request) (responseBody : option GoValue)
         (r0 : http.Response),
    Client.http c req = inr r0 ->
    isFailure (completed c req r0) ->
    exists er : ErrorResponse,
      fst (CheckResponse (received c req r0)) = Some er
      /\ do_error (Do c req responseBody) = Some (ResponseError er)
      /\ do_response (Do c req responseBody) = Some (Response er)
      /\ http.StatusCode (Response er) = http.StatusCode (completed c req r0)
      /\ do_responseBody (Do c req responseBody) = responseBody
      /\ existsb isDecode (do_events (Do c req responseBody)) = false.
Proof.
  intros c req responseBody r0 Hhttp Hcode.
  rewrite (Do_checked c req responseBody r0 Hhttp). cbv zeta.
  destruct (received_keeps_status c req r0) as (Hkept & _ & _).
  assert (Hfail : isFailure (received c req r0)).
  { unfold isFailure in *. rewrite Hkept. exact Hcode. }
  destruct (CheckResponse_failure_Some _ (isFailure_test _ Hfail)) as [er Her].
  pose proof (CheckResponse_events_not isDecode (received c req r0) eq_refl
                (fun _ => eq_refl)) as Hchecked.
  rewrite Her. exists er. split; [reflexivity|].
  cbn [do_error do_response do_responseBody do_events].
  do 2 (split; [reflexivity|]).
  split; [rewrite <- Hkept; apply (CheckResponse_keeps_status _ er Her)|].
  split; [reflexivity|].
  apply existsb_forallb_negb. rewrite !forallb_app, Hchecked.
  unfold beforeCheck.
  destruct (Client.debug c); destruct (Client.onRequestCompleted c); reflexivity.
Qed.

Lemma Do_failure_leaves_destination_notFound :
  exists er : ErrorResponse,
    fst (CheckResponse (received (clientAnswering notFound true) exampleRequest notFound))
    = Some er
    /\ do_error (Do (clientAnswering notFound true) exampleRequest (Some (customer "before")))
       = Some (ResponseError er)
    /\ do_response (Do (clientAnswering notFound true) exampleRequest
                      (Some (customer "before")))
       = Some (Response er)
    /\ http.StatusCode (Response er)
       = http.StatusCode (completed (clientAnswering notFound true) exampleRequest notFound)
    /\ do_responseBody (Do (clientAnswering notFound true) exampleRequest
                          (Some (customer "before")))
       = Some (customer "before")
    /\ existsb isDecode
         (do_events (Do (clientAnswering notFound true) exampleRequest
                       (Some (customer "before")))) = false.
Proof.
  exact (Do_failure_leaves_destination (clientAnswering notFound true) exampleRequest
           (Some (customer "before")) notFound eq_refl (or_intror eq_refl)).
Defined.

(** X11. With a nil destination, [Do] returns a response in 200-299 as
    a success and decodes nothing: neither the check of the response nor
    a decoder reads the body, so that a body that is no JSON at all is no
    error. With debug mode off nothing reads the body at all, and the
    body the exchange gave is closed unread; in debug mode the dump of
    the response is the one thing that reads it. *)
Theorem Do_nil_destination :
  forall (c : Client.t) (req : http.Request) (r0 : http.Response),
    Client.http c req = inr r0 ->
    200 <= http.StatusCode (completed c req r0) <= 299 ->
    Do c req None
    = {| do_response := Some (received c req r0); do_error := None; do_responseBody := None;
         do_events := beforeCheck c req r0
                      ++ [ev_Close (if Client.debug c then FromDump else FromExchange)] |}
    /\ existsb readsForCheck (do_events (Do c req None)) = false
    /\ existsb isDecode (do_events (Do c req None)) = false
    /\ (Client.debug c = false -> existsb readsBody (do_events (Do c req None)) = false).
Proof.
  intros c req r0 Hhttp Hcode.
  destruct (received_keeps_status c req r0) as (Hkept & _ & _).
  assert (Hdo : Do c req None
                = {| do_response := Some (received c req r0); do_error := None;
                     do_responseBody := None;
                     do_events := beforeCheck c req r0
                                  ++ [ev_Close (if Client.debug c then FromDump
                                                else FromExchange)] |}).
  { rewrite (Do_checked c req None r0 Hhttp). cbv zeta.
    rewrite (heldAtReturn_kept c req r0 (or_introl Hcode)).
    rewrite (CheckResponse_success (received c req r0)) by (rewrite Hkept; exact Hcode).
    cbn [fst snd]. rewrite app_nil_r. reflexivity. }
  split; [exact Hdo|]. rewrite Hdo. cbn [do_events]. unfold beforeCheck.
  destruct (Client.debug c); destruct (Client.onRequestCompleted c); repeat split;
    intros; discriminate.
Qed.

Lemma Do_nil_destination_html :
  Do (clientAnswering (ok htmlBody) true) exampleRequest None
  = {| do_response := Some (ok htmlBody); do_error := None; do_responseBody := None;
       do_events := [ev_Close FromExchange] |}
  /\ existsb readsBody (do_events (Do (clientAnswering (ok htmlBody) true) exampleRequest None))
     = false.
Proof.
  assert (Hcode : 200 <= http.StatusCode
                           (completed (clientAnswering (ok htmlBody) true) exampleRequest
                              (ok htmlBody)) <= 299)
    by (vm_compute; split; discriminate).
  destruct (Do_nil_destination (clientAnswering (ok htmlBody) true) exampleRequest
              (ok htmlBody) eq_refl Hcode) as (Hdo & _ & _ & Hread).
  split; [exact Hdo | exact (Hread eq_refl)].
Defined.

(** ** What Do makes of the body of a success *)

Lemma scan_blank (data : list byte) :
  json.skip_space data = [] -> json.scan data = json.EndOfInput.
Proof. intros Hblank. unfold json.scan. cbn [json.scan_value]. rewrite Hblank. reflexivity. Qed.

(** X12. A body of white space only, in a response in 200-299, is no
    error for [Do], like an empty one: the decoder meets the end of the
    input before any value, and the destination is left as it was. *)
Theorem Do_blank_body :
  forall (c : Client.t) (req : http.Request) (r0 : http.Response) (v : GoValue),
    Client.http c req = inr r0 ->
    200 <= http.StatusCode (completed c req r0) <= 299 ->
    body_err (http.Body (completed c req r0)) = None ->
    json.skip_space (body_data (http.Body (completed c req r0))) = [] ->
    do_error (Do c req (Some v)) = None
    /\ do_responseBody (Do c req (Some v)) = Some v
    /\ do_response (Do c req (Some v)) = Some (completed c req r0).
Proof.
  intros c req r0 v Hhttp Hcode Herr Hblank.
  destruct (Do_success c req r0 v Hhttp Hcode Herr) as (Hresp & Hdest & Herror).
  unfold json.Decode in Hdest, Herror.
  rewrite (scan_blank _ Hblank), Herr, Hblank in Hdest, Herror.
  split; [exact Herror|]. split; [exact Hdest | exact Hresp].
Qed.

Lemma Do_blank_body_example :
  do_error (Do (clientAnswering (ok blankBody) true) exampleRequest (Some (customer "before")))
  = None
  /\ do_responseBody (Do (clientAnswering (ok blankBody) true) exampleRequest
                        (Some (customer "before")))
     = Some (customer "before")
  /\ do_response (Do (clientAnswering (ok blankBody) true) exampleRequest
                    (Some (customer "before")))
     = Some (completed (clientAnswering (ok blankBody) true) exampleRequest (ok blankBody)).
Proof.
  apply (Do_blank_body (clientAnswering (ok blankBody) true) exampleRequest (ok blankBody)).
  - reflexivity.
  - vm_compute. split; discriminate.
  - reflexivity.
  - reflexivity.
Defined.

(** X13. A body that ends inside its first JSON value, in a response in
    200-299, is an error for [Do], unlike the end of the input before any
    value: the [ErrorResponse] holds the response and one entry,
    [io.ErrUnexpectedEOF], and the destination is left as it was. *)
Theorem Do_truncated_body :
  forall (c : Client.t) (req : http.Request) (r0 : http.Response) (v : GoValue),
    Client.http c req = inr r0 ->
    200 <= http.StatusCode (completed c req r0) <= 299 ->
    body_err (http.Body (completed c req r0)) = None ->
    json.scan (body_data (http.Body (completed c req r0))) = json.EndOfInput ->
    json.skip_space (body_data (http.Body (completed c req r0))) <> [] ->
    do_error (Do c req (Some v))
    = Some (ResponseError {| Response := completed c req r0;
                             Errors := [io_ErrUnexpectedEOF] |})
    /\ do_responseBody (Do c req (Some v)) = Some v
    /\ ErrorResponse_Error {| Response := completed c req r0; Errors := [io_ErrUnexpectedEOF] |}
       = Returns "unexpected EOF"%string.
Proof.
  intros c req r0 v Hhttp Hcode Herr Hscan Hblank.
  destruct (Do_success c req r0 v Hhttp Hcode Herr) as (Hresp & Hdest & Herror).
  unfold json.Decode in Hdest, Herror. rewrite Hscan, Herr in Hdest, Herror.
  destruct (json.skip_space (body_data (http.Body (completed c req r0))));
    [contradiction|].
  split; [exact Herror|]. split; [exact Hdest | reflexivity].
Qed.

Lemma Do_truncated_body_example :
  do_error (Do (clientAnswering (ok truncatedBody) false) exampleRequest
              (Some (customer "before")))
  = Some (ResponseError
            {| Response := completed (clientAnswering (ok truncatedBody) false) exampleRequest
                             (ok truncatedBody);
               Errors := [io_ErrUnexpectedEOF] |})
  /\ do_responseBody (Do (clientAnswering (ok truncatedBody) false) exampleRequest
                        (Some (customer "before")))
     = Some (customer "before")
  /\ ErrorResponse_Error
       {| Response := completed (clientAnswering (ok truncatedBody) false) exampleRequest
                        (ok truncatedBody);
          Errors := [io_ErrUnexpectedEOF] |}
     = Returns "unexpected EOF"%string.
Proof.
  apply (Do_truncated_body (clientAnswering (ok truncatedBody) false) exampleRequest
           (ok truncatedBody)).
  - reflexivity.
  - vm_compute. split; discriminate.
  - reflexivity.
  - vm_compute. reflexivity.
  - vm_compute. discriminate.
Defined.

(** X14. A body that is no JSON, in a response in 200-299, is an error
    for [Do]: the [ErrorResponse] holds the response and one entry, the
    syntax error of the decoder for the first byte that cannot stand
    where it is, and the destination is left as it was. *)
Theorem Do_invalid_body :
  forall (c : Client.t) (req : http.Request) (r0 : http.Response) (v : GoValue)
         (b : byte) (context : string),
    Client.http c req = inr r0 ->
    200 <= http.StatusCode (completed c req r0) <= 299 ->
    body_err (http.Body (completed c req r0)) = None ->
    json.scan (body_data (http.Body (completed c req r0))) = json.Invalid b context ->
    do_error (Do c req (Some v))
    = Some (ResponseError {| Response := completed c req r0;
                             Errors := [json.syntaxError b context] |})
    /\ do_responseBody (Do c req (Some v)) = Some v.
Proof.
  intros c req r0 v b context Hhttp Hcode Herr Hscan.
  destruct (Do_success c req r0 v Hhttp Hcode Herr) as (Hresp & Hdest & Herror).
  unfold json.Decode in Hdest, Herror. rewrite Hscan in Hdest, Herror.
  split; [exact Herror | exact Hdest].
Qed.

Lemma Do_invalid_body_html :
  do_error (Do (clientAnswering (ok htmlBody) false) exampleRequest (Some (customer "before")))
  = Some (ResponseError
            {| Response := completed (clientAnswering (ok htmlBody) false) exampleRequest
                             (ok htmlBody);
               Errors := [json.syntaxError "<" "looking for beginning of value"] |})
  /\ do_responseBody (Do (clientAnswering (ok htmlBody) false) exampleRequest
                        (Some (customer "before")))
     = Some (customer "before").
Proof.
  apply (Do_invalid_body (clientAnswering (ok htmlBody) false) exampleRequest (ok htmlBody)).
  - reflexivity.
  - vm_compute. split; discriminate.
  - reflexivity.
  - vm_compute. reflexivity.
Defined.

Lemma unmarshal_not_EOF (strict : bool) (j : json.value) (v : GoValue) :
  snd (json.unmarshal strict j v) <> Some io_EOF.
Proof.
  unfold json.unmarshal. destruct (json.decode strict json.noContext j v) as [v' [e|]];
    cbn; [|discriminate].
  intros [= He]. exact (error_of_not_EOF e He).
Qed.

(** X15. [Do] decodes the first JSON value of the body and looks no
    further: for a response in 200-299 whose body begins with an object,
    the destination and the error are those of the object, whatever
    follows its closing brace in the body. *)
Theorem Do_first_value_only :
  forall (c : Client.t) (req : http.Request) (r0 : http.Response) (v : GoValue)
         (members : list (string * json.value)) (rest : list byte),
    Client.http c req = inr r0 ->
    200 <= http.StatusCode (completed c req r0) <= 299 ->
    body_err (http.Body (completed c req r0)) = None ->
    json.scan (body_data (http.Body (completed c req r0)))
    = json.Scanned (json.JObject members) rest ->
    let decoded := json.unmarshal (Client.disallowUnknownFields c) (json.JObject members) v in
    do_responseBody (Do c req (Some v)) = Some (fst decoded)
    /\ do_error (Do c req (Some v))
       = match snd decoded with
         | None => None
         | Some err => Some (ResponseError {| Response := completed c req r0;
                                              Errors := [err] |})
         end.
Proof.
  intros c req r0 v members rest Hhttp Hcode Herr Hscan decoded. subst decoded.
  destruct (Do_success c req r0 v Hhttp Hcode Herr) as (Hresp & Hdest & Herror).
  unfold json.Decode in Hdest, Herror. rewrite Hscan in Hdest, Herror.
  cbv iota in Hdest, Herror.
  split; [exact Hdest|]. rewrite Herror.
  pose proof (unmarshal_not_EOF (Client.disallowUnknownFields c) (json.JObject members) v)
    as Hnot.
  destruct (snd (json.unmarshal _ _ v)) as [[]|]; try reflexivity. contradiction.
Qed.

Lemma Do_first_value_only_trailed :
  do_responseBody (Do (clientAnswering (ok trailedBody) true) exampleRequest
                     (Some (customer "before")))
  = Some (customer "Ann")
  /\ do_error (Do (clientAnswering (ok trailedBody) true) exampleRequest
                 (Some (customer "before")))
     = None.
Proof.
  apply (Do_first_value_only (clientAnswering (ok trailedBody) true) exampleRequest
           (ok trailedBody) (customer "before") [("Name"%string, json.JString "Ann")]
           (bytes_of_string "</html>")).
  - reflexivity.
  - vm_compute. split; discriminate.
  - reflexivity.
  - vm_compute. reflexivity.
Defined.

(** X16. Debug mode changes what is logged and nothing else: when the
    body of the response is read without error, [Do] returns the same
    response, the same error and the same destination with the flag set
    and unset. *)
Theorem Do_debug_only_logs :
  forall (c : Client.t) (req : http.Request) (responseBody : option GoValue),
    (forall r0, Client.http c req = inr r0 ->
                body_err (http.Body (completed c req r0)) = None) ->
    do_response (Do (SetDebug c true) req responseBody)
    = do_response (Do (SetDebug c false) req responseBody)
    /\ do_error (Do (SetDebug c true) req responseBody)
       = do_error (Do (SetDebug c false) req responseBody)
    /\ do_responseBody (Do (SetDebug c true) req responseBody)
       = do_responseBody (Do (SetDebug c false) req responseBody).
Proof.
  intros c req responseBody Hread.
  destruct (Client.http c req) as [err|r0] eqn:Hhttp.
  - unfold Do. cbn [SetDebug Client.http Client.debug]. rewrite Hhttp. repeat split.
  - specialize (Hread r0 eq_refl).
    rewrite (Do_checked (SetDebug c true) req responseBody r0 Hhttp).
    rewrite (Do_checked (SetDebug c false) req responseBody r0 Hhttp).
    cbv zeta. unfold received. cbn [SetDebug Client.debug Client.disallowUnknownFields].
    change (completed (SetDebug c true) req r0) with (completed c req r0).
    change (completed (SetDebug c false) req r0) with (completed c req r0).
    rewrite (DumpResponse_read _ Hread).
    destruct (fst (CheckResponse (completed c req r0))); [repeat split|].
    destruct responseBody; repeat split.
Qed.

Lemma Do_debug_only_logs_notFound :
  do_response (Do (SetDebug (clientAnswering notFound true) true) exampleRequest
                 (Some (customer "before")))
  = do_response (Do (SetDebug (clientAnswering notFound true) false) exampleRequest
                   (Some (customer "before")))
  /\ do_error (Do (SetDebug (clientAnswering notFound true) true) exampleRequest
                 (Some (customer "before")))
     = do_error (Do (SetDebug (clientAnswering notFound true) false) exampleRequest
                   (Some (customer "before")))
  /\ do_responseBody (Do (SetDebug (clientAnswering notFound true) true) exampleRequest
                        (Some (customer "before")))
     = do_responseBody (Do (SetDebug (clientAnswering notFound true) false) exampleRequest
                          (Some (customer "before"))).
Proof.
  apply (Do_debug_only_logs (clientAnswering notFound true) exampleRequest
           (Some (customer "before"))).
  intros r0 Hr0. injection Hr0 as <-. reflexivity.
Defined.

(** ** The construction of a request *)

Lemma NewRequest_serialized {time_Time BodyValue : Type}
    (DateTime_String : DateTime time_Time -> string) (wall_clock : nat -> time_Time)
    (json_Encode : BodyValue -> error + list byte)
    (http_NewRequest : string -> url.URL -> list byte -> error + http.Request)
    (c : Client.t) (ctx : option context.Context) (method : string) (URL : url.URL)
    (body : option BodyValue) (clock : nat) :
  NewRequest DateTime_String wall_clock json_Encode http_NewRequest c ctx method URL body clock
  = match serialized json_Encode body with
    | inl err => (inl err, clock)
    | inr buf =>
        match http_NewRequest method URL buf with
        | inl err => (inl err, clock)
        | inr req0 =>
            let timestamp := {| Time := wall_clock clock |} in
            let values :=
              url.Add (url.Add (url.Add ∅ "ApiId" (APIID c)) "timestamp"
                         (DateTime_String timestamp)) "signature"
                (GenerateSignature DateTime_String c timestamp buf) in
            let req := fst (AddURLValuesToRequest values req0 true) in
            let req := match ctx with
                       | Some ctx => http.WithContext req ctx
                       | None => req
                       end in
            (inr (http.withHeader req
                    (http.Add (http.Add (http.Add (http.ReqHeader req) "Content-Type"
                                           "application/json; charset=utf-8")
                                 "Accept" "application/json")
                       "User-Agent" "go-merit-aktiva/0.0.1")),
             S clock)
        end
    end.
Proof.
  unfold NewRequest, serialized.
  destruct body as [b|]; [destruct (json_Encode b) as [err|written]; [reflexivity|]|];
    cbn [app]; destruct (http_NewRequest method URL _) as [err|req0]; try reflexivity;
    destruct ctx; reflexivity.
Qed.

(** X17. When the body cannot be serialized, or [http.NewRequest]
    refuses the request, [NewRequest] returns that error and has not read
    the clock: no timestamp is made and nothing is signed. *)
Theorem NewRequest_failure_reads_no_clock :
  forall (time_Time : Type) (DateTime_String : DateTime time_Time -> string)
         (wall_clock : nat -> time_Time) (BodyValue : Type)
         (json_Encode : BodyValue -> error + list byte)
         (http_NewRequest : string -> url.URL -> list byte -> error + http.Request)
         (c : Client.t) (ctx : option context.Context) (method : string) (URL : url.URL)
         (body : option BodyValue) (clock : nat) (err : error),
    (serialized json_Encode body = inl err
     \/ exists buf : list byte,
          serialized json_Encode body = inr buf /\ http_NewRequest method URL buf = inl err) ->
    NewRequest DateTime_String wall_clock json_Encode http_NewRequest c ctx method URL body clock
    = (inl err, clock).
Proof.
  intros time_Time DateTime_String wall_clock BodyValue json_Encode http_NewRequest
    c ctx method URL body clock err Hfail.
  rewrite NewRequest_serialized.
  destruct Hfail as [Hbody|(buf & Hbody & Hreq)]; rewrite Hbody; [reflexivity|].
  rewrite Hreq. reflexivity.
Qed.

Lemma NewRequest_failure_reads_no_clock_example :
  NewRequest printInstant tickingClock refusingEncode requestWithPage
    exampleClient None "POST" BaseURL (Some "{}"%string) 3%nat
  = (inl (errorString "json: unsupported type"), 3%nat)
  /\ NewRequest printInstant tickingClock encodeText refusingNewRequest
       exampleClient None "P OST" BaseURL (Some "{}"%string) 3%nat
     = (inl (errorString "net/http: invalid method"), 3%nat).
Proof.
  split.
  - apply (NewRequest_failure_reads_no_clock nat printInstant tickingClock string
             refusingEncode requestWithPage).
    left. reflexivity.
  - apply (NewRequest_failure_reads_no_clock nat printInstant tickingClock string
             encodeText refusingNewRequest).
    right. exists (bytes_of_string "{}"). split; reflexivity.
Defined.

Lemma http_Add_lookup (h : gmap string (list string)) (key value : string) :
  http.Add h key value !! key = Some (default [] (h !! key) ++ [value]).
Proof. unfold http.Add. apply lookup_insert_eq. Qed.

Lemma http_Add_lookup_ne (h : gmap string (list string)) (key key' value : string) :
  key <> key' -> http.Add h key value !! key' = h !! key'.
Proof. intros Hne. unfold http.Add. apply lookup_insert_ne. exact Hne. Qed.

(** X18. A request that [NewRequest] returns has the three headers
    added after those [http.NewRequest] gave it: [Content-Type] with
    [application/json; charset=utf-8], [Accept] with [application/json]
    and [User-Agent] with [go-merit-aktiva/0.0.1]; the values are added,
    not set, so that values already there stay in front, and no other
    header is touched. The context is the one given, when one is given. *)
Theorem NewRequest_headers :
  forall (time_Time : Type) (DateTime_String : DateTime time_Time -> string)
         (wall_clock : nat -> time_Time) (BodyValue : Type)
         (json_Encode : BodyValue -> error + list byte)
         (http_NewRequest : string -> url.URL -> list byte -> error + http.Request)
         (c : Client.t) (ctx : option context.Context) (method : string) (URL : url.URL)
         (body : option BodyValue) (clock : nat) (buf : list byte) (req0 : http.Request),
    serialized json_Encode body = inr buf ->
    http_NewRequest method URL buf = inr req0 ->
    exists req : http.Request,
      fst (NewRequest DateTime_String wall_clock json_Encode http_NewRequest
             c ctx method URL body clock) = inr req
      /\ http.ReqHeader req !! "Content-Type"%string
         = Some (default [] (http.ReqHeader req0 !! "Content-Type"%string)
                   ++ ["application/json; charset=utf-8"%string])
      /\ http.ReqHeader req !! "Accept"%string
         = Some (default [] (http.ReqHeader req0 !! "Accept"%string)
                   ++ ["application/json"%string])
      /\ http.ReqHeader req !! "User-Agent"%string
         = Some (default [] (http.ReqHeader req0 !! "User-Agent"%string)
                   ++ ["go-merit-aktiva/0.0.1"%string])
      /\ (forall key : string,
            key <> "Content-Type"%string -> key <> "Accept"%string ->
            key <> "User-Agent"%string ->
            http.ReqHeader req !! key = http.ReqHeader req0 !! key)
      /\ http.ReqContext req = match ctx with
                               | Some ctx => Some ctx
                               | None => http.ReqContext req0
                               end.
Proof.
  intros time_Time DateTime_String wall_clock BodyValue json_Encode http_NewRequest
    c ctx method URL body clock buf req0 Hbody Hreq.
  rewrite NewRequest_serialized, Hbody, Hreq. cbv zeta. cbn [fst].
  eexists. split; [reflexivity|].
  assert (Hheader : forall values,
             http.ReqHeader
               match ctx with
               | Some ctx' =>
                   http.WithContext (fst (AddURLValuesToRequest values req0 true)) ctx'
               | None => fst (AddURLValuesToRequest values req0 true)
               end = http.ReqHeader req0)
    by (intros values; destruct ctx; reflexivity).
  cbn [http.withHeader http.ReqHeader http.ReqContext]. rewrite Hheader.
  split; [|split; [|split; [|split]]].
  - rewrite !http_Add_lookup_ne by discriminate. apply http_Add_lookup.
  - rewrite http_Add_lookup_ne by discriminate. rewrite http_Add_lookup.
    rewrite http_Add_lookup_ne by discriminate. reflexivity.
  - rewrite http_Add_lookup. rewrite !http_Add_lookup_ne by discriminate. reflexivity.
  - intros key Hct Haccept Hagent.
    rewrite !http_Add_lookup_ne by (intros Heq; symmetry in Heq; contradiction).
    reflexivity.
  - destruct ctx; reflexivity.
Qed.

Lemma NewRequest_headers_ticking :
  exists req : http.Request,
    fst (NewRequest printInstant tickingClock encodeText requestWithPage
           reconfiguredClient (Some context.Background) "POST" BaseURL (Some "{}"%string) 3%nat)
    = inr req
    /\ http.ReqHeader req !! "Content-Type"%string
       = Some (default [] (http.ReqHeader pageRequest !! "Content-Type"%string)
                 ++ ["application/json; charset=utf-8"%string])
    /\ http.ReqHeader req !! "Accept"%string
       = Some (default [] (http.ReqHeader pageRequest !! "Accept"%string)
                 ++ ["application/json"%string])
    /\ http.ReqHeader req !! "User-Agent"%string
       = Some (default [] (http.ReqHeader pageRequest !! "User-Agent"%string)
                 ++ ["go-merit-aktiva/0.0.1"%string])
    /\ (forall key : string,
          key <> "Content-Type"%string -> key <> "Accept"%string ->
          key <> "User-Agent"%string ->
          http.ReqHeader req !! key = http.ReqHeader pageRequest !! key)
    /\ http.ReqContext req = Some context.Background.
Proof.
  exact (NewRequest_headers nat printInstant tickingClock string encodeText requestWithPage
           reconfiguredClient (Some context.Background) "POST" BaseURL (Some "{}"%string) 3%nat
           (bytes_of_string "{}") pageRequest eq_refl eq_refl).
Defined.

(** X19. [NewRequest] takes nothing from the client but the identifier
    and the key: two clients that agree on these build the same request,
    so that the media type, the character set, the user agent, the base
    URL and the debug flag given to the setters have no effect on it. *)
Theorem NewRequest_uses_credentials_only :
  forall (time_Time : Type) (DateTime_String : DateTime time_Time -> string)
         (wall_clock : nat -> time_Time) (BodyValue : Type)
         (json_Encode : BodyValue -> error + list byte)
         (http_NewRequest : string -> url.URL -> list byte -> error + http.Request)
         (c c' : Client.t) (ctx : option context.Context) (method : string) (URL : url.URL)
         (body : option BodyValue) (clock : nat),
    APIID c' = APIID c ->
    APIKey c' = APIKey c ->
    NewRequest DateTime_String wall_clock json_Encode http_NewRequest c' ctx method URL body clock
    = NewRequest DateTime_String wall_clock json_Encode http_NewRequest c ctx method URL body
        clock.
Proof.
  intros time_Time DateTime_String wall_clock BodyValue json_Encode http_NewRequest
    c c' ctx method URL body clock Hid Hkey.
  rewrite !NewRequest_serialized. unfold GenerateSignature. rewrite Hid, Hkey. reflexivity.
Qed.

Lemma NewRequest_uses_credentials_only_reconfigured :
  NewRequest printInstant tickingClock encodeText requestWithPage
    reconfiguredClient None "POST" BaseURL (Some "{}"%string) 3%nat
  = NewRequest printInstant tickingClock encodeText requestWithPage
      exampleClient None "POST" BaseURL (Some "{}"%string) 3%nat.
Proof.
  exact (NewRequest_uses_credentials_only nat printInstant tickingClock string encodeText
           requestWithPage exampleClient reconfiguredClient None "POST" BaseURL
           (Some "{}"%string) 3%nat eq_refl eq_refl).
Defined.

(** ** Endpoints *)

(** The URL for a template of literal text and placeholders. *)
Lemma GetEndpointURL_pieces (c : Client.t) (path : string) (pathParams : PathParams)
    (pieces : list piece) :
  url.Path (Client_BaseURL c) +:+ path = template_text pieces ->
  forallb wellFormedPiece pieces = true ->
  GetEndpointURL c path pathParams
  = Returned (url.withPath (Client_BaseURL c) (expansion (Params pathParams) pieces)).
Proof.
  intros Htext Hwf. unfold GetEndpointURL, template.Parse. cbn [url.withPath url.Path].
  rewrite Htext.
  destruct (lex_template_text pieces Hwf EmptyString) as (root & Hroot & Hexec).
  rewrite Hroot, Hexec. reflexivity.
Qed.

Lemma expansion_insert_unused (params : gmap string string) (key value : string)
    (pieces : list piece) :
  ~ In key (placeholders pieces) ->
  expansion (<[key := value]> params) pieces = expansion params pieces.
Proof.
  induction pieces as [|[text|name] pieces IH]; intros Hunused; [reflexivity| |];
    cbn [expansion placeholders] in *.
  - rewrite IH by exact Hunused. reflexivity.
  - rewrite lookup_insert_ne by (intros ->; apply Hunused; left; reflexivity).
    rewrite IH by (intros Hin; apply Hunused; right; exact Hin). reflexivity.
Qed.

Lemma expansion_without_placeholders (params : gmap string string) (pieces : list piece) :
  placeholders pieces = [] -> expansion params pieces = template_text pieces.
Proof.
  induction pieces as [|[text|name] pieces IH]; intros Hnone; [reflexivity| |discriminate Hnone].
  cbn [expansion template_text placeholders] in *. rewrite IH by exact Hnone. reflexivity.
Qed.

(** X20. A parameter that the template does not refer to has no effect
    on the URL, and a template without any placeholder is appended to the
    path of the base URL as it stands, whatever the parameters are. *)
Theorem GetEndpointURL_unused_parameter :
  forall (c : Client.t) (path : string) (params : gmap string string) (pieces : list piece)
         (key value : string),
    url.Path (Client_BaseURL c) +:+ path = template_text pieces ->
    forallb wellFormedPiece pieces = true ->
    ~ In key (placeholders pieces) ->
    GetEndpointURL c path {| Params := <[key := value]> params |}
    = GetEndpointURL c path {| Params := params |}
    /\ (placeholders pieces = [] ->
        GetEndpointURL c path {| Params := params |}
        = Returned (url.withPath (Client_BaseURL c) (url.Path (Client_BaseURL c) +:+ path))).
Proof.
  intros c path params pieces key value Htext Hwf Hunused.
  rewrite !(GetEndpointURL_pieces c path _ pieces Htext Hwf). cbn [Params].
  rewrite (expansion_insert_unused params key value pieces Hunused).
  split; [reflexivity|].
  intros Hnone. rewrite (expansion_without_placeholders params pieces Hnone), Htext.
  reflexivity.
Qed.

Lemma GetEndpointURL_unused_parameter_customer :
  GetEndpointURL exampleClient "customers" {| Params := <["id" := "42"]> ∅ |}
  = GetEndpointURL exampleClient "customers" {| Params := ∅ |}
  /\ GetEndpointURL exampleClient "customers" {| Params := ∅ |}
     = Returned (url.withPath (Client_BaseURL exampleClient)
                   (url.Path (Client_BaseURL exampleClient) +:+ "customers")).
Proof.
  destruct (GetEndpointURL_unused_parameter exampleClient "customers" ∅
              [Literal "/api/v1/customers"] "id" "42" eq_refl eq_refl (fun H => H))
    as [Hsame Hliteral].
  split; [exact Hsame | exact (Hliteral eq_refl)].
Defined.

Lemma lex_field_end (name : string) :
  forall acc : string,
    allAlphaNumeric name = true ->
    template.lex (template.lexField acc) name = template.ParseError "unclosed action".
Proof.
  induction name as [|c name IH]; intros acc Hname; [reflexivity|].
  cbn [allAlphaNumeric] in Hname. apply andb_prop in Hname as [Hc Hname].
  cbn [template.lex]. rewrite Hc. apply IH. exact Hname.
Qed.

Lemma lex_unclosed (t tail : string) :
  tail = "{{"%string \/ (exists name, isName name = true /\ tail = "{{." +:+ name) ->
  template.lex (template.lexText t) tail = template.ParseError "unclosed action".
Proof.
  intros [->|(name & Hname & ->)].
  - destruct t; reflexivity.
  - destruct name as [|c name]; [discriminate Hname|].
    cbn [isName] in Hname. apply andb_prop in Hname as [Hc Hname].
    assert (Halnum : template.isAlphaNumeric c = true)
      by (unfold template.isAlphaNumeric; rewrite Hc; reflexivity).
    change ("{{." +:+ String c name) with (String "{" (String "{" (String "." (String c name)))).
    cbn [template.lex].
    change (Ascii.eqb "{" "{") with true. change (template.isBlank ".") with false.
    change (Ascii.eqb "." ".") with true. cbv iota. rewrite Hc, Halnum.
    rewrite (lex_field_end name _ Hname). destruct t; reflexivity.
Qed.

Lemma lex_pieces_then_error (pieces : list piece) (tail msg : string) :
  forallb wellFormedPiece pieces = true ->
  (forall t, template.lex (template.lexText t) tail = template.ParseError msg) ->
  forall t, template.lex (template.lexText t) (template_text pieces +:+ tail)
            = template.ParseError msg.
Proof.
  intros Hwf Htail. induction pieces as [|[text|name] pieces IH]; intros t.
  - apply Htail.
  - cbn [forallb wellFormedPiece] in Hwf. apply andb_prop in Hwf as [Htext Hwf].
    cbn [template_text]. rewrite append_assoc, lex_literal by exact Htext. apply IH, Hwf.
  - cbn [forallb wellFormedPiece] in Hwf. apply andb_prop in Hwf as [Hname Hwf].
    cbn [template_text]. rewrite !append_assoc, lex_placeholder by exact Hname.
    rewrite (IH Hwf). destruct t; reflexivity.
Qed.

(** X21. A template that ends inside an action, after the left
    delimiter or after the name of a placeholder, does not give a URL:
    the parse error ends the process through [log.Fatal], whatever the
    parameters are. *)
Theorem GetEndpointURL_unclosed :
  forall (c : Client.t) (path : string) (pathParams : PathParams) (pieces : list piece)
         (tail : string),
    url.Path (Client_BaseURL c) +:+ path = template_text pieces +:+ tail ->
    forallb wellFormedPiece pieces = true ->
    tail = "{{"%string \/ (exists name, isName name = true /\ tail = "{{." +:+ name) ->
    exists err : error, GetEndpointURL c path pathParams = LogFatal err.
Proof.
  intros c path pathParams pieces tail Htext Hwf Htail.
  unfold GetEndpointURL, template.Parse. cbn [url.withPath url.Path]. rewrite Htext.
  rewrite (lex_pieces_then_error pieces tail "unclosed action" Hwf
             (fun t => lex_unclosed t tail Htail)).
  eexists. reflexivity.
Qed.

Lemma GetEndpointURL_unclosed_customer :
  exists err : error,
    GetEndpointURL exampleClient "customers/{{.id}}/orders/{{.order" customerParams
    = LogFatal err.
Proof.
  apply (GetEndpointURL_unclosed exampleClient "customers/{{.id}}/orders/{{.order"
           customerParams
           [Literal "/api/v1/customers/"; Placeholder "id"; Literal "/orders/"] "{{.order").
  - reflexivity.
  - reflexivity.
  - right. exists "order"%string. split; reflexivity.
Defined.

(** ** What the signature does not tell apart *)

(** X22. The signature is computed over identifier, timestamp and body
    put end to end with nothing between them: two requests under the same
    key whose three parts give the same bytes when put end to end have
    the same signature, though the parts differ. *)
Theorem GenerateSignature_no_separators :
  forall (time_Time : Type) (DateTime_String : DateTime time_Time -> string)
         (c c' : Client.t) (timestamp timestamp' : DateTime time_Time)
         (body body' : list byte),
    APIKey c' = APIKey c ->
    bytes_of_string (APIID c') ++ bytes_of_string (DateTime_String timestamp') ++ body'
    = bytes_of_string (APIID c) ++ bytes_of_string (DateTime_String timestamp) ++ body ->
    GenerateSignature DateTime_String c' timestamp' body'
    = GenerateSignature DateTime_String c timestamp body.
Proof.
  intros time_Time DateTime_String c c' timestamp timestamp' body body' Hkey Hdata.
  unfold GenerateSignature. cbn [app]. rewrite <- !app_assoc, Hkey, Hdata. reflexivity.
Qed.

Lemma GenerateSignature_no_separators_rfc4231 :
  GenerateSignature (fun d : DateTime string => Time d) recutClient
    {| Time := "ya want "%string |} (bytes_of_string "for nothing?")
  = GenerateSignature (fun d : DateTime string => Time d)
      (SetAPIID exampleClient "what do ya ") {| Time := "want for "%string |}
      (bytes_of_string "nothing?").
Proof.
  apply (GenerateSignature_no_separators string (fun d => Time d)
           (SetAPIID exampleClient "what do ya ") recutClient).
  - reflexivity.
  - reflexivity.
Defined.

Lemma bytes_of_string_length (s : string) : length (bytes_of_string s) = String.length s.
Proof.
  induction s as [|c s IH]; [reflexivity|].
  unfold bytes_of_string, list_byte_of_string in *. simpl. f_equal. exact IH.
Qed.

Lemma hmac_New_zero_padded (key : list byte) :
  (length key < 64)%nat ->
  hmac.New sha256_New (key ++ [x00]) = hmac.New sha256_New key.
Proof.
  intros Hlen.
  assert (Hpad : (key ++ [x00]) ++ repeat x00 (64 - length (key ++ [x00]))
                 = key ++ repeat x00 (64 - length key)).
  { rewrite length_app. cbn [length].
    replace (64 - length key)%nat with (S (64 - (length key + 1))) by lia.
    cbn [repeat]. rewrite <- app_assoc. reflexivity. }
  unfold hmac.New. cbn [hash_BlockSize sha256_New].
  change sha256.BlockSize with 64%nat.
  replace (64 <? length (key ++ [x00]))%nat with false
    by (symmetry; apply Nat.ltb_ge; rewrite length_app; cbn [length]; lia).
  replace (64 <? length key)%nat with false by (symmetry; apply Nat.ltb_ge; lia).
  cbv zeta iota. rewrite Hpad. reflexivity.
Qed.

Lemma hmac_New_long_key (key : list byte) :
  (64 < length key)%nat ->
  hmac.New sha256_New (sha256.Sum256 key) = hmac.New sha256_New key.
Proof.
  intros Hlen. unfold hmac.New. cbn [hash_BlockSize sha256_New].
  change sha256.BlockSize with 64%nat.
  replace (64 <? length key)%nat with true by (symmetry; apply Nat.ltb_lt; lia).
  rewrite Sum256_length. change (64 <? 32)%nat with false. cbv iota.
  unfold hash_Sum, hash_Write, hash_New. cbn [hash_alg hash_written hash_sum app].
  rewrite Sum256_length. reflexivity.
Qed.

(** X23. Different keys can sign alike. The key is brought to the block
    of 64 bytes of the hash before it is used: a key shorter than the
    block signs as the same key followed by a byte of value 0, and a key
    longer than the block signs as its SHA-256 digest taken as the key. *)
Theorem GenerateSignature_key_normalised :
  forall (time_Time : Type) (DateTime_String : DateTime time_Time -> string)
         (c : Client.t) (timestamp : DateTime time_Time) (body : list byte),
    ((String.length (APIKey c) < 64)%nat ->
     GenerateSignature DateTime_String (SetAPIKey c (APIKey c +:+ NUL)) timestamp body
     = GenerateSignature DateTime_String c timestamp body)
    /\ ((64 < String.length (APIKey c))%nat ->
        GenerateSignature DateTime_String
          (SetAPIKey c (string_of_bytes (sha256.Sum256 (bytes_of_string (APIKey c)))))
          timestamp body
        = GenerateSignature DateTime_String c timestamp body).
Proof.
  intros time_Time DateTime_String c timestamp body. split; intros Hlen.
  - unfold GenerateSignature. cbn [APIKey APIID SetAPIKey Client.apiKey Client.apiID].
    rewrite bytes_of_string_app. change (bytes_of_string NUL) with [x00].
    rewrite hmac_New_zero_padded by (rewrite bytes_of_string_length; exact Hlen).
    reflexivity.
  - unfold GenerateSignature. cbn [APIKey APIID SetAPIKey Client.apiKey Client.apiID].
    unfold bytes_of_string, string_of_bytes. rewrite list_byte_of_string_of_list_byte.
    rewrite hmac_New_long_key by (rewrite <- bytes_of_string_length in Hlen; exact Hlen).
    reflexivity.
Qed.

(** The key "Jefe" and the same key with a byte of value 0 after it give
    the signature of RFC 4231's second test case. *)
Example GenerateSignature_key_normalised_rfc4231 :
  GenerateSignature (fun d : DateTime string => Time d)
    (SetAPIKey (SetAPIID exampleClient "what do ya ") ("Jefe" +:+ NUL))
    {| Time := "want for "%string |} (bytes_of_string "nothing?")
  = "W9zBRr9gdU5qBCQmCJV1x1oAPwidJzmDnexYuWTsOEM="%string.
Proof. vm_compute. reflexivity. Qed.

Lemma GenerateSignature_key_normalised_Jefe :
  GenerateSignature (fun d : DateTime string => Time d)
    (SetAPIKey (SetAPIID exampleClient "what do ya ")
       (APIKey (SetAPIID exampleClient "what do ya ") +:+ NUL))
    {| Time := "want for "%string |} (bytes_of_string "nothing?")
  = GenerateSignature (fun d : DateTime string => Time d)
      (SetAPIID exampleClient "what do ya ") {| Time := "want for "%string |}
      (bytes_of_string "nothing?").
Proof.
  apply (proj1 (GenerateSignature_key_normalised string (fun d => Time d)
                  (SetAPIID exampleClient "what do ya ") {| Time := "want for "%string |}
                  (bytes_of_string "nothing?"))).
  cbn. lia.
Defined.

(** ** A new client *)

(** X24. [NewClient] does not keep the transport of the [http.Client]
    it is given. Whatever transport the caller has configured, the
    requests of the new client are sent through the NTLM negotiator over
    [http.DefaultTransport], under the other settings of the caller's
    client: two clients that differ in their transport only give the same
    new client. A nil client stands for [http.DefaultClient], which gets
    the same transport. The new client resolves a path without
    placeholders against [https://aktiva.merit.ee/api/v1/]. *)
Theorem NewClient_transport :
  forall (DefaultClient : http.Client) (DefaultTransport : http.RoundTripper)
         (Negotiator : http.RoundTripper -> http.RoundTripper) (apiID apiKey : string),
    NewClient DefaultClient DefaultTransport Negotiator None apiID apiKey
    = NewClient DefaultClient DefaultTransport Negotiator (Some DefaultClient) apiID apiKey
    /\ (forall httpClient : http.Client,
          http.Transport
            (Client.http
               (NewClient DefaultClient DefaultTransport Negotiator (Some httpClient)
                  apiID apiKey))
          = Negotiator DefaultTransport
          /\ (forall req : http.Request,
                Client.http
                  (NewClient DefaultClient DefaultTransport Negotiator (Some httpClient)
                     apiID apiKey) req
                = http.exchange httpClient (Negotiator DefaultTransport) req)
          /\ (forall rt : http.RoundTripper,
                NewClient DefaultClient DefaultTransport Negotiator
                  (Some (http.withTransport httpClient rt)) apiID apiKey
                = NewClient DefaultClient DefaultTransport Negotiator (Some httpClient)
                    apiID apiKey))
    /\ (forall (httpClient : option http.Client) (path : string) (pathParams : PathParams),
          braceFree path = true ->
          GetEndpointURL
            (NewClient DefaultClient DefaultTransport Negotiator httpClient apiID apiKey)
            path pathParams
          = Returned {| url.Scheme := "https"; url.Host := "aktiva.merit.ee";
                        url.Path := "/api/v1/" +:+ path |}).
Proof.
  intros DefaultClient DefaultTransport Negotiator apiID apiKey.
  split; [reflexivity|]. split.
  - intros httpClient. repeat split.
  - intros httpClient path pathParams Hfree.
    rewrite (GetEndpointURL_pieces _ path pathParams [Literal ("/api/v1/" +:+ path)]).
    + cbn [expansion]. rewrite append_nil_r. reflexivity.
    + cbn [template_text]. rewrite append_nil_r. reflexivity.
    + cbn [forallb wellFormedPiece]. rewrite andb_true_r.
      apply braceFree_append; [reflexivity | exact Hfree].
Qed.

(** A caller's transport that answers every request is not asked: the
    request goes to the default transport, which fails here. *)
Example NewClient_transport_unused :
  Client.http
    (NewClient (direct noTransport) noTransport plainNegotiator
       (Some (direct (answering noContent))) "id" "key") exampleRequest
  = inl (errorString "no transport").
Proof. reflexivity. Qed.

(** ** The bytes the scanner takes *)

(** Results of the parts of the string scanner *)
Lemma emit_Scanned {A} (l : list A) (r : json.scanned (list A)) (a : list A) (rest : list byte) :
  json.emit l r = json.Scanned a rest ->
  exists a0, r = json.Scanned a0 rest /\ a = l ++ a0.
Proof.
  destruct r; cbn; intros H; try discriminate H.
  injection H as <- <-. eexists. split; reflexivity.
Qed.

Lemma bad_hex_not_Scanned {A} (l : list byte) (a : A) (rest : list byte) :
  @json.bad_hex A l <> json.Scanned a rest.
Proof.
  induction l as [|c l IH]; cbn; [discriminate|].
  destruct (json.hexval c); [exact IH | discriminate].
Qed.

Lemma ends_quote_smap {A B} (f : A -> B) s (r : json.scanned A) :
  ends_quote s r -> ends_quote s (json.smap f r).
Proof. destruct r; cbn; auto. Qed.

Lemma ends_quote_cons {A} (c : byte) s (r : json.scanned A) :
  ends_quote s r -> ends_quote (c :: s) r.
Proof.
  destruct r; cbn; auto. intros (t & ->). exists (c :: t). reflexivity.
Qed.

Lemma ends_quote_bad_hex {A} s (l : list byte) : ends_quote s (@json.bad_hex A l).
Proof.
  induction l as [|c l IH]; cbn; [exact I|]. destruct (json.hexval c); [exact IH | exact I].
Qed.

Ltac split_ends :=
  repeat match goal with
         | |- ends_quote _ (match ?x with _ => _ end) => destruct x; cbv beta iota
         | |- ends_quote _ (if ?b then _ else _) => destruct b
         end.

Lemma byte_is_eq (c e : byte) : json.byte_is c e = true -> c = e.
Proof. unfold json.byte_is. apply Byte.byte_dec_bl. Qed.

(** The bytes a string takes end with its closing quote. *)
Lemma scan_string_ends_quote (n : nat) :
  forall (s : list byte) (pending : nat),
    (length s <= n)%nat -> ends_quote s (json.scan_string pending s).
Proof.
  induction n as [|n IH]; intros s pending Hlen; destruct s as [|c rest];
    try exact I; [simpl in Hlen; lia|].
  simpl in Hlen. cbn [json.scan_string].
  destruct pending as [|k].
  2:{ apply ends_quote_smap, ends_quote_cons, IH. lia. }
  destruct (json.byte_is c x22) eqn:Hquote.
  { apply byte_is_eq in Hquote as ->. exists []. reflexivity. }
  split_ends;
    first [ exact I
          | apply ends_quote_bad_hex
          | apply ends_quote_smap;
            repeat (first [ apply IH; simpl in *; lia
                          | apply ends_quote_cons ]);
            fail ].
Qed.

Lemma scan_string_quote (pending : nat) (s a rest : list byte) :
  json.scan_string pending s = json.Scanned a rest -> exists t, s = t ++ x22 :: rest.
Proof.
  intros H. pose proof (scan_string_ends_quote (length s) s pending (le_n _)) as Hq.
  rewrite H in Hq. exact Hq.
Qed.

Lemma scan_string_shorter (pending : nat) (s a rest : list byte) :
  json.scan_string pending s = json.Scanned a rest -> (length rest < length s)%nat.
Proof.
  intros H. pose proof (scan_string_within (length s) s pending (le_n _)) as Hw.
  rewrite H in Hw. exact Hw.
Qed.

(** What the scanner looks at after a lead byte of UTF-8 stops at a
    byte of ASCII. *)
Lemma between_ascii (lo hi : Z) (q : byte) :
  0x80 <= lo -> byte_to_Z q < 0x80 -> json.between lo hi q = false.
Proof. unfold json.between. intros Hlo Hq. apply andb_false_iff. left. lia. Qed.

Lemma utf8_continuation_ascii (c q : byte) (t r r' : list byte) :
  byte_to_Z q < 0x80 ->
  json.utf8_continuation c (t ++ q :: r) = json.utf8_continuation c (t ++ q :: r').
Proof.
  intros Hq. unfold json.utf8_continuation.
  destruct t as [|x1 [|x2 [|x3 t]]]; cbn [app];
    repeat match goal with
           | |- context [if ?b then _ else _] =>
               lazymatch b with
               | context [json.between] => fail
               | _ => destruct b
               end
           end;
    rewrite ?(between_ascii _ _ q) by (try lia; exact Hq);
    rewrite ?andb_false_r; try reflexivity;
    destruct r as [|? [|? ?]], r' as [|? [|? ?]]; cbn [andb];
    rewrite ?andb_false_r; reflexivity.
Qed.

(** A quote among the six bytes looked at after the first half of a
    surrogate pair: they are no second half. *)
Lemma surrogate_pair_quote (rr : Z) (b0 b1 c1 c2 c3 c4 : byte) :
  b0 = x22 \/ b1 = x22 \/ c1 = x22 \/ c2 = x22 \/ c3 = x22 \/ c4 = x22 ->
  json.surrogate_pair rr b0 b1 c1 c2 c3 c4 = None.
Proof.
  unfold json.surrogate_pair, json.getu4.
  intros [-> | [-> | [-> | [-> | [-> | ->]]]]].
  - reflexivity.
  - rewrite andb_false_r. reflexivity.
  - destruct (_ && _); reflexivity.
  - destruct (_ && _); [|reflexivity]. destruct (json.hexval c1); reflexivity.
  - destruct (_ && _); [|reflexivity].
    destruct (json.hexval c1); [|reflexivity]. destruct (json.hexval c2); reflexivity.
  - destruct (_ && _); [|reflexivity].
    destruct (json.hexval c1); [|reflexivity]. destruct (json.hexval c2); [|reflexivity].
    destruct (json.hexval c3); reflexivity.
Qed.

Lemma after_surrogate_quote (rr : Z) (t r : list byte) :
  (length t < 6)%nat ->
  after_surrogate rr (t ++ x22 :: r)
  = json.emit json.RuneError (json.scan_string 0 (t ++ x22 :: r)).
Proof.
  intros Hlen. unfold after_surrogate.
  destruct t as [|x0 [|x1 [|x2 [|x3 [|x4 [|x5 t]]]]]]; [..|simpl in Hlen; lia];
    cbn [app];
    repeat match goal with
           | |- match ?l with _ => _ end = _ =>
               is_var l; destruct l; cbv beta iota; try reflexivity
           end;
    rewrite surrogate_pair_quote by tauto; reflexivity.
Qed.

Lemma after_surrogate_Scanned (rr : Z) (u a rest : list byte) :
  after_surrogate rr u = json.Scanned a rest ->
  json.emit json.RuneError (json.scan_string 0 u) = json.Scanned a rest
  \/ exists six rest3 l,
       u = six ++ rest3 /\ length six = 6%nat
       /\ json.emit l (json.scan_string 0 rest3) = json.Scanned a rest.
Proof.
  unfold after_surrogate.
  destruct u as [|b0 [|b1 [|c1 [|c2 [|c3 [|c4 rest3]]]]]]; auto.
  destruct (json.surrogate_pair rr b0 b1 c1 c2 c3 c4); auto.
  intros H. right. exists [b0; b1; c1; c2; c3; c4], rest3. eexists.
  split; [reflexivity|]. split; [reflexivity | exact H].
Qed.

Ltac leaf H :=
  first
    [ discriminate H
    | exfalso; exact (bad_hex_not_Scanned _ _ _ H)
    | exfalso; apply emit_Scanned in H; destruct H as (? & H & _);
      apply scan_string_shorter in H; simpl in H; lia ].

Ltac split_hyp H :=
  repeat match type of H with
         | match ?x with _ => _ end = _ => destruct x; cbv beta iota in H
         | (if ?b then _ else _) = _ => destruct b
         end.

(** A string is scanned the same whatever follows its closing quote:
    what the scanner looks at beyond the bytes it takes, after a lead
    byte of UTF-8 and after the first half of a surrogate pair, does not
    reach past the quote. *)
Lemma scan_string_local (n : nat) :
  forall pre : list byte,
    (length pre <= n)%nat ->
    forall (pending : nat) (rest a rest' : list byte),
      json.scan_string pending (pre ++ rest) = json.Scanned a rest ->
      json.scan_string pending (pre ++ rest') = json.Scanned a rest'.
Proof.
  induction n as [|n IH]; intros pre Hlen pending rest a rest' H.
  { destruct pre; [|simpl in Hlen; lia]. cbn [app] in H.
    apply scan_string_shorter in H. lia. }
  destruct pre as [|c pre].
  { cbn [app] in H. apply scan_string_shorter in H. lia. }
  simpl in Hlen. cbn [app json.scan_string] in H |- *.
  assert (Hemit : forall l k t,
             (length t <= n)%nat ->
             json.emit l (json.scan_string k (t ++ rest)) = json.Scanned a rest ->
             json.emit l (json.scan_string k (t ++ rest')) = json.Scanned a rest').
  { intros l k t Ht He. apply emit_Scanned in He as (a0 & He & ->).
    rewrite (IH t Ht k rest a0 rest' He). reflexivity. }
  destruct pending as [|k]; [|apply Hemit; [lia | exact H]].
  destruct (json.byte_is c x22).
  { injection H as <- Hrest.
    assert (pre = []) as ->.
    { apply (f_equal (@length byte)) in Hrest. rewrite length_app in Hrest.
      destruct pre; [reflexivity | simpl in Hrest; lia]. }
    reflexivity. }
  destruct (json.byte_is c x5c).
  { destruct pre as [|e pre]; cbn [app] in H |- *; [split_hyp H; leaf H|].
    simpl in Hlen.
    destruct (json.escape e); [apply Hemit; [lia | exact H]|].
    destruct (json.byte_is e "u"); [|discriminate H].
    destruct pre as [|a1 pre]; cbn [app] in H |- *; [split_hyp H; leaf H|].
    destruct pre as [|a2 pre]; cbn [app] in H |- *; [split_hyp H; leaf H|].
    destruct pre as [|a3 pre]; cbn [app] in H |- *; [split_hyp H; leaf H|].
    destruct pre as [|a4 pre]; cbn [app] in H |- *; [split_hyp H; leaf H|].
    simpl in Hlen.
    destruct (json.getu4 a1 a2 a3 a4) as [rr|]; [|leaf H].
    destruct ((0xD800 <=? rr) && (rr <? 0xE000)); [|apply Hemit; [lia | exact H]].
    change (after_surrogate rr (pre ++ rest) = json.Scanned a rest) in H.
    change (after_surrogate rr (pre ++ rest') = json.Scanned a rest').
    destruct (Nat.lt_ge_cases (length pre) 6) as [Hshort|Hlong].
    - apply after_surrogate_Scanned in H as [H|(six & rest3 & l & Hu & Hsix & H)].
      + apply emit_Scanned in H as (a0 & H & ->).
        destruct (scan_string_quote _ _ _ _ H) as [t Ht].
        assert (pre = t ++ [x22]) as Hpre.
        { apply (app_inv_tail rest). rewrite <- app_assoc. exact Ht. }
        pose proof (IH pre ltac:(lia) 0%nat rest a0 rest' H) as Hgoal.
        rewrite Hpre, <- app_assoc in Hgoal |- *. cbn [app] in Hgoal |- *.
        rewrite after_surrogate_quote
          by (rewrite Hpre, length_app in Hshort; simpl in Hshort; lia).
        rewrite Hgoal. reflexivity.
      + exfalso. apply emit_Scanned in H as (a0 & H & _).
        apply scan_string_shorter in H.
        apply (f_equal (@length byte)) in Hu. rewrite !length_app in Hu. lia.
    - destruct pre as [|b0 [|b1 [|c1 [|c2 [|c3 [|c4 pre]]]]]];
        try (simpl in Hlong; lia).
      unfold after_surrogate in H |- *. cbn [app] in H |- *. simpl in Hlen.
      destruct (json.surrogate_pair rr b0 b1 c1 c2 c3 c4).
      + apply Hemit; [lia | exact H].
      + apply (Hemit _ _ (b0 :: b1 :: c1 :: c2 :: c3 :: c4 :: pre)); [simpl; lia | exact H]. }
  destruct (byte_to_Z c <? 0x20); [discriminate H|].
  destruct (byte_to_Z c <? 0x80); [apply Hemit; [lia | exact H]|].
  assert (Hquote : exists t, pre = t ++ [x22]).
  { destruct (json.utf8_continuation c (pre ++ rest));
      apply emit_Scanned in H as (a0 & H & _);
      destruct (scan_string_quote _ _ _ _ H) as [t Ht]; exists t;
      apply (app_inv_tail rest); rewrite <- app_assoc; exact Ht. }
  destruct Hquote as [t Hpre].
  assert (Hsame : json.utf8_continuation c (pre ++ rest')
                  = json.utf8_continuation c (pre ++ rest)).
  { rewrite Hpre, <- !app_assoc. cbn [app]. apply utf8_continuation_ascii. reflexivity. }
  rewrite Hsame.
  destruct (json.utf8_continuation c (pre ++ rest)); apply Hemit; first [lia | exact H].
Qed.

(** The input left may be replaced by another that follows it. *)
Lemma follows_nil (rest' : list byte) : follows [] rest' -> rest' = [].
Proof. intros [->|(c & r & r' & Heq & _)]; [reflexivity | discriminate Heq]. Qed.

Lemma follows_app (p rest rest' : list byte) :
  follows rest rest' -> follows (p ++ rest) (p ++ rest').
Proof.
  intros H. destruct p as [|x p]; [exact H|]. right.
  exists x, (p ++ rest), (p ++ rest'). split; reflexivity.
Qed.

Lemma follows_cons (c : byte) (r r' : list byte) : follows (c :: r) (c :: r').
Proof. right. exists c, r, r'. split; reflexivity. Qed.

Lemma follows_head (c : byte) (r rest' : list byte) (p : byte -> bool) :
  follows (c :: r) rest' -> p c = false ->
  match rest' with
  | [] => True
  | c' :: _ => p c' = false
  end.
Proof.
  intros [->|(c0 & r0 & r' & Heq & ->)] Hp; [exact I|]. injection Heq as <- <-. exact Hp.
Qed.

(** Digits and white space are skipped up to the same byte. *)
Lemma skip_digits_local (s : list byte) :
  exists pre, s = pre ++ json.skip_digits s
              /\ forall rest', follows (json.skip_digits s) rest' ->
                               json.skip_digits (pre ++ rest') = rest'.
Proof.
  induction s as [|c s (pre & Hs & Hloc)].
  - exists []. split; [reflexivity|]. intros rest' H. apply follows_nil in H as ->. reflexivity.
  - cbn [json.skip_digits]. destruct (json.isDigit c) eqn:Hc.
    + exists (c :: pre). split; [cbn [app]; f_equal; exact Hs|].
      intros rest' H. cbn [app json.skip_digits]. rewrite Hc. apply Hloc. exact H.
    + exists []. split; [reflexivity|]. intros rest' H. cbn [app].
      pose proof (follows_head c s rest' json.isDigit H Hc) as Hhead.
      destruct rest' as [|c' r']; [reflexivity|]. cbn [json.skip_digits]. rewrite Hhead.
      reflexivity.
Qed.

Lemma skip_space_local (s : list byte) :
  exists ws, s = ws ++ json.skip_space s
             /\ forall rest', follows (json.skip_space s) rest' ->
                              json.skip_space (ws ++ rest') = rest'.
Proof.
  induction s as [|c s (pre & Hs & Hloc)].
  - exists []. split; [reflexivity|]. intros rest' H. apply follows_nil in H as ->. reflexivity.
  - cbn [json.skip_space]. destruct (json.isSpace c) eqn:Hc.
    + exists (c :: pre). split; [cbn [app]; f_equal; exact Hs|].
      intros rest' H. cbn [app json.skip_space]. rewrite Hc. apply Hloc. exact H.
    + exists []. split; [reflexivity|]. intros rest' H. cbn [app].
      pose proof (follows_head c s rest' json.isSpace H Hc) as Hhead.
      destruct rest' as [|c' r']; [reflexivity|]. cbn [json.skip_space]. rewrite Hhead.
      reflexivity.
Qed.

(** The parts of a number, a literal and a string are local. *)
Lemma scan_exponent_local (s : list byte) : local json.scan_exponent s.
Proof.
  intros a rest H. unfold json.scan_exponent in H.
  destruct s as [|c s].
  { injection H as <- <-. exists []. split; [reflexivity|].
    intros rest' Hf. apply follows_nil in Hf as ->. reflexivity. }
  destruct (json.byte_is c "e" || json.byte_is c "E") eqn:He.
  2:{ injection H as <- <-. exists []. split; [reflexivity|]. intros rest' Hf. cbn [app].
      pose proof (follows_head c s rest'
                    (fun c => json.byte_is c "e" || json.byte_is c "E") Hf He) as Hhead.
      destruct rest' as [|c' r']; [reflexivity|]. unfold json.scan_exponent.
      cbv beta in Hhead. rewrite Hhead. reflexivity. }
  destruct s as [|sign s]; [discriminate H|].
  destruct (json.byte_is sign "+" || json.byte_is sign "-") eqn:Hsign.
  - destruct s as [|d s]; [discriminate H|]. destruct (json.isDigit d) eqn:Hd; [|discriminate H].
    injection H as <- <-. destruct (skip_digits_local s) as (pre & Hs & Hloc).
    exists (c :: sign :: d :: pre). split; [cbn [app]; do 3 f_equal; exact Hs|].
    intros rest' Hf. cbn [app]. unfold json.scan_exponent. rewrite He, Hsign, Hd.
    rewrite (Hloc rest' Hf). reflexivity.
  - destruct (json.isDigit sign) eqn:Hd; [|discriminate H].
    injection H as <- <-. destruct (skip_digits_local s) as (pre & Hs & Hloc).
    exists (c :: sign :: pre). split; [cbn [app]; do 2 f_equal; exact Hs|].
    intros rest' Hf. cbn [app]. unfold json.scan_exponent. rewrite He.
    destruct (pre ++ rest') eqn:Hpre; rewrite Hsign, Hd, <- ?Hpre, (Hloc rest' Hf);
      reflexivity.
Qed.

Lemma scan_fraction_local (s : list byte) : local json.scan_fraction s.
Proof.
  intros a rest H. unfold json.scan_fraction in H.
  destruct s as [|c s].
  { injection H as <- <-. exists []. split; [reflexivity|].
    intros rest' Hf. apply follows_nil in Hf as ->. reflexivity. }
  destruct (json.byte_is c ".") eqn:Hdot.
  - destruct s as [|d s]; [discriminate H|]. destruct (json.isDigit d) eqn:Hd; [|discriminate H].
    destruct (skip_digits_local s) as (p1 & Hs & Hloc1).
    destruct (scan_exponent_local _ a rest H) as (p2 & Hr & Hloc2).
    exists (c :: d :: p1 ++ p2). split.
    { cbn [app]. do 2 f_equal. rewrite <- app_assoc, <- Hr. exact Hs. }
    intros rest' Hf. cbn [app]. unfold json.scan_fraction. rewrite Hdot, Hd.
    rewrite <- app_assoc, Hloc1 by (rewrite Hr; apply follows_app; exact Hf).
    apply Hloc2. exact Hf.
  - destruct (scan_exponent_local _ a rest H) as (p2 & Hr & Hloc2).
    exists p2. split; [exact Hr|].
    intros rest' Hf. specialize (Hloc2 rest' Hf).
    destruct p2 as [|x p2]; cbn [app] in *.
    + subst rest. pose proof (follows_head c s rest' (fun c => json.byte_is c ".") Hf Hdot)
        as Hhead.
      unfold json.scan_fraction. destruct rest' as [|c' r']; [destruct a; reflexivity|].
      cbv beta in Hhead. rewrite Hhead. exact Hloc2.
    + injection Hr as <- _. unfold json.scan_fraction. rewrite Hdot. exact Hloc2.
Qed.

Lemma scan_number_local (s : list byte) : local json.scan_number s.
Proof.
  intros a rest H. unfold json.scan_number in H.
  assert (Hdigits : forall t : list byte,
             match t with
             | [] => json.EndOfInput
             | d :: rest0 =>
                 if json.byte_is d "0" then json.scan_fraction rest0
                 else if json.isDigit d then json.scan_fraction (json.skip_digits rest0)
                      else json.Invalid d "in numeric literal"
             end = json.Scanned a rest ->
             exists pre, t = pre ++ rest /\ pre <> []
               /\ forall rest', follows rest rest' ->
                    match pre ++ rest' with
                    | [] => json.EndOfInput
                    | d :: rest0 =>
                        if json.byte_is d "0" then json.scan_fraction rest0
                        else if json.isDigit d then json.scan_fraction (json.skip_digits rest0)
                             else json.Invalid d "in numeric literal"
                    end = json.Scanned a rest').
  { intros [|d t] Ht; [discriminate Ht|].
    destruct (json.byte_is d "0") eqn:Hzero.
    - destruct (scan_fraction_local _ a rest Ht) as (p & Hr & Hloc).
      exists (d :: p). split; [cbn [app]; f_equal; exact Hr|]. split; [discriminate|].
      intros rest' Hf. cbn [app]. rewrite Hzero. apply Hloc. exact Hf.
    - destruct (json.isDigit d) eqn:Hd; [|discriminate Ht].
      destruct (skip_digits_local t) as (p1 & Hs & Hloc1).
      destruct (scan_fraction_local _ a rest Ht) as (p2 & Hr & Hloc2).
      exists (d :: p1 ++ p2). split.
      { cbn [app]. f_equal. rewrite <- app_assoc, <- Hr. exact Hs. }
      split; [discriminate|].
      intros rest' Hf. cbn [app]. rewrite Hzero, Hd.
      rewrite <- app_assoc, Hloc1 by (rewrite Hr; apply follows_app; exact Hf).
      apply Hloc2. exact Hf. }
  destruct s as [|c s]; [discriminate H|].
  destruct (json.byte_is c "-") eqn:Hminus.
  - destruct (Hdigits s H) as (pre & Hs & _ & Hloc).
    exists (c :: pre). split; [cbn [app]; f_equal; exact Hs|].
    intros rest' Hf. cbn [app]. unfold json.scan_number. rewrite Hminus. apply Hloc. exact Hf.
  - destruct (Hdigits (c :: s) H) as (pre & Hs & Hne & Hloc).
    exists pre. split; [exact Hs|].
    intros rest' Hf. specialize (Hloc rest' Hf).
    destruct pre as [|x pre]; [contradiction|]. cbn [app] in *. injection Hs as <- _.
    unfold json.scan_number. rewrite Hminus. exact Hloc.
Qed.

Lemma scan_literal_local (name : string) (expect s : list byte) :
  local (json.scan_literal name expect) s.
Proof.
  revert s. induction expect as [|e expect IH]; intros s a rest H; cbn [json.scan_literal] in H.
  - injection H as <- <-. exists []. split; [reflexivity|]. intros rest' _. reflexivity.
  - destruct s as [|c s]; [discriminate H|].
    destruct (json.byte_is c e) eqn:Hc; [|discriminate H].
    destruct (IH s a rest H) as (pre & Hs & Hloc).
    exists (c :: pre). split; [cbn [app]; f_equal; exact Hs|].
    intros rest' Hf. cbn [app json.scan_literal]. rewrite Hc. apply Hloc. exact Hf.
Qed.

Lemma scan_string_local_follows (pending : nat) (s : list byte) :
  local (json.scan_string pending) s.
Proof.
  intros a rest H. destruct (scan_string_quote _ _ _ _ H) as [t Ht].
  exists (t ++ [x22]). split; [rewrite <- app_assoc; exact Ht|].
  intros rest' _. apply (scan_string_local (length (t ++ [x22])) _ (le_n _) pending rest).
  rewrite <- app_assoc. cbn [app]. rewrite <- Ht. exact H.
Qed.

Lemma local_smap {A B} (g : A -> B) (f : list byte -> json.scanned A) (s : list byte) :
  local f s -> local (fun s => json.smap g (f s)) s.
Proof.
  intros Hf b rest H. destruct (f s) as [a rest0| | |] eqn:Hfs; try discriminate H.
  cbn in H. injection H as <- <-.
  destruct (Hf a rest0 Hfs) as (pre & Hs & Hloc).
  exists pre. split; [exact Hs|]. intros rest' Hfol. rewrite (Hloc rest' Hfol). reflexivity.
Qed.

(** White space before a byte that is found *)
Lemma follows_mid (ws : list byte) (c : byte) (r x : list byte) :
  follows (ws ++ c :: r) (ws ++ c :: x).
Proof. apply follows_app, follows_cons. Qed.

Lemma skip_space_found (s : list byte) (c : byte) (r : list byte) :
  json.skip_space s = c :: r ->
  json.isSpace c = false
  /\ exists ws, s = ws ++ c :: r /\ forall x, json.skip_space (ws ++ c :: x) = c :: x.
Proof.
  intros Hsp. split.
  - revert Hsp. induction s as [|b s IH]; [discriminate|]. cbn [json.skip_space].
    destruct (json.isSpace b) eqn:Hb; [exact IH|]. intros [= -> _]. exact Hb.
  - destruct (skip_space_local s) as (ws & Hs & Hws). rewrite Hsp in Hs, Hws.
    exists ws. split; [exact Hs|]. intros x. apply Hws, follows_cons.
Qed.

Lemma skip_space_idem (s : list byte) : json.skip_space (json.skip_space s) = json.skip_space s.
Proof.
  induction s as [|c s IH]; [reflexivity|]. cbn [json.skip_space].
  destruct (json.isSpace c) eqn:Hc; [exact IH|]. cbn [json.skip_space]. rewrite Hc. reflexivity.
Qed.

Lemma scan_value_skip (fuel : nat) (depth : Z) (s : list byte) :
  json.scan_value fuel depth (json.skip_space s) = json.scan_value fuel depth s.
Proof. destruct fuel; [reflexivity|]. cbn [json.scan_value]. rewrite skip_space_idem. reflexivity. Qed.

Lemma scan_members_skip (fuel : nat) (depth : Z) (s : list byte) :
  json.scan_members fuel depth (json.skip_space s) = json.scan_members fuel depth s.
Proof. destruct fuel; [reflexivity|]. cbn [json.scan_members]. rewrite skip_space_idem. reflexivity. Qed.

(** A value, the members of an object and the elements of an array take
    at least one byte. *)
Lemma scan_value_shorter fuel depth s a rest :
  json.scan_value fuel depth s = json.Scanned a rest -> (length rest < length s)%nat.
Proof.
  intros H. pose proof (proj1 (scan_bounded fuel) depth s) as Hb. rewrite H in Hb. exact Hb.
Qed.

Lemma scan_members_shorter fuel depth s a rest :
  json.scan_members fuel depth s = json.Scanned a rest -> (length rest < length s)%nat.
Proof.
  intros H. pose proof (proj1 (proj2 (scan_bounded fuel)) depth s) as Hb.
  rewrite H in Hb. exact Hb.
Qed.

Lemma scan_elems_shorter fuel depth s a rest :
  json.scan_elems fuel depth s = json.Scanned a rest -> (length rest < length s)%nat.
Proof.
  intros H. pose proof (proj2 (proj2 (scan_bounded fuel)) depth s) as Hb.
  rewrite H in Hb. exact Hb.
Qed.

Lemma prefix_nonempty (p rest s : list byte) :
  s = p ++ rest -> (length rest < length s)%nat -> exists x p0, p = x :: p0.
Proof.
  intros -> Hlen. destruct p as [|x p0]; [simpl in Hlen; lia|]. exists x, p0. reflexivity.
Qed.

Lemma consumed_app (p rest : list byte) : json.consumed (p ++ rest) rest = string_of_bytes p.
Proof.
  unfold json.consumed. rewrite length_app.
  replace (length p + length rest - length rest)%nat with (length p) by lia.
  rewrite firstn_app, Nat.sub_diag, firstn_all. cbn [firstn]. rewrite app_nil_r. reflexivity.
Qed.

(** A function that skips white space first is local on every input
    when it is local on the inputs that begin with something else. *)
Lemma local_skip {A} (f : list byte -> json.scanned A) (s : list byte) :
  (forall s, f (json.skip_space s) = f s) ->
  (forall t a rest, f t = json.Scanned a rest -> (length rest < length t)%nat) ->
  local f (json.skip_space s) -> local f s.
Proof.
  intros Hskip Hshorter Hloc a rest H.
  rewrite <- Hskip in H. pose proof (Hshorter _ a rest H) as Hshort.
  destruct (Hloc a rest H) as (p & Hp & Hlocp).
  destruct (skip_space_local s) as (ws & Hs & Hws).
  exists (ws ++ p). split; [rewrite <- app_assoc, <- Hp; exact Hs|].
  intros rest' Hf. rewrite <- app_assoc, <- Hskip.
  rewrite Hws; [apply Hlocp; exact Hf|].
  rewrite Hp. destruct (prefix_nonempty p rest _ Hp Hshort) as (x & p0 & ->).
  apply follows_cons.
Qed.

Ltac norm_app := repeat first [rewrite <- app_assoc | progress cbn [app]].

Section LocalStep.

Variable fuel : nat.
Hypothesis IHvalue : forall (depth : Z) (s : list byte), local (json.scan_value fuel depth) s.
Hypothesis IHmembers : forall (depth : Z) (s : list byte),
    local (json.scan_members fuel depth) s.
Hypothesis IHelems : forall (depth : Z) (s : list byte), local (json.scan_elems fuel depth) s.

Lemma scan_value_local_step (depth : Z) (s : list byte) :
  local (json.scan_value (S fuel) depth) s.
Proof.
  apply local_skip;
    [intros t; apply scan_value_skip | intros t a rest; apply scan_value_shorter|].
  destruct (json.skip_space s) as [|c rest0] eqn:Hsp; [intros a rest H; discriminate H|].
  destruct (skip_space_found s c rest0 Hsp) as [Hc _]. clear Hsp s.
  intros a rest H. cbn [json.scan_value json.skip_space] in H. rewrite Hc in H.
  destruct (json.byte_is c "{") eqn:Hobj.
  { destruct (json.maxNestingDepth <? depth + 1) eqn:Hdepth; [discriminate H|].
    destruct (json.skip_space rest0) as [|c' rest1] eqn:Hsp; [discriminate H|].
    destruct (skip_space_found rest0 c' rest1 Hsp) as (Hc' & ws & -> & Hws).
    destruct (json.byte_is c' "}") eqn:Hclose.
    - injection H as <- <-. exists (c :: ws ++ [c']). split; [norm_app; reflexivity|].
      intros rest' Hf. norm_app. cbn [json.scan_value json.skip_space].
      rewrite Hc, Hobj, Hdepth, Hws, Hclose. reflexivity.
    - destruct (json.scan_members fuel (depth + 1) (c' :: rest1)) as [ms rest2| | |] eqn:Hm;
        try discriminate H.
      cbn in H. injection H as <- ->.
      destruct (IHmembers _ _ ms rest Hm) as (pm & Hpm & Hlocm).
      destruct (prefix_nonempty pm rest _ Hpm (scan_members_shorter _ _ _ _ _ Hm))
        as (x & pm0 & ->).
      cbn [app] in Hpm. injection Hpm as <- ->.
      exists (c :: ws ++ c' :: pm0). split; [norm_app; reflexivity|].
      intros rest' Hf. norm_app. cbn [json.scan_value json.skip_space].
      rewrite Hc, Hobj, Hdepth, Hws, Hclose.
      pose proof (Hlocm rest' Hf) as Hm'. cbn [app] in Hm'. rewrite Hm'. reflexivity. }
  destruct (json.byte_is c "[") eqn:Harr.
  { destruct (json.maxNestingDepth <? depth + 1) eqn:Hdepth; [discriminate H|].
    destruct (json.skip_space rest0) as [|c' rest1] eqn:Hsp; [discriminate H|].
    destruct (skip_space_found rest0 c' rest1 Hsp) as (Hc' & ws & -> & Hws).
    destruct (json.byte_is c' "]") eqn:Hclose.
    - injection H as <- <-. exists (c :: ws ++ [c']). split; [norm_app; reflexivity|].
      intros rest' Hf. norm_app. cbn [json.scan_value json.skip_space].
      rewrite Hc, Hobj, Harr, Hdepth, Hws, Hclose. reflexivity.
    - destruct (json.scan_elems fuel (depth + 1) (c' :: rest1)) as [es rest2| | |] eqn:He;
        try discriminate H.
      cbn in H. injection H as <- ->.
      destruct (IHelems _ _ es rest He) as (pe & Hpe & Hloce).
      destruct (prefix_nonempty pe rest _ Hpe (scan_elems_shorter _ _ _ _ _ He))
        as (x & pe0 & ->).
      cbn [app] in Hpe. injection Hpe as <- ->.
      exists (c :: ws ++ c' :: pe0). split; [norm_app; reflexivity|].
      intros rest' Hf. norm_app. cbn [json.scan_value json.skip_space].
      rewrite Hc, Hobj, Harr, Hdepth, Hws, Hclose.
      pose proof (Hloce rest' Hf) as He'. cbn [app] in He'. rewrite He'. reflexivity. }
  destruct (json.byte_is c x22) eqn:Hstr.
  { destruct (local_smap (fun b => json.JString (string_of_bytes b)) _ rest0
                (scan_string_local_follows 0 rest0) a rest H) as (p & -> & Hloc).
    exists (c :: p). split; [reflexivity|].
    intros rest' Hf. cbn [app json.scan_value json.skip_space].
    rewrite Hc, Hobj, Harr, Hstr. apply Hloc. exact Hf. }
  destruct (json.byte_is c "-" || json.isDigit c) eqn:Hnum.
  { destruct (json.scan_number (c :: rest0)) as [[] rest1| | |] eqn:Hn; try discriminate H.
    injection H as Ha Hr. subst a rest1.
    destruct (scan_number_local _ tt rest Hn) as (p & Hp & Hloc).
    pose proof (scan_number_within (c :: rest0)) as Hshort. rewrite Hn in Hshort.
    destruct (prefix_nonempty p rest _ Hp Hshort) as (x & p0 & ->).
    cbn [app] in Hp. injection Hp as <- ->.
    exists (c :: p0). split; [reflexivity|].
    intros rest' Hf. cbn [app json.scan_value json.skip_space].
    rewrite Hc, Hobj, Harr, Hstr, Hnum.
    pose proof (Hloc rest' Hf) as Hn'. cbn [app] in Hn'. rewrite Hn'.
    pose proof (consumed_app (c :: p0) rest) as Hc1.
    pose proof (consumed_app (c :: p0) rest') as Hc2. cbn [app] in Hc1, Hc2.
    rewrite Hc1, Hc2. reflexivity. }
  destruct (json.byte_is c "t") eqn:Htrue.
  { destruct (local_smap (fun _ => json.JBool true) _ rest0
                (scan_literal_local "true" _ rest0) a rest H) as (p & -> & Hloc).
    exists (c :: p). split; [reflexivity|].
    intros rest' Hf. cbn [app json.scan_value json.skip_space].
    rewrite Hc, Hobj, Harr, Hstr, Hnum, Htrue. apply Hloc. exact Hf. }
  destruct (json.byte_is c "f") eqn:Hfalse.
  { destruct (local_smap (fun _ => json.JBool false) _ rest0
                (scan_literal_local "false" _ rest0) a rest H) as (p & -> & Hloc).
    exists (c :: p). split; [reflexivity|].
    intros rest' Hf. cbn [app json.scan_value json.skip_space].
    rewrite Hc, Hobj, Harr, Hstr, Hnum, Htrue, Hfalse. apply Hloc. exact Hf. }
  destruct (json.byte_is c "n") eqn:Hnull; [|discriminate H].
  destruct (local_smap (fun _ => json.JNull) _ rest0
              (scan_literal_local "null" _ rest0) a rest H) as (p & -> & Hloc).
  exists (c :: p). split; [reflexivity|].
  intros rest' Hf. cbn [app json.scan_value json.skip_space].
  rewrite Hc, Hobj, Harr, Hstr, Hnum, Htrue, Hfalse, Hnull. apply Hloc. exact Hf.
Qed.

Lemma scan_members_local_step (depth : Z) (s : list byte) :
  local (json.scan_members (S fuel) depth) s.
Proof.
  apply local_skip;
    [intros t; apply scan_members_skip | intros t a rest; apply scan_members_shorter|].
  destruct (json.skip_space s) as [|c rest0] eqn:Hsp; [intros a rest H; discriminate H|].
  destruct (skip_space_found s c rest0 Hsp) as [Hc _]. clear Hsp s.
  intros a rest H. cbn [json.scan_members json.skip_space] in H. rewrite Hc in H.
  destruct (json.byte_is c x22) eqn:Hquote; [|discriminate H].
  destruct (json.scan_string 0 rest0) as [key rest1| | |] eqn:Hkey; try discriminate H.
  destruct (scan_string_local_follows 0 rest0 key rest1 Hkey) as (pk & -> & Hlock).
  destruct (json.skip_space rest1) as [|c1 rest2] eqn:Hsp1; [discriminate H|].
  destruct (skip_space_found rest1 c1 rest2 Hsp1) as (_ & ws1 & -> & Hws1).
  destruct (json.byte_is c1 ":") eqn:Hcolon; [|discriminate H].
  destruct (json.scan_value fuel depth rest2) as [v rest3| | |] eqn:Hval; try discriminate H.
  destruct (IHvalue depth rest2 v rest3 Hval) as (pv & -> & Hlocv).
  destruct (json.skip_space rest3) as [|c3 rest4] eqn:Hsp3; [discriminate H|].
  destruct (skip_space_found rest3 c3 rest4 Hsp3) as (_ & ws3 & -> & Hws3).
  destruct (json.byte_is c3 ",") eqn:Hcomma.
  - destruct (json.scan_members fuel depth rest4) as [ms rest5| | |] eqn:Hm;
      try discriminate H.
    cbn in H. injection H as Ha Hr. subst a rest5.
    destruct (IHmembers depth rest4 ms rest Hm) as (pm & -> & Hlocm).
    exists (c :: pk ++ ws1 ++ c1 :: pv ++ ws3 ++ c3 :: pm). split; [norm_app; reflexivity|].
    intros rest' Hf. norm_app. cbn [json.scan_members json.skip_space].
    rewrite Hc, Hquote, (Hlock _ (follows_mid ws1 c1 _ _)), Hws1, Hcolon.
    rewrite (Hlocv _ (follows_mid ws3 c3 _ _)), Hws3, Hcomma, (Hlocm rest' Hf). reflexivity.
  - destruct (json.byte_is c3 "}") eqn:Hclose; [|discriminate H].
    injection H as Ha Hr. subst a rest4.
    exists (c :: pk ++ ws1 ++ c1 :: pv ++ ws3 ++ [c3]). split; [norm_app; reflexivity|].
    intros rest' Hf. norm_app. cbn [json.scan_members json.skip_space].
    rewrite Hc, Hquote, (Hlock _ (follows_mid ws1 c1 _ _)), Hws1, Hcolon.
    rewrite (Hlocv _ (follows_mid ws3 c3 _ _)), Hws3, Hcomma, Hclose. reflexivity.
Qed.

Lemma scan_elems_local_step (depth : Z) (s : list byte) :
  local (json.scan_elems (S fuel) depth) s.
Proof.
  intros a rest H. cbn [json.scan_elems] in H.
  destruct (json.scan_value fuel depth s) as [v rest1| | |] eqn:Hval; try discriminate H.
  destruct (IHvalue depth s v rest1 Hval) as (pv & -> & Hlocv).
  destruct (json.skip_space rest1) as [|c rest2] eqn:Hsp; [discriminate H|].
  destruct (skip_space_found rest1 c rest2 Hsp) as (_ & ws & -> & Hws).
  destruct (json.byte_is c ",") eqn:Hcomma.
  - destruct (json.scan_elems fuel depth rest2) as [es rest3| | |] eqn:He; try discriminate H.
    cbn in H. injection H as Ha Hr. subst a rest3.
    destruct (IHelems depth rest2 es rest He) as (pe & -> & Hloce).
    exists (pv ++ ws ++ c :: pe). split; [norm_app; reflexivity|].
    intros rest' Hf. norm_app. cbn [json.scan_elems].
    rewrite (Hlocv _ (follows_mid ws c _ _)), Hws, Hcomma, (Hloce rest' Hf). reflexivity.
  - destruct (json.byte_is c "]") eqn:Hclose; [|discriminate H].
    injection H as Ha Hr. subst a rest2.
    exists (pv ++ ws ++ [c]). split; [norm_app; reflexivity|].
    intros rest' Hf. norm_app. cbn [json.scan_elems].
    rewrite (Hlocv _ (follows_mid ws c _ _)), Hws, Hcomma, Hclose. reflexivity.
Qed.

End LocalStep.

(** The scanner is local: its result for a value depends on the bytes of
    the value and on the first byte after them only. *)
Lemma scan_local (fuel : nat) :
  (forall depth s, local (json.scan_value fuel depth) s)
  /\ (forall depth s, local (json.scan_members fuel depth) s)
  /\ (forall depth s, local (json.scan_elems fuel depth) s).
Proof.
  induction fuel as [|fuel (IHvalue & IHmembers & IHelems)].
  - repeat split; intros depth s a rest H; discriminate H.
  - split; [|split]; intros depth s.
    + apply scan_value_local_step; assumption.
    + apply scan_members_local_step; assumption.
    + apply scan_elems_local_step; assumption.
Qed.

Lemma settled_smap {A B} (g : A -> B) (r r' : json.scanned A) :
  settled r r' -> settled (json.smap g r) (json.smap g r').
Proof.
  intros H Hne. rewrite H; [reflexivity|]. intros ->. apply Hne. reflexivity.
Qed.

Lemma settled_refl {A} (r : json.scanned A) : settled r r.
Proof. intros _. reflexivity. Qed.

Section MoreFuel.

Variables fuel fuel' : nat.
Hypothesis IHvalue : forall (depth : Z) (s : list byte),
    settled (json.scan_value fuel depth s) (json.scan_value fuel' depth s).
Hypothesis IHmembers : forall (depth : Z) (s : list byte),
    settled (json.scan_members fuel depth s) (json.scan_members fuel' depth s).
Hypothesis IHelems : forall (depth : Z) (s : list byte),
    settled (json.scan_elems fuel depth s) (json.scan_elems fuel' depth s).

Lemma scan_value_fuel_step (depth : Z) (s : list byte) :
  settled (json.scan_value (S fuel) depth s) (json.scan_value (S fuel') depth s).
Proof.
  cbn [json.scan_value].
  destruct (json.skip_space s) as [|c rest]; [apply settled_refl|].
  destruct (json.byte_is c "{").
  { destruct (json.maxNestingDepth <? depth + 1); [apply settled_refl|].
    destruct (json.skip_space rest) as [|c' rest']; [apply settled_refl|].
    destruct (json.byte_is c' "}"); [apply settled_refl|]. apply settled_smap, IHmembers. }
  destruct (json.byte_is c "[").
  { destruct (json.maxNestingDepth <? depth + 1); [apply settled_refl|].
    destruct (json.skip_space rest) as [|c' rest']; [apply settled_refl|].
    destruct (json.byte_is c' "]"); [apply settled_refl|]. apply settled_smap, IHelems. }
  apply settled_refl.
Qed.

Lemma scan_members_fuel_step (depth : Z) (s : list byte) :
  settled (json.scan_members (S fuel) depth s) (json.scan_members (S fuel') depth s).
Proof.
  cbn [json.scan_members].
  destruct (json.skip_space s) as [|c rest]; [apply settled_refl|].
  destruct (json.byte_is c x22); [|apply settled_refl].
  destruct (json.scan_string 0 rest) as [key rest1| | |]; try apply settled_refl.
  destruct (json.skip_space rest1) as [|c1 rest2]; [apply settled_refl|].
  destruct (json.byte_is c1 ":"); [|apply settled_refl].
  pose proof (IHvalue depth rest2) as Hvalue.
  destruct (json.scan_value fuel depth rest2) as [v rest3| | |];
    try (rewrite Hvalue by discriminate; apply settled_refl);
    [|intros Hne; contradiction Hne; reflexivity].
  rewrite Hvalue by discriminate.
  destruct (json.skip_space rest3) as [|c3 rest4]; [apply settled_refl|].
  destruct (json.byte_is c3 ","); [apply settled_smap, IHmembers | apply settled_refl].
Qed.

Lemma scan_elems_fuel_step (depth : Z) (s : list byte) :
  settled (json.scan_elems (S fuel) depth s) (json.scan_elems (S fuel') depth s).
Proof.
  cbn [json.scan_elems].
  pose proof (IHvalue depth s) as Hvalue.
  destruct (json.scan_value fuel depth s) as [v rest| | |];
    try (rewrite Hvalue by discriminate; apply settled_refl);
    [|intros Hne; contradiction Hne; reflexivity].
  rewrite Hvalue by discriminate.
  destruct (json.skip_space rest) as [|c rest']; [apply settled_refl|].
  destruct (json.byte_is c ","); [apply settled_smap, IHelems | apply settled_refl].
Qed.

End MoreFuel.

(** A result that is not [OutOfFuel] is the result for every larger
    bound. *)
Lemma scan_more_fuel (fuel : nat) :
  forall fuel' : nat,
    (fuel <= fuel')%nat ->
    (forall depth s, settled (json.scan_value fuel depth s) (json.scan_value fuel' depth s))
    /\ (forall depth s,
           settled (json.scan_members fuel depth s) (json.scan_members fuel' depth s))
    /\ (forall depth s, settled (json.scan_elems fuel depth s) (json.scan_elems fuel' depth s)).
Proof.
  induction fuel as [|fuel IH]; intros fuel' Hle.
  - repeat split; intros depth s Hne; contradiction Hne; reflexivity.
  - destruct fuel' as [|fuel']; [lia|].
    destruct (IH fuel' ltac:(lia)) as (IHvalue & IHmembers & IHelems).
    split; [|split]; intros depth s.
    + apply scan_value_fuel_step; assumption.
    + apply scan_members_fuel_step; assumption.
    + apply scan_elems_fuel_step; assumption.
Qed.

(** The bytes of the first value of the data are that value and nothing
    else. *)
Lemma scan_value_bytes (data : list byte) (j : json.value) (rest : list byte) :
  json.scan data = json.Scanned j rest ->
  json.scan (value_bytes data) = json.Scanned j []
  /\ json.skip_space (value_bytes data) = value_bytes data.
Proof.
  intros Hscan. pose proof Hscan as H. unfold json.scan in H.
  rewrite <- scan_value_skip in H.
  pose proof (scan_value_shorter _ _ _ _ _ H) as Hshort.
  destruct (proj1 (scan_local _) 0 _ j rest H) as (p & Hp & Hloc).
  assert (Hbytes : value_bytes data = p).
  { unfold value_bytes. rewrite Hscan, Hp, length_app.
    replace (length p + length rest - length rest)%nat with (length p) by lia.
    rewrite firstn_app, Nat.sub_diag, firstn_all. cbn [firstn]. apply app_nil_r. }
  rewrite Hbytes.
  destruct (prefix_nonempty p rest _ Hp Hshort) as (c & p0 & ->).
  assert (Hc : json.isSpace c = false).
  { destruct (json.skip_space data) as [|c' r] eqn:Hsp; [discriminate Hp|].
    cbn [app] in Hp. injection Hp as Hcc _. rewrite Hcc in Hsp.
    apply (skip_space_found data c r Hsp). }
  split.
  - specialize (Hloc [] (or_introl eq_refl)). rewrite app_nil_r in Hloc.
    pose proof (scan_fuel (c :: p0)) as Hfuel. unfold json.scan in Hfuel |- *.
    assert (Hle : (S (2 * length (c :: p0)) <= S (2 * length data))%nat).
    { pose proof (skip_space_length data) as Hlen. rewrite Hp, length_app in Hlen. lia. }
    rewrite <- (proj1 (scan_more_fuel _ _ Hle) 0 (c :: p0)); [exact Hloc|].
    intros Hout. rewrite Hout in Hfuel. exact Hfuel.
  - cbn [json.skip_space]. rewrite Hc. reflexivity.
Qed.

(** [json.Unmarshal] on the bytes of the first value of valid data stores
    that value. *)
Lemma Unmarshal_value_bytes (data : list byte) (j : json.value) (rest : list byte)
    (v : GoValue) :
  json.scan data = json.Scanned j rest ->
  json.Unmarshal (value_bytes data) v = json.unmarshal false j v.
Proof.
  intros Hscan. destruct (scan_value_bytes data j rest Hscan) as [Hvalue _].
  unfold json.Unmarshal, json.checkValid. rewrite Hvalue. reflexivity.
Qed.

(** The check of a response whose body is one JSON value between white
    space: the entry is that of the value. *)
Lemma CheckResponse_entry (r : http.Response) (j : json.value) (rest : list byte) :
  isFailure r ->
  contentTypeOf r = mediaType ->
  body_err (http.Body r) = None ->
  json.scan (body_data (http.Body r)) = json.Scanned j rest ->
  json.skip_space rest = [] ->
  CheckResponse r
  = (Some {| Response := http.withBody r (NopCloser (body_data (http.Body r)));
             Errors := [entry_of j] |},
     [ev_ReadAll; ev_Unmarshal (body_data (http.Body r))]).
Proof.
  intros Hcode Hct Herr Hscan Hrest. unfold CheckResponse.
  rewrite (isFailure_test r Hcode), (proj2 (checkContentType_None r) Hct).
  unfold ReadAll. rewrite Herr.
  destruct (body_data (http.Body r)) as [|b data] eqn:Hbody; [discriminate Hscan|].
  cbn [length Nat.eqb]. unfold json_Unmarshal_ErrorResponse, UnmarshalJSON, json.checkValid.
  rewrite Hscan, Hrest, (Unmarshal_value_bytes _ j rest _ Hscan).
  unfold entry_of, noError.
  destruct (json.unmarshal false j _) as [e [err|]]; reflexivity.
Qed.

(** ** The entry for a body that is JSON *)

Lemma entry_of_known (members : list (string * json.value)) :
  entry_of (json.JObject members)
  = entry_of (json.JObject (knownMembers errorFields members)).
Proof.
  unfold entry_of, json.unmarshal, Error_fields, noError. cbn [json.decode Message MessageDetail].
  fold errorFields.
  rewrite (object_lenient_known (json.decode false) "aktiva.Error" json.noContext members
             errorFields errorFields None eq_refl).
  reflexivity.
Qed.

Lemma knownMembers_none (fields : list (string * GoValue))
    (members : list (string * json.value)) :
  forallb (fun kv => isASCII (fst kv) && unknownTo fields (fst kv)) members = true ->
  knownMembers fields members = [].
Proof.
  induction members as [|kv members IH]; [reflexivity|]. cbn [forallb].
  intros H. apply andb_prop in H as [Hkv Hrest]. apply andb_prop in Hkv as [_ Hunknown].
  unfold knownMembers in *. cbn [List.filter]. rewrite Hunknown. cbn [negb]. apply IH, Hrest.
Qed.

(** X25. For a response outside 200-299 of the expected content type
    whose body is a JSON object, with or without white space around it,
    the members that the [Error] type has no field for change nothing:
    the one entry of the [ErrorResponse] is what the object without these
    members gives. *)
Theorem CheckResponse_unknown_members_ignored :
  forall (r : http.Response) (members : list (string * json.value)) (rest : list byte),
    isFailure r ->
    contentTypeOf r = mediaType ->
    body_err (http.Body r) = None ->
    json.scan (body_data (http.Body r)) = json.Scanned (json.JObject members) rest ->
    json.skip_space rest = [] ->
    forallb (fun kv => isASCII (fst kv)) members = true ->
    exists er : ErrorResponse,
      fst (CheckResponse r) = Some er
      /\ Errors er = [entry_of (json.JObject (knownMembers errorFields members))].
Proof.
  intros r members rest Hcode Hct Herr Hscan Hrest _.
  rewrite (CheckResponse_entry r _ rest Hcode Hct Herr Hscan Hrest).
  eexists. split; [reflexivity|]. cbn [Errors]. rewrite entry_of_known. reflexivity.
Qed.

Lemma CheckResponse_unknown_members_ignored_padded :
  exists er : ErrorResponse,
    fst (CheckResponse (response 404 "404 Not Found" jsonHeader paddedErrorBody)) = Some er
    /\ Errors er
       = [entry_of (json.JObject
                      (knownMembers errorFields
                         [("code"%string, json.JNumber "404");
                          ("message"%string, json.JString "Not found");
                          ("MessageDetail"%string, json.JString "no such id")]))].
Proof.
  apply (CheckResponse_unknown_members_ignored
           (response 404 "404 Not Found" jsonHeader paddedErrorBody) _ [x20; x0a]).
  - right. reflexivity.
  - reflexivity.
  - reflexivity.
  - vm_compute. reflexivity.
  - reflexivity.
  - reflexivity.
Defined.

(** The entry of this body is the error of the example, as for the body
    without white space and without the member [code]. *)
Example CheckResponse_padded_computed :
  entry_of (json.JObject
              (knownMembers errorFields
                 [("code"%string, json.JNumber "404");
                  ("message"%string, json.JString "Not found");
                  ("MessageDetail"%string, json.JString "no such id")]))
  = ErrorValue {| Message := "Not found"; MessageDetail := "no such id" |}.
Proof. vm_compute. reflexivity. Qed.

(** X26. A body that is JSON and has neither of the two members, an
    object with other members only or [null], gives an [ErrorResponse]
    with one entry, an [Error] with two empty strings: the message of the
    [ErrorResponse] is a colon and a space, and what the body said is
    lost. *)
Theorem CheckResponse_without_error_members :
  forall (r : http.Response) (j : json.value) (rest : list byte),
    isFailure r ->
    contentTypeOf r = mediaType ->
    body_err (http.Body r) = None ->
    json.scan (body_data (http.Body r)) = json.Scanned j rest ->
    json.skip_space rest = [] ->
    j = json.JNull
    \/ (exists members,
           j = json.JObject members
           /\ forallb (fun kv => isASCII (fst kv) && unknownTo errorFields (fst kv)) members
              = true) ->
    exists er : ErrorResponse,
      fst (CheckResponse r) = Some er
      /\ Errors er = [ErrorValue {| Message := EmptyString; MessageDetail := EmptyString |}]
      /\ ErrorResponse_Error er = Returns ": "%string.
Proof.
  intros r j rest Hcode Hct Herr Hscan Hrest Hshape.
  rewrite (CheckResponse_entry r _ rest Hcode Hct Herr Hscan Hrest).
  eexists. split; [reflexivity|]. cbn [Errors].
  assert (Hentry : entry_of j
                   = ErrorValue {| Message := EmptyString; MessageDetail := EmptyString |}).
  { destruct Hshape as [->|(members & -> & Hunknown)]; [reflexivity|].
    rewrite entry_of_known, (knownMembers_none _ _ Hunknown). reflexivity. }
  rewrite Hentry. split; reflexivity.
Qed.

Lemma CheckResponse_without_error_members_other :
  exists er : ErrorResponse,
    fst (CheckResponse (response 401 "401 Unauthorized" jsonHeader otherErrorBody)) = Some er
    /\ Errors er = [ErrorValue {| Message := EmptyString; MessageDetail := EmptyString |}]
    /\ ErrorResponse_Error er = Returns ": "%string.
Proof.
  apply (CheckResponse_without_error_members
           (response 401 "401 Unauthorized" jsonHeader otherErrorBody)
           (json.JObject [("error"%string, json.JString "invalid token")]) []).
  - right. reflexivity.
  - reflexivity.
  - reflexivity.
  - vm_compute. reflexivity.
  - reflexivity.
  - right. eexists. split; reflexivity.
Defined.

(** X27. A body that is JSON and is an array, a string, a number or a
    boolean gives an [ErrorResponse] with one entry, the error of the
    decoder for a value of that kind where an [Error] is expected, and
    the message of the [ErrorResponse] is that of this error. *)
Theorem CheckResponse_not_an_object :
  forall (r : http.Response) (j : json.value) (rest : list byte) (kind : string),
    isFailure r ->
    contentTypeOf r = mediaType ->
    body_err (http.Body r) = None ->
    json.scan (body_data (http.Body r)) = json.Scanned j rest ->
    json.skip_space rest = [] ->
    kind_of j = Some kind ->
    exists er : ErrorResponse,
      fst (CheckResponse r) = Some er
      /\ Errors er = [json_UnmarshalTypeError kind "aktiva.Error" EmptyString EmptyString]
      /\ ErrorResponse_Error er
         = Returns ("json: cannot unmarshal " +:+ kind +:+ " into Go value of type aktiva.Error").
Proof.
  intros r j rest kind Hcode Hct Herr Hscan Hrest Hkind.
  rewrite (CheckResponse_entry r _ rest Hcode Hct Herr Hscan Hrest).
  eexists. split; [reflexivity|]. cbn [Errors].
  assert (Hentry : entry_of j
                   = json_UnmarshalTypeError kind "aktiva.Error" EmptyString EmptyString).
  { destruct j; try discriminate Hkind; injection Hkind as <-; reflexivity. }
  rewrite Hentry. split; reflexivity.
Qed.

Lemma CheckResponse_not_an_object_array :
  exists er : ErrorResponse,
    fst (CheckResponse (response 400 "400 Bad Request" jsonHeader arrayErrorBody)) = Some er
    /\ Errors er = [json_UnmarshalTypeError "array" "aktiva.Error" EmptyString EmptyString]
    /\ ErrorResponse_Error er
       = Returns ("json: cannot unmarshal " +:+ "array"
                    +:+ " into Go value of type aktiva.Error").
Proof.
  apply (CheckResponse_not_an_object
           (response 400 "400 Bad Request" jsonHeader arrayErrorBody)
           (json.JArray [json.JString "a"; json.JString "b"]) [] "array").
  - right. reflexivity.
  - reflexivity.
  - reflexivity.
  - vm_compute. reflexivity.
  - reflexivity.
  - reflexivity.
Defined.

(** The field that a key selects when it equals a name up to case *)
Lemma find_field_message (key : string) (v1 v2 : GoValue) :
  json.foldName key = "message"%string ->
  json.find_field key [("message"%string, v1); ("MessageDetail"%string, v2)] = Some 0%nat.
Proof.
  intros Hkey. unfold json.find_field. cbn [json.index_where fst].
  destruct (String.eqb_spec "message" key) as [Heq|Hne]; [reflexivity|].
  destruct (String.eqb_spec "MessageDetail" key) as [Heq|Hne'].
  { subst key. vm_compute in Hkey. discriminate Hkey. }
  cbn. rewrite Hkey. reflexivity.
Qed.

Lemma find_field_detail (key : string) (v1 v2 : GoValue) :
  json.foldName key = "messagedetail"%string ->
  json.find_field key [("message"%string, v1); ("MessageDetail"%string, v2)] = Some 1%nat.
Proof.
  intros Hkey. unfold json.find_field. cbn [json.index_where fst].
  destruct (String.eqb_spec "message" key) as [Heq|Hne].
  { subst key. vm_compute in Hkey. discriminate Hkey. }
  destruct (String.eqb_spec "MessageDetail" key) as [Heq|Hne']; [reflexivity|].
  cbn. rewrite Hkey. reflexivity.
Qed.

Lemma entry_of_folded (k1 k2 m d : string) :
  json.foldName k1 = "message"%string ->
  json.foldName k2 = "messagedetail"%string ->
  entry_of (json.JObject [(k1, json.JString m); (k2, json.JString d)])
  = ErrorValue {| Message := m; MessageDetail := d |}
  /\ entry_of (json.JObject [(k2, json.JString d); (k1, json.JString m)])
     = ErrorValue {| Message := m; MessageDetail := d |}.
Proof.
  intros Hk1 Hk2. unfold entry_of, json.unmarshal, Error_fields, noError.
  cbn [json.decode json.object Message MessageDetail].
  split.
  - rewrite (find_field_message k1 _ _ Hk1). cbn.
    rewrite (find_field_detail k2 _ _ Hk2). reflexivity.
  - rewrite (find_field_detail k2 _ _ Hk2). cbn.
    rewrite (find_field_message k1 _ _ Hk1). reflexivity.
Qed.

(** X28. The two members of the error object are found whatever the
    case of the letters of their keys and in either order: a body whose
    object has a key equal to [message] and a key equal to
    [MessageDetail], up to the case of ASCII letters, with strings for
    values, gives the [Error] of the two strings. *)
Theorem CheckResponse_keys_any_case :
  forall (r : http.Response) (k1 k2 m d : string) (members : list (string * json.value))
         (rest : list byte),
    isFailure r ->
    contentTypeOf r = mediaType ->
    body_err (http.Body r) = None ->
    json.scan (body_data (http.Body r)) = json.Scanned (json.JObject members) rest ->
    json.skip_space rest = [] ->
    json.foldName k1 = "message"%string ->
    json.foldName k2 = "messagedetail"%string ->
    members = [(k1, json.JString m); (k2, json.JString d)]
    \/ members = [(k2, json.JString d); (k1, json.JString m)] ->
    exists er : ErrorResponse,
      fst (CheckResponse r) = Some er
      /\ Errors er = [ErrorValue {| Message := m; MessageDetail := d |}]
      /\ ErrorResponse_Error er = Returns (m +:+ ": " +:+ d).
Proof.
  intros r k1 k2 m d members rest Hcode Hct Herr Hscan Hrest Hk1 Hk2 Hmembers.
  rewrite (CheckResponse_entry r _ rest Hcode Hct Herr Hscan Hrest).
  eexists. split; [reflexivity|]. cbn [Errors].
  destruct (entry_of_folded k1 k2 m d Hk1 Hk2) as [Hfirst Hsecond].
  destruct Hmembers as [->| ->]; rewrite ?Hfirst, ?Hsecond; split; reflexivity.
Qed.

Lemma CheckResponse_keys_any_case_example :
  exists er : ErrorResponse,
    fst (CheckResponse (response 404 "404 Not Found" jsonHeader otherCaseErrorBody)) = Some er
    /\ Errors er = [ErrorValue {| Message := "Not found"; MessageDetail := "no such id" |}]
    /\ ErrorResponse_Error er = Returns ("Not found" +:+ ": " +:+ "no such id").
Proof.
  apply (CheckResponse_keys_any_case
           (response 404 "404 Not Found" jsonHeader otherCaseErrorBody)
           "Message" "MESSAGEDETAIL" "Not found" "no such id"
           [("MESSAGEDETAIL"%string, json.JString "no such id");
            ("Message"%string, json.JString "Not found")] []).
  - right. reflexivity.
  - reflexivity.
  - reflexivity.
  - vm_compute. reflexivity.
  - reflexivity.
  - reflexivity.
  - reflexivity.
  - right. reflexivity.
Defined.

(** ** The errors Do returns *)

Lemma CheckResponse_at_most_one (r : http.Response) (er : ErrorResponse) :
  fst (CheckResponse r) = Some er -> (length (Errors er) <= 1)%nat.
Proof.
  unfold CheckResponse.
  destruct ((200 <=? http.StatusCode r) && (http.StatusCode r <=? 299)); [discriminate|].
  destruct (checkContentType r).
  { intros [= <-]. cbn. lia. }
  unfold ReadAll. destruct (body_err (http.Body r)).
  { intros [= <-]. cbn. lia. }
  destruct (length (body_data (http.Body r)) =? 0)%nat.
  { intros [= <-]. cbn. lia. }
  unfold json_Unmarshal_ErrorResponse, UnmarshalJSON.
  destruct (json.checkValid _).
  { intros [= <-]. cbn. lia. }
  destruct (json.Unmarshal _ _) as [v [e|]]; intros [= <-]; cbn; lia.
Qed.

(** X29. Whenever [Do] returns an [ErrorResponse], the response it
    holds is the response [Do] returns with it, and it has at most one
    entry: the separator of the [Error] method never shows in the message
    of an error of [Do], which is the message of the one entry. *)
Theorem Do_error_shape :
  forall (c : Client.t) (req : http.Request) (responseBody : option GoValue)
         (er : ErrorResponse),
    do_error (Do c req responseBody) = Some (ResponseError er) ->
    do_response (Do c req responseBody) = Some (Response er)
    /\ (length (Errors er) <= 1)%nat
    /\ (forall e : error, In e (Errors er) ->
                          ErrorResponse_Error er = Returns (error_Error e)).
Proof.
  intros c req responseBody er Herror.
  assert (Hshape : do_response (Do c req responseBody) = Some (Response er)
                   /\ (length (Errors er) <= 1)%nat).
  { destruct (Client.http c req) as [err|r0] eqn:Hhttp.
    { unfold Do in Herror. rewrite Hhttp in Herror. discriminate Herror. }
    rewrite (Do_checked c req responseBody r0 Hhttp) in Herror |- *. cbv zeta in Herror |- *.
    destruct (fst (CheckResponse (received c req r0))) as [er'|] eqn:Hcheck.
    - cbn [do_error do_response] in Herror |- *. injection Herror as <-.
      split; [reflexivity | exact (CheckResponse_at_most_one _ _ Hcheck)].
    - destruct responseBody as [v|]; [|discriminate Herror].
      cbn [do_error do_response] in Herror |- *.
      destruct (snd (json.Decode _ _ v)) as [[]|]; try discriminate Herror;
        injection Herror as <-; split; first [reflexivity | cbn; lia]. }
  destruct Hshape as [Hresp Hlen]. split; [exact Hresp|]. split; [exact Hlen|].
  intros e Hin. destruct er as [resp [|e' [|e'' es]]]; cbn in Hlen, Hin.
  - destruct Hin.
  - destruct Hin as [<-|[]]. reflexivity.
  - lia.
Qed.

Lemma Do_error_shape_notFound :
  do_response (Do (clientAnswering notFound false) exampleRequest (Some (customer "before")))
  = Some (Response notFoundError)
  /\ (length (Errors notFoundError) <= 1)%nat
  /\ (forall e : error, In e (Errors notFoundError) ->
                        ErrorResponse_Error notFoundError = Returns (error_Error e)).
Proof.
  apply (Do_error_shape (clientAnswering notFound false) exampleRequest
           (Some (customer "before")) notFoundError).
  vm_compute. reflexivity.
Defined.

(** ** Strict and lenient decoding *)

(** Induction on a JSON value, with the property for the elements of an
    array and for the values of the members of an object. *)
Lemma value_induction (P : json.value -> Prop) :
  P json.JNull ->
  (forall b, P (json.JBool b)) ->
  (forall lit, P (json.JNumber lit)) ->
  (forall s, P (json.JString s)) ->
  (forall elems, Forall P elems -> P (json.JArray elems)) ->
  (forall members, Forall (fun kv => P (snd kv)) members -> P (json.JObject members)) ->
  forall j, P j.
Proof.
  intros Hnull Hbool Hnumber Hstring Harray Hobject.
  fix IH 1. intros [|b|lit|s|elems|members].
  - exact Hnull.
  - apply Hbool.
  - apply Hnumber.
  - apply Hstring.
  - apply Harray.
    exact ((fix all (l : list json.value) : Forall P l :=
              match l with
              | [] => @List.Forall_nil _ P
              | e :: l' => @List.Forall_cons _ P e l' (IH e) (all l')
              end) elems).
  - apply Hobject.
    exact ((fix all (l : list (string * json.value)) : Forall (fun kv => P (snd kv)) l :=
              match l with
              | [] => @List.Forall_nil _ _
              | kv :: l' => @List.Forall_cons _ (fun kv => P (snd kv)) kv l' (IH (snd kv)) (all l')
              end) members).
Qed.

Lemma saveError_stricter (saved_s saved_l new_s new_l : option json.decodeError) :
  (saved_l <> None -> saved_s <> None) ->
  (new_l <> None -> new_s <> None) ->
  json.saveError saved_l new_l <> None -> json.saveError saved_s new_s <> None.
Proof.
  intros Hsaved Hnew. destruct saved_l, saved_s; cbn; auto.
  intros _. exfalso. apply Hsaved; [discriminate | reflexivity].
Qed.

(** An error of lenient decoding is an error of strict decoding, and the
    two store the same. *)
Lemma object_stricter (t : string) (ctx : json.errorContext)
    (members : list (string * json.value)) :
  Forall (fun kv => forall ctx v,
              stricter (json.decode true ctx (snd kv) v) (json.decode false ctx (snd kv) v))
    members ->
  forall (fields : list (string * GoValue)) (saved_s saved_l : option json.decodeError),
    (saved_l <> None -> saved_s <> None) ->
    stricter (json.object (json.decode true) true t ctx members fields saved_s)
      (json.object (json.decode false) false t ctx members fields saved_l).
Proof.
  induction 1 as [|[key jv] members Hhead _ IH]; intros fields saved_s saved_l Hsaved.
  - split; [reflexivity | exact Hsaved].
  - cbn [json.object]. destruct (json.find_field key fields) as [i|].
    + destruct (fields !! i) as [[name fv]|]; [|apply IH; exact Hsaved].
      cbn [snd] in Hhead.
      destruct (Hhead {| json.ctx_Struct := json.type_Name t;
                         json.ctx_FieldStack := json.ctx_FieldStack ctx ++ [name] |} fv)
        as [Hstored Herr].
      destruct (json.decode true _ jv fv) as [fv_s err_s].
      destruct (json.decode false _ jv fv) as [fv_l err_l].
      cbn [fst snd] in Hstored, Herr. subst fv_l.
      apply IH, saveError_stricter; assumption.
    + apply IH. intros _. destruct saved_s; discriminate.
Qed.

Lemma decode_stricter (j : json.value) :
  forall (ctx : json.errorContext) (v : GoValue),
    stricter (json.decode true ctx j v) (json.decode false ctx j v).
Proof.
  induction j as [|b|lit|s|elems _|members IH] using value_induction; intros ctx v;
    try (split; [reflexivity | exact (fun H => H)]).
  cbn [json.decode]. destruct v as [s|b|t fields]; try (split; [reflexivity | exact (fun H => H)]).
  destruct (object_stricter t ctx members IH fields None None (fun H => H)) as [Hstored Herr].
  destruct (json.object (json.decode true) true t ctx members fields None) as [fields_s saved_s].
  destruct (json.object (json.decode false) false t ctx members fields None)
    as [fields_l saved_l].
  cbn [fst snd] in *. subst fields_l. split; [reflexivity | exact Herr].
Qed.

Lemma unmarshal_stricter (j : json.value) (v : GoValue) :
  fst (json.unmarshal true j v) = fst (json.unmarshal false j v)
  /\ (accepted (snd (json.unmarshal true j v)) -> accepted (snd (json.unmarshal false j v))).
Proof.
  unfold json.unmarshal.
  destruct (decode_stricter j json.noContext v) as [Hstored Herr].
  destruct (json.decode true json.noContext j v) as [v_s saved_s].
  destruct (json.decode false json.noContext j v) as [v_l saved_l].
  cbn [fst snd] in *. subst v_l. split; [reflexivity|].
  destruct saved_l as [e|]; [|intros _; exact I].
  destruct saved_s as [e'|]; [|exfalso; apply Herr; [discriminate | reflexivity]].
  intros Hacc. exfalso. cbn in Hacc.
  pose proof (error_of_not_EOF e') as Hnot.
  destruct (json.error_of e'); try exact Hacc. apply Hnot. reflexivity.
Qed.

Lemma Decode_stricter (body : ReadCloser) (v : GoValue) :
  fst (json.Decode true body v) = fst (json.Decode false body v)
  /\ (accepted (snd (json.Decode true body v)) -> accepted (snd (json.Decode false body v))).
Proof.
  unfold json.Decode. destruct (json.scan (body_data body)) as [j rest| | |];
    try (split; [reflexivity | exact (fun H => H)]).
  cbv zeta.
  destruct j, rest, (body_err body); cbv iota;
    first [apply unmarshal_stricter | split; [reflexivity | exact (fun H => H)]].
Qed.

(** X30. The refusal of unknown fields never changes what [Do] stores
    in the destination, nor the response it returns; it only adds
    errors: a call that succeeds with the refusal switched on succeeds
    with it switched off. *)
Theorem Do_strict_decodes_the_same :
  forall (c : Client.t) (req : http.Request) (responseBody : option GoValue),
    do_responseBody (Do (SetDisallowUnknownFields c true) req responseBody)
    = do_responseBody (Do (SetDisallowUnknownFields c false) req responseBody)
    /\ do_response (Do (SetDisallowUnknownFields c true) req responseBody)
       = do_response (Do (SetDisallowUnknownFields c false) req responseBody)
    /\ (do_error (Do (SetDisallowUnknownFields c true) req responseBody) = None ->
        do_error (Do (SetDisallowUnknownFields c false) req responseBody) = None).
Proof.
  intros c req responseBody.
  destruct (Client.http c req) as [err|r0] eqn:Hhttp.
  { unfold Do. cbn [SetDisallowUnknownFields Client.http Client.debug]. rewrite Hhttp.
    repeat split. discriminate. }
  rewrite (Do_checked (SetDisallowUnknownFields c true) req responseBody r0 Hhttp).
  rewrite (Do_checked (SetDisallowUnknownFields c false) req responseBody r0 Hhttp).
  cbv zeta. cbn [SetDisallowUnknownFields Client.disallowUnknownFields].
  change (received (SetDisallowUnknownFields c true) req r0) with (received c req r0).
  change (received (SetDisallowUnknownFields c false) req r0) with (received c req r0).
  destruct (fst (CheckResponse (received c req r0))); [repeat split; auto|].
  destruct responseBody as [v|]; [|repeat split; auto].
  destruct (Decode_stricter (http.Body (received c req r0)) v) as [Hstored Herr].
  cbn [do_responseBody do_response do_error]. rewrite Hstored.
  split; [reflexivity|]. split; [reflexivity|].
  intros Hstrict. unfold accepted in Herr.
  destruct (snd (json.Decode true _ v)) as [[]|]; try discriminate Hstrict;
    destruct (snd (json.Decode false _ v)) as [[]|]; try reflexivity;
    exfalso; apply Herr; exact I.
Qed.
